(** * Service Fusion -> GoHighLevel sync: a shallow embedding and its properties

    The development follows the layout of the repository:

    - [Py]       the fragments of the Python runtime the code relies on
                 (exceptions, truthiness, [str.replace], [datetime]);
    - [Config]   [app/config.py]: the settings and the status-to-stage table;
    - [SFCustomer], [SFJob], [SFEstimate]   [app/models/*.py];
    - [GHL]      the Target's dicts, the requests of the client and the
                 interface of the Target service;
    - [Eff], [slack_notifier]   the world, the monad of the effectful code and
                 [app/error_handler.py]'s notifier;
    - [state_manager]   [app/utils/state.py]: the cursor store;
    - [sf_client]       [app/services/sf_client.py]: the paged listers;
    - [ghl_client]      [app/services/ghl_client.py]: the Target client;
    - [main]     [app/main.py]: customer sync, conversion detection, the
                 opportunity matcher and the three polling passes;
    - [MemTarget], [Fixture]   an in-memory Target and the records of the
                 closed examples;
    - [Spec]     the vocabulary of the statements;
    - [sf_intake]   the customer search and the phone clean-up of the intake
                 endpoints ([sf_client.find_customer_by_email_or_phone],
                 [upload_contact_to_service_fusion],
                 [sync_ghl_to_service_fusion]);
    - [Scenario] further worlds and records for the closed examples.

    Effects are explicit.  A computation of type [M A] takes the world (the
    Target service, the log of Target calls, the Slack log, the state file and
    the clock) and returns a result or a raised exception together with the
    new world.  The two remote services are interfaces: the Source is a
    read-only table of page responses, the Target is any state machine
    answering the seven HTTP requests the client issues.

    Modelling conventions.  A naive [datetime] is the number of microseconds
    since 0001-01-01T00:00:00 as an unbounded [Z]; Python's MINYEAR/MAXYEAR
    range (and the [OverflowError] at its borders) is not represented.
    [datetime.fromisoformat] is a parameter of the development (its accepted
    language differs between Python versions); [Py.basic_fromisoformat] is an
    executable instance for the formats
    YYYY-MM-DD[*HH[:MM[:SS[.fff[fff]]]]][+HH:MM], used in the closed examples.
    Strings are byte strings. *)

From Stdlib Require Import ZArith List String Ascii Bool Lia.
From stdpp Require Import base tactics option list gmap strings pretty.

Local Open Scope string_scope.
Local Open Scope Z_scope.

(* ===================================================================== *)
(** ** Python runtime fragments *)
(* ===================================================================== *)

Module Py.

(** The exception classes that occur in the code.  [HTTPError] stands for the
    [httpx] errors ([HTTPStatusError], timeouts, network errors). *)
Inductive ErrorSeverity := LOW | MEDIUM | HIGH | CRITICAL.

Inductive atom :=
| AInt (z : Z)
| AStr (s : string)
| ANone.

Inductive ctxval :=
| VAtom (a : atom)
| VRecords (rows : list (list (string * atom))).

Definition context := list (string * ctxval).

Inductive exn :=
| AttributeError
| ValueError
| TypeError
| KeyError (key : string)
| IndexError
| PermissionError
| JSONDecodeError
| HTTPError (status : Z)
| JobSyncError (message : string) (severity : ErrorSeverity) (ctx : context).

Inductive Result (A : Type) :=
| Ok (a : A)
| Raise (e : exn).
Arguments Ok {A} a.
Arguments Raise {A} e.

#[global] Instance Result_ret : MRet Result := fun A a => Ok a.
#[global] Instance Result_bind : MBind Result :=
  fun A B f m => match m with Ok a => f a | Raise e => Raise e end.

#[global] Instance Result_fmap : FMap Result :=
  fun A B f m => match m with Ok a => Ok (f a) | Raise e => Raise e end.

Definition is_Ok {A} (r : Result A) : bool :=
  match r with Ok _ => true | Raise _ => false end.

(** [isinstance(e, JobSyncError)] *)
Definition is_JobSyncError (e : exn) : bool :=
  match e with JobSyncError _ _ _ => true | _ => false end.

(** [str(e)] for the exceptions above; only [JobSyncError] carries a message of
    the program's own. *)
Definition str_exn (e : exn) : string :=
  match e with
  | AttributeError => "AttributeError"
  | ValueError => "Invalid isoformat string"
  | TypeError => "TypeError"
  | KeyError k => k
  | IndexError => "list index out of range"
  | PermissionError => "Permission denied"
  | JSONDecodeError => "JSONDecodeError"
  | HTTPError st => "HTTP error " +:+ pretty st
  | JobSyncError m _ _ => m
  end.

(** [type(e).__name__] *)
Definition exn_name (e : exn) : string :=
  match e with
  | AttributeError => "AttributeError"
  | ValueError => "ValueError"
  | TypeError => "TypeError"
  | KeyError _ => "KeyError"
  | IndexError => "IndexError"
  | PermissionError => "PermissionError"
  | JSONDecodeError => "JSONDecodeError"
  | HTTPError _ => "HTTPStatusError"
  | JobSyncError _ _ _ => "JobSyncError"
  end.

(** [str(n)] for an int. *)
Definition str (z : Z) : string := pretty z.

(** Truthiness of [Optional[str]]: [None] and [""] are falsy. *)
Definition truthy (o : option string) : bool :=
  match o with
  | None => false
  | Some s => negb (String.eqb s "")
  end.

(** [a or b] on [Optional[str]]. *)
Definition or_else (a b : option string) : option string :=
  if truthy a then a else b.

(** [s.replace(old, "")]: the non-overlapping occurrences of [old] are removed
    from left to right.  [skip] counts the characters of a matched occurrence
    still to drop. *)
Fixpoint remove_from (old : string) (skip : nat) (s : string) : string :=
  match s with
  | EmptyString => EmptyString
  | String c s' =>
      match skip with
      | S k => remove_from old k s'
      | O => if String.prefix old s
             then remove_from old (Nat.pred (String.length old)) s'
             else String c (remove_from old 0 s')
      end
  end.

Definition str_remove (old s : string) : string :=
  if String.eqb old "" then s else remove_from old 0 s.

(** *** datetime *)

Definition MICROS_PER_SECOND : Z := 1000000.
Definition MICROS_PER_HOUR : Z := 3600 * MICROS_PER_SECOND.
Definition MICROS_PER_DAY : Z := 24 * MICROS_PER_HOUR.

(** [timedelta(hours=h)] *)
Definition timedelta_hours (h : Z) : Z := h * MICROS_PER_HOUR.

(** A [tzinfo] gives the UTC offset (microseconds) in force at a wall-clock
    time; [ZoneInfo] zones are such functions, [timezone.utc] is the constant
    zero. *)
Definition tzinfo := Z -> Z.

Definition fixed_offset (off : Z) : tzinfo := fun _ => off.
Definition utc : tzinfo := fixed_offset 0.

Record datetime := mk_datetime {
  wall : Z;                    (* microseconds since 0001-01-01T00:00:00 *)
  tz : option tzinfo           (* [None] for a naive datetime *)
}.

Definition naive (w : Z) : datetime := mk_datetime w None.

(** [dt.replace(tzinfo=z)] *)
Definition replace_tzinfo (dt : datetime) (z : option tzinfo) : datetime :=
  mk_datetime (wall dt) z.

(** The instant of an aware datetime, as a naive UTC wall clock. *)
Definition utc_wall (w : Z) (z : tzinfo) : Z := w - z w.

(** [dt.astimezone(timezone.utc)] for an aware [dt] (the code only calls it
    right after [replace(tzinfo=...)]); for a naive [dt] Python assumes the
    system zone, which the model takes to be UTC. *)
Definition astimezone_utc (dt : datetime) : datetime :=
  match tz dt with
  | Some z => mk_datetime (utc_wall (wall dt) z) (Some utc)
  | None => mk_datetime (wall dt) (Some utc)
  end.

(** [dt - timedelta] *)
Definition sub_timedelta (dt : datetime) (delta : Z) : datetime :=
  mk_datetime (wall dt - delta) (tz dt).

(** [a > b]: naive against naive compares the wall clocks, aware against
    aware compares the instants, a mixed comparison raises [TypeError]. *)
Definition gt (a b : datetime) : Result bool :=
  match tz a, tz b with
  | None, None => Ok (wall b <? wall a)
  | Some za, Some zb => Ok (utc_wall (wall b) zb <? utc_wall (wall a) za)
  | _, _ => Raise TypeError
  end.

(** *** The proleptic Gregorian calendar *)

Definition is_leap (y : Z) : bool :=
  ((y mod 4 =? 0) && negb (y mod 100 =? 0)) || (y mod 400 =? 0).

Definition days_in_month (y m : Z) : Z :=
  if m =? 2 then (if is_leap y then 29 else 28)
  else if (m =? 4) || (m =? 6) || (m =? 9) || (m =? 11) then 30
  else 31.

Definition days_before_year (y : Z) : Z :=
  let p := y - 1 in p * 365 + p / 4 - p / 100 + p / 400.

Definition days_before_month (y m : Z) : Z :=
  fold_left (fun acc k => acc + days_in_month y k)
            (map Z.of_nat (seq 1 (Z.to_nat (m - 1)))) 0.

(** [datetime(y, mo, d, h, mi, s)], naive. *)
Definition ymd_hms (y mo d h mi s : Z) : Z :=
  (days_before_year y + days_before_month y mo + (d - 1)) * MICROS_PER_DAY
  + h * MICROS_PER_HOUR + mi * 60 * MICROS_PER_SECOND + s * MICROS_PER_SECOND.

(** *** An executable [fromisoformat] for the basic formats *)

Definition digit (c : ascii) : option Z :=
  let n := Z.of_nat (nat_of_ascii c) in
  if (48 <=? n) && (n <=? 57) then Some (n - 48) else None.

Fixpoint digits (cs : list ascii) (acc : Z) : option Z :=
  match cs with
  | [] => Some acc
  | c :: cs' => match digit c with
                | Some d => digits cs' (acc * 10 + d)
                | None => None
                end
  end.

(** A fixed-width decimal field. *)
Definition field (n : nat) (cs : list ascii) : option (Z * list ascii) :=
  if Nat.ltb (List.length cs) n then None
  else match digits (firstn n cs) 0 with
       | Some v => Some (v, skipn n cs)
       | None => None
       end.

Definition expect (c : ascii) (cs : list ascii) : option (list ascii) :=
  match cs with
  | c' :: cs' => if Ascii.eqb c c' then Some cs' else None
  | [] => None
  end.

(** [HH[:MM[:SS]]] followed by the rest of the input. *)
Definition parse_time (cs : list ascii) : option (Z * Z * Z * list ascii) :=
  match field 2 cs with
  | None => None
  | Some (h, r1) =>
      match expect ":" r1 with
      | None => Some (h, 0, 0, r1)
      | Some r2 =>
          match field 2 r2 with
          | None => None
          | Some (mi, r3) =>
              match expect ":" r3 with
              | None => Some (h, mi, 0, r3)
              | Some r4 =>
                  match field 2 r4 with
                  | None => None
                  | Some (s, r5) => Some (h, mi, s, r5)
                  end
              end
          end
      end
  end.

(** [+HH:MM] or [-HH:MM] up to the end of the input; the empty rest is a
    naive time. *)
Definition parse_offset (cs : list ascii) : option (option Z) :=
  match cs with
  | [] => Some None
  | sgn :: r =>
      let sign := if Ascii.eqb sgn "+" then Some 1
                  else if Ascii.eqb sgn "-" then Some (-1) else None in
      match sign, field 2 r with
      | Some sg, Some (h, r1) =>
          match expect ":" r1 with
          | Some r2 =>
              match field 2 r2 with
              | Some (mi, []) =>
                  if (h <? 24) && (mi <? 60)
                  then Some (Some (sg * (h * MICROS_PER_HOUR + mi * 60 * MICROS_PER_SECOND)))
                  else None
              | _ => None
              end
          | None => None
          end
      | _, _ => None
      end
  end.

Definition parse_date (cs : list ascii) : option (Z * Z * Z * list ascii) :=
  match field 4 cs with
  | None => None
  | Some (y, r1) =>
      match expect "-" r1 with
      | None => None
      | Some r2 =>
          match field 2 r2 with
          | None => None
          | Some (mo, r3) =>
              match expect "-" r3 with
              | None => None
              | Some r4 =>
                  match field 2 r4 with
                  | None => None
                  | Some (d, r5) =>
                      if (1 <=? y) && (1 <=? mo) && (mo <=? 12)
                         && (1 <=? d) && (d <=? days_in_month y mo)
                      then Some (y, mo, d, r5) else None
                  end
              end
          end
      end
  end.

(** [.fff] or [.ffffff]; the value in microseconds and the rest. *)
Definition parse_fraction (cs : list ascii) : option (Z * list ascii) :=
  match expect "." cs with
  | None => Some (0, cs)
  | Some r =>
      match field 6 r with
      | Some (us, r') => Some (us, r')
      | None => match field 3 r with
                | Some (ms, r') => Some (ms * 1000, r')
                | None => None
                end
      end
  end.

Definition basic_fromisoformat (s : string) : Result datetime :=
  match parse_date (list_ascii_of_string s) with
  | None => Raise ValueError
  | Some (y, mo, d, r) =>
      match r with
      | [] => Ok (naive (ymd_hms y mo d 0 0 0))
      | _sep :: r1 =>
          match parse_time r1 with
          | None => Raise ValueError
          | Some (h, mi, sec, r2) =>
              if (h <? 24) && (mi <? 60) && (sec <? 60) then
                match parse_fraction r2 with
                | None => Raise ValueError
                | Some (us, r3) =>
                    match parse_offset r3 with
                    | Some None => Ok (naive (ymd_hms y mo d h mi sec + us))
                    | Some (Some off) =>
                        Ok (mk_datetime (ymd_hms y mo d h mi sec + us)
                                        (Some (fixed_offset off)))
                    | None => Raise ValueError
                    end
                end
              else Raise ValueError
          end
      end
  end.

(** *** [isoformat] *)

(** The civil date of a day count (days since 0001-01-01). *)
Definition civil_of_days (days : Z) : Z * Z * Z :=
  let z := days + 306 in
  let era := z / 146097 in
  let doe := z - era * 146097 in
  let yoe := (doe - doe / 1460 + doe / 36524 - doe / 146096) / 365 in
  let doy := doe - (365 * yoe + yoe / 4 - yoe / 100) in
  let mp := (5 * doy + 2) / 153 in
  let d := doy - (153 * mp + 2) / 5 + 1 in
  let m := if mp <? 10 then mp + 3 else mp - 9 in
  let y := yoe + era * 400 + (if m <=? 2 then 1 else 0) in
  (y, m, d).

(** [n] decimal digits of [z], zero padded. *)
Fixpoint zero_padded (n : nat) (z : Z) : string :=
  match n with
  | O => EmptyString
  | S k => zero_padded k (z / 10) +:+
           String (ascii_of_nat (Z.to_nat (48 + z mod 10))) EmptyString
  end.

Definition isoformat_offset (off : Z) : string :=
  let a := Z.abs off / (60 * MICROS_PER_SECOND) in
  (if off <? 0 then "-" else "+") +:+ zero_padded 2 (a / 60) +:+ ":" +:+ zero_padded 2 (a mod 60).

(** [dt.isoformat()] *)
Definition isoformat (dt : datetime) : string :=
  let days := wall dt / MICROS_PER_DAY in
  let rest := wall dt mod MICROS_PER_DAY in
  let '(y, m, d) := civil_of_days days in
  let secs := rest / MICROS_PER_SECOND in
  let us := rest mod MICROS_PER_SECOND in
  zero_padded 4 y +:+ "-" +:+ zero_padded 2 m +:+ "-" +:+ zero_padded 2 d +:+ "T"
  +:+ zero_padded 2 (secs / 3600) +:+ ":" +:+ zero_padded 2 (secs / 60 mod 60) +:+ ":"
  +:+ zero_padded 2 (secs mod 60)
  +:+ (if us =? 0 then "" else "." +:+ zero_padded 6 us)
  +:+ match tz dt with
      | None => ""
      | Some z => isoformat_offset (z (wall dt))
      end.

(** The runtime a model is run against: which strings [fromisoformat]
    accepts. *)
Class Runtime := { fromisoformat : string -> Result datetime }.

Definition basic_runtime : Runtime := {| fromisoformat := basic_fromisoformat |}.

End Py.
Export Py.

(* ===================================================================== *)
(** ** app/config.py *)
(* ===================================================================== *)

Module Config.

Class Settings := {
  ghl_location_id : string;
  (* GHL custom field ids *)
  ghl_sf_customer_id_field : string;
  ghl_sf_last_sync_field : string;
  ghl_sf_updated_at_field : string;
  (* GHL pipeline stage ids *)
  ghl_stage_appointment_request : string;
  ghl_stage_estimate_scheduled : string;
  ghl_stage_estimate_sent : string;
  ghl_stage_estimate_stop : string;
  ghl_stage_canceled : string;
  ghl_stage_job_scheduled : string;
  ghl_stage_job_in_progress : string;
  ghl_stage_review_referral : string;
  ghl_opportunity_crm_job_id_field : string;
  ghl_pipeline_id : string;
  (* Service Fusion job status names *)
  sf_status_unscheduled : string;
  sf_status_scheduled : string;
  sf_status_dispatched : string;
  sf_status_delayed : string;
  sf_status_on_the_way : string;
  sf_status_on_site : string;
  sf_status_started : string;
  sf_status_paused : string;
  sf_status_resumed : string;
  sf_status_completed : string;
  sf_status_cancelled : string;
  sf_status_job_closed : string;
  sf_status_to_be_invoiced : string;
  sf_status_invoiced : string;
  sf_status_paid_in_full : string;
  sf_status_partially_completed : string;
  sf_status_archived : string;
  (* estimate status names *)
  sf_estimate_status_requested : string;
  sf_estimate_status_scheduled : string;
  sf_estimate_status_provided : string;
  sf_estimate_status_accepted : string;
  sf_estimate_status_won : string;
  sf_estimate_status_lost : string;
  (* [sf_tz]: the zone named by [sf_timezone] *)
  sf_tz : tzinfo
}.

(** The field defaults of [Settings]; the zone behind the default name
    "America/New_York" and the required location id are left to the caller. *)
Definition default_settings (location : string) (zone : tzinfo) : Settings := {|
  ghl_location_id := location;
  ghl_sf_customer_id_field := "";
  ghl_sf_last_sync_field := "";
  ghl_sf_updated_at_field := "";
  ghl_stage_appointment_request := "";
  ghl_stage_estimate_scheduled := "";
  ghl_stage_estimate_sent := "";
  ghl_stage_estimate_stop := "";
  ghl_stage_canceled := "";
  ghl_stage_job_scheduled := "";
  ghl_stage_job_in_progress := "";
  ghl_stage_review_referral := "";
  ghl_opportunity_crm_job_id_field := "";
  ghl_pipeline_id := "";
  sf_status_unscheduled := "Unscheduled";
  sf_status_scheduled := "Scheduled";
  sf_status_dispatched := "Dispatched";
  sf_status_delayed := "Delayed";
  sf_status_on_the_way := "On The Way";
  sf_status_on_site := "On Site";
  sf_status_started := "Started";
  sf_status_paused := "Paused";
  sf_status_resumed := "Resumed";
  sf_status_completed := "Completed";
  sf_status_cancelled := "Cancelled";
  sf_status_job_closed := "Job Closed";
  sf_status_to_be_invoiced := "To be invoiced";
  sf_status_invoiced := "Invoiced";
  sf_status_paid_in_full := "Paid in Full";
  sf_status_partially_completed := "Partially Completed";
  sf_status_archived := "Archived";
  sf_estimate_status_requested := "Estimate Requested";
  sf_estimate_status_scheduled := "Estimate Scheduled";
  sf_estimate_status_provided := "Estimate Provided";
  sf_estimate_status_accepted := "Estimate Accepted";
  sf_estimate_status_won := "Estimate Won";
  sf_estimate_status_lost := "Lost";
  sf_tz := zone
|}.

(** The entries of the dict display [sf_to_ghl_stage_map], in source order. *)
Definition stage_map_entries (settings : Settings) : list (string * string) :=
  [ (* Job statuses *)
    (sf_status_unscheduled, ghl_stage_job_scheduled);
    (sf_status_cancelled, ghl_stage_canceled);
    (sf_status_scheduled, ghl_stage_job_scheduled);
    (sf_status_dispatched, ghl_stage_job_scheduled);
    (sf_status_partially_completed, ghl_stage_job_in_progress);
    (sf_status_delayed, ghl_stage_job_in_progress);
    (sf_status_on_the_way, ghl_stage_job_in_progress);
    (sf_status_on_site, ghl_stage_job_in_progress);
    (sf_status_started, ghl_stage_job_in_progress);
    (sf_status_paused, ghl_stage_job_in_progress);
    (sf_status_resumed, ghl_stage_job_in_progress);
    (sf_status_completed, ghl_stage_review_referral);
    (* Estimates *)
    (sf_estimate_status_requested, ghl_stage_estimate_scheduled);
    (sf_estimate_status_accepted, ghl_stage_estimate_stop);
    (sf_estimate_status_won, ghl_stage_estimate_stop);
    (sf_estimate_status_lost, ghl_stage_estimate_stop);
    (sf_estimate_status_provided, ghl_stage_estimate_sent) ].

(** A dict display evaluates its entries from left to right; a repeated key
    keeps the last value. *)
Definition dict_of (entries : list (string * string)) : gmap string string :=
  fold_left (fun m kv => <[kv.1 := kv.2]> m) entries ∅.

Definition sf_to_ghl_stage_map (settings : Settings) : gmap string string :=
  dict_of (stage_map_entries settings).

(** The two status vocabularies the settings define. *)
Definition job_statuses (settings : Settings) : list string :=
  [ sf_status_unscheduled; sf_status_scheduled; sf_status_dispatched;
    sf_status_delayed; sf_status_on_the_way; sf_status_on_site;
    sf_status_started; sf_status_paused; sf_status_resumed;
    sf_status_completed; sf_status_cancelled; sf_status_job_closed;
    sf_status_to_be_invoiced; sf_status_invoiced; sf_status_paid_in_full;
    sf_status_partially_completed; sf_status_archived ].

Definition estimate_statuses (settings : Settings) : list string :=
  [ sf_estimate_status_requested; sf_estimate_status_scheduled;
    sf_estimate_status_provided; sf_estimate_status_accepted;
    sf_estimate_status_won; sf_estimate_status_lost ].

End Config.
Export Config.

(* ===================================================================== *)
(** ** app/models/service_fusion.py *)
(* ===================================================================== *)

Module Text.

(** [str.isspace] on one byte. *)
Definition is_space (c : ascii) : bool :=
  let n := nat_of_ascii c in
  Nat.eqb n 32 || (Nat.leb 9 n && Nat.leb n 13) || (Nat.leb 28 n && Nat.leb n 31).

Definition is_digit (c : ascii) : bool :=
  let n := nat_of_ascii c in Nat.leb 48 n && Nat.leb n 57.

(** [s.split()]: the maximal runs of non-space characters. *)
Fixpoint split_from (s cur : string) : list string :=
  match s with
  | EmptyString => if String.eqb cur "" then [] else [cur]
  | String c s' =>
      if is_space c
      then (if String.eqb cur "" then split_from s' "" else cur :: split_from s' "")
      else split_from s' (cur +:+ String c "")
  end.

Definition split (s : string) : list string := split_from s "".

(** [s.strip()] *)
Fixpoint lstrip (s : string) : string :=
  match s with
  | EmptyString => EmptyString
  | String c s' => if is_space c then lstrip s' else s
  end.

Fixpoint rstrip (s : string) : string :=
  match s with
  | EmptyString => EmptyString
  | String c s' =>
      match rstrip s' with
      | EmptyString => if is_space c then EmptyString else String c EmptyString
      | r => String c r
      end
  end.

Definition strip (s : string) : string := rstrip (lstrip s).

(** [s.lower()] on bytes. *)
Fixpoint lower (s : string) : string :=
  match s with
  | EmptyString => EmptyString
  | String c s' =>
      let n := nat_of_ascii c in
      String (if Nat.leb 65 n && Nat.leb n 90 then ascii_of_nat (n + 32) else c) (lower s')
  end.

(** [re.sub(r"\D", "", s)] *)
Fixpoint digits_only (s : string) : string :=
  match s with
  | EmptyString => EmptyString
  | String c s' => if is_digit c then String c (digits_only s') else digits_only s'
  end.

End Text.

Module SFPhone.
Record t := { phone : option string }.

Definition normalized (self : t) : option string :=
  if negb (truthy (phone self)) then None
  else Text.digits_only <$> phone self.
End SFPhone.

Module SFEmail.
Record t := { email : option string }.
End SFEmail.

Module SFContact.
Record t := {
  fname : option string;
  lname : option string;
  is_primary : option bool;
  phones : list SFPhone.t;
  emails : list SFEmail.t
}.

Definition primary_phone (self : t) : option string :=
  match phones self with
  | p :: _ => SFPhone.normalized p
  | [] => None
  end.

Definition primary_email (self : t) : option string :=
  match emails self with
  | e :: _ => SFEmail.email e
  | [] => None
  end.
End SFContact.

Module SFCustomer.
Record t := {
  id : Z;
  customer_name : string;
  updated_at : string;
  contacts : list SFContact.t
}.

Definition primary_contact (self : t) : option SFContact.t :=
  match List.find (fun c => match SFContact.is_primary c with Some true => true | _ => false end)
                  (contacts self) with
  | Some c => Some c
  | None => head (contacts self)
  end.

Definition phone (self : t) : option string :=
  match primary_contact self with
  | Some contact => SFContact.primary_phone contact
  | None => None
  end.

Definition email (self : t) : option string :=
  match primary_contact self with
  | Some contact => SFContact.primary_email contact
  | None => None
  end.

Definition contact_name (self : t) (get : SFContact.t -> option string) : option string :=
  match primary_contact self with
  | Some contact => if truthy (get contact) then get contact else None
  | None => None
  end.

Definition first_name (self : t) : Result string :=
  match contact_name self SFContact.fname with
  | Some n => Ok n
  | None =>
      if String.eqb (customer_name self) "" then Ok ""
      else match Text.split (customer_name self) with
           | w :: _ => Ok w
           | [] => Raise IndexError
           end
  end.

Definition last_name (self : t) : Result string :=
  match contact_name self SFContact.lname with
  | Some n => Ok n
  | None =>
      match Text.split (customer_name self) with
      | _ :: (_ :: _) as rest => Ok (String.concat " " rest)
      | _ => Ok ""
      end
  end.

(** "SF API returns timestamps in UTC with +00:00 suffix.  We strip the
    timezone info and return as timezone-naive UTC." *)
Definition updated_at_datetime `{Runtime} (self : t) : Result datetime :=
  let dt_str := str_remove "Z" (str_remove "+00:00" (updated_at self)) in
  fromisoformat dt_str.
End SFCustomer.

(* ===================================================================== *)
(** ** app/models/service_fusion_jobs.py, service_fusion_estimates.py *)
(* ===================================================================== *)

Module SFJob.
Record t := {
  id : Z;
  number : option string;
  customer_id : Z;
  customer_name : option string;
  status : string;
  updated_at : string;
  created_at : option string
}.

Definition updated_at_datetime `{Runtime} `{Settings} (self : t) : Result datetime :=
  (* Parse the timestamp (ignoring the lying +00:00) *)
  let dt_str := str_remove "+00:00" (updated_at self) in
  dt_naive ← fromisoformat dt_str;
  (* Treat it as SF's timezone (not UTC!) *)
  let dt_sf_tz := replace_tzinfo dt_naive (Some sf_tz) in
  (* Convert to UTC *)
  let dt_utc := astimezone_utc dt_sf_tz in
  (* Return timezone-naive UTC (to match state manager) *)
  mret (replace_tzinfo dt_utc None).

Definition created_at_datetime `{Runtime} `{Settings} (self : t) : Result (option datetime) :=
  match created_at self with
  | None => Ok None
  | Some created =>
      if String.eqb created "" then Ok None
      else
        let dt_str := str_remove "+00:00" created in
        dt_naive ← fromisoformat dt_str;
        let dt_sf_tz := replace_tzinfo dt_naive (Some sf_tz) in
        let dt_utc := astimezone_utc dt_sf_tz in
        mret (Some (replace_tzinfo dt_utc None))
  end.
End SFJob.

Module SFEstimate.
Record t := {
  id : Z;
  number : string;
  customer_id : Z;
  customer_name : string;
  status : string;
  updated_at : string
}.

Definition updated_at_datetime `{Runtime} `{Settings} (self : t) : Result datetime :=
  let dt_str := str_remove "+00:00" (updated_at self) in
  dt_naive ← fromisoformat dt_str;
  let dt_sf_tz := replace_tzinfo dt_naive (Some sf_tz) in
  let dt_utc := astimezone_utc dt_sf_tz in
  mret (replace_tzinfo dt_utc None).
End SFEstimate.

(** [Union[SFJob, SFEstimate]] *)
Inductive WorkOrder :=
| Job (job : SFJob.t)
| Estimate (estimate : SFEstimate.t).

Module WO.
Definition id (w : WorkOrder) : Z :=
  match w with Job j => SFJob.id j | Estimate e => SFEstimate.id e end.
Definition number (w : WorkOrder) : option string :=
  match w with Job j => SFJob.number j | Estimate e => Some (SFEstimate.number e) end.
Definition customer_id (w : WorkOrder) : Z :=
  match w with Job j => SFJob.customer_id j | Estimate e => SFEstimate.customer_id e end.
Definition status (w : WorkOrder) : string :=
  match w with Job j => SFJob.status j | Estimate e => SFEstimate.status e end.
Definition updated_at_datetime `{Runtime} `{Settings} (w : WorkOrder) : Result datetime :=
  match w with
  | Job j => SFJob.updated_at_datetime j
  | Estimate e => SFEstimate.updated_at_datetime e
  end.
End WO.

(* ===================================================================== *)
(** ** app/models/gohighlevel.py and the JSON shapes of the Target *)
(* ===================================================================== *)

Module GHL.

(** A value in a request body. *)
Inductive pv :=
| PStr (s : string)
| PNone
| PCustomFields (fields : list (string * string)).

(** A request body: the dict the client sends, in insertion order. *)
Definition payload := list (string * pv).

(** [d[k] = v] *)
Fixpoint set_item (d : payload) (k : string) (v : pv) : payload :=
  match d with
  | [] => [(k, v)]
  | (k', v') :: d' => if String.eqb k k' then (k, v) :: d' else (k', v') :: set_item d' k v
  end.

(** A contact as the search endpoint returns it; only ["id"] is read and
    [None] is an absent key. *)
Record ContactDict := { contact_id : option string }.

(** [GHLContact]: the pydantic model of an upserted contact. *)
Record GHLContact := { id : option string }.

Record CustomFieldDict := {
  field_id : option string;
  fieldValueString : option string;
  value : option string
}.

(** An opportunity as the Target returns it; [None] is an absent key. *)
Record OpportunityDict := {
  opportunity_id : option string;
  name : option string;
  pipelineStageId : option string;
  customFields : list CustomFieldDict
}.

(** The calls of [GoHighLevelClient] that the sync code issues. *)
Inductive Call :=
| SearchContactByPhone (phone : string)
| SearchContactByEmail (email : string)
| UpdateContactCustomField (contact_id field_id value : string)
| UpsertContact (contact_data : payload)
| SearchOpportunityByJobId (sf_job_id : Z) (contact_id : string)
| CreateOpportunity (opportunity_data : payload)
| UpdateOpportunityCustomField (opportunity_id field_key field_value : string)
| UpdateOpportunity (opportunity_id : string) (update_data : payload).

(** The calls that write to the Target (POST and PUT requests). *)
Definition mutating (c : Call) : bool :=
  match c with
  | SearchContactByPhone _ | SearchContactByEmail _ | SearchOpportunityByJobId _ _ => false
  | UpdateContactCustomField _ _ _ | UpsertContact _ | CreateOpportunity _
  | UpdateOpportunityCustomField _ _ _ | UpdateOpportunity _ _ => true
  end.

(** The calls that write to an opportunity. *)
Definition opportunity_mutation (c : Call) : bool :=
  match c with
  | CreateOpportunity _ | UpdateOpportunityCustomField _ _ _ | UpdateOpportunity _ _ => true
  | _ => false
  end.

Definition is_create_opportunity (c : Call) : bool :=
  match c with CreateOpportunity _ => true | _ => false end.

(** The Target service: a state machine answering the HTTP requests of
    [ghl_client.py].  Every request may fail ([raise_for_status]). *)
Class Server (S : Type) := {
  (* GET /contacts/?locationId=..&query=.. *)
  get_contacts : string -> S -> Result (list ContactDict) * S;
  (* PUT /contacts/{id} {"customFields": [{"id": .., "value": ..}]} *)
  put_contact : string -> string -> string -> S -> Result unit * S;
  (* POST /contacts/upsert *)
  post_contacts_upsert : payload -> S -> Result GHLContact * S;
  (* GET /opportunities/search?location_id=..&contact_id=.. *)
  get_opportunities_search : string -> S -> Result (list OpportunityDict) * S;
  (* POST /opportunities/ *)
  post_opportunities : payload -> S -> Result OpportunityDict * S;
  (* PUT /opportunities/{id} {"customFields": [{"key": .., "value": ..}]} *)
  put_opportunity_custom_field : string -> string -> string -> S -> Result unit * S;
  (* PUT /opportunities/{id} *)
  put_opportunity : string -> payload -> S -> Result unit * S
}.

End GHL.

(* ===================================================================== *)
(** ** The world and the effect monad *)
(* ===================================================================== *)

Module Eff.

Record Notification := {
  function_name : string;
  severity : ErrorSeverity;
  message : string;
  ctx : context
}.

(** A value stored in the state file. *)
Inductive json :=
| JNull
| JBool (b : bool)
| JInt (z : Z)
| JStr (s : string)
| JContainer (nonempty : bool).

(** The state file [sync_state.json]. *)
Inductive FileState :=
| Absent                              (* the path does not exist *)
| Unreadable                          (* [open] raises [PermissionError] *)
| Corrupt                             (* [json.load] raises [JSONDecodeError] *)
| NotADict                            (* valid JSON that is not an object *)
| Dict (data : gmap string json).

Record World (S : Type) := mkWorld {
  target : S;                         (* the Target service *)
  calls : list GHL.Call;              (* the Target calls issued so far *)
  slack : list Notification;          (* [send_error] invocations so far *)
  state_file : FileState;
  clock : Z                           (* [datetime.now(timezone.utc)] *)
}.
Arguments mkWorld {S}.
Arguments target {S}.
Arguments calls {S}.
Arguments slack {S}.
Arguments state_file {S}.
Arguments clock {S}.

Definition M (S A : Type) : Type := World S -> Result A * World S.

#[global] Instance M_ret {S} : MRet (M S) := fun A a w => (Ok a, w).
#[global] Instance M_bind {S} : MBind (M S) :=
  fun A B f m w => match m w with
                   | (Ok a, w') => f a w'
                   | (Raise e, w') => (Raise e, w')
                   end.

Definition raise {S A} (e : exn) : M S A := fun w => (Raise e, w).

Definition lift {S A} (r : Result A) : M S A := fun w => (r, w).

(** [try: body except ...: handler]; [handler e = None] when no clause
    matches [e]. *)
Definition try_except {S A} (body : M S A) (handler : exn -> option (M S A)) : M S A :=
  fun w => match body w with
           | (Ok a, w') => (Ok a, w')
           | (Raise e, w') =>
               match handler e with
               | Some h => h w'
               | None => (Raise e, w')
               end
           end.

(** [datetime.now(timezone.utc).replace(tzinfo=None)] *)
Definition utcnow {S} : M S datetime := fun w => (Ok (naive (clock w)), w).

End Eff.
Export Eff.

(* ===================================================================== *)
(** ** app/error_handler.py *)
(* ===================================================================== *)

Module slack_notifier.

(** [send_error] formats the message, logs it and posts it to the webhook;
    every failure of the delivery is swallowed, so the call always returns.
    The model records the invocation. *)
Definition send_error {S} (error : string) (function_name : string)
    (severity : ErrorSeverity) (context : context) : M S unit :=
  fun w =>
    (Ok tt,
     mkWorld (target w) (calls w)
             ((slack w ++ [ {| function_name := function_name; severity := severity;
                              message := error; ctx := context |} ])%list)
             (state_file w) (clock w)).

End slack_notifier.

(* ===================================================================== *)
(** ** app/utils/state.py *)
(* ===================================================================== *)

Module state_manager.
Section StateManager.
Context `{Runtime} {S : Type}.

(** [not v] for a JSON value. *)
Definition falsy (v : json) : bool :=
  match v with
  | JNull => true
  | JBool b => negb b
  | JInt z => z =? 0
  | JStr s => String.eqb s ""
  | JContainer nonempty => negb nonempty
  end.

Definition set_state_file (f : FileState) : M S unit :=
  fun w => (Ok tt, mkWorld (target w) (calls w) (slack w) f (clock w)).

(** [with open(self.file_path, "r") as f: data = json.load(f)], for an
    existing file; [None] is a JSON value that is not an object. *)
Definition load_json (f : FileState) : Result (option (gmap string json)) :=
  match f with
  | Absent => Ok (Some ∅)             (* callers test [exists()] first *)
  | Unreadable => Raise PermissionError
  | Corrupt => Raise JSONDecodeError
  | NotADict => Ok None
  | Dict data => Ok (Some data)
  end.

(** [datetime.now(timezone.utc).replace(tzinfo=None) - timedelta(hours=24)] *)
Definition fallback : M S datetime :=
  now ← utcnow; mret (sub_timedelta now (timedelta_hours 24)).

(** The [try] block shared by the three cursor readers. *)
Definition read_cursor (key : string) : M S datetime :=
  fun w =>
    match state_file w with
    | Absent => fallback w                        (* first run *)
    | f =>
        match load_json f with
        | Raise e => (Raise e, w)
        | Ok None => (Raise AttributeError, w)    (* [data.get] on a non-dict *)
        | Ok (Some data) =>
            match data !! key with
            | None => fallback w                  (* missing field *)
            | Some v =>
                if falsy v then fallback w
                else match v with
                     | JStr last_poll_str => (fromisoformat last_poll_str, w)
                     | _ => (Raise TypeError, w)
                     end
            end
        end
    end.

(** [except (PermissionError, json.JSONDecodeError, ValueError) as e] *)
Definition cursor_handler (function_name : string) (context : context)
    (e : exn) : option (M S datetime) :=
  match e with
  | PermissionError | JSONDecodeError | ValueError =>
      Some (slack_notifier.send_error (str_exn e) function_name LOW context;; fallback)
  | _ => None
  end.

(** [str(self.file_path)] of the global [state_manager]. *)
Definition file_path : string := "sync_state.json".

Definition get_last_customer_poll_time : M S datetime :=
  try_except (read_cursor "last_sf_poll")
    (cursor_handler "get_last_poll_time"
       [("file_path", VAtom (AStr file_path));
        ("fallback", VAtom (AStr ("Using 24 hours ago. Something wrong with state file. "
                                  +:+ "Using 24 hours ago as a fallback. So Low Severity")));
        ("action", VAtom (AStr "Check file permissions and JSON validity"))]).

Definition get_last_job_poll_time : M S datetime :=
  try_except (read_cursor "last_job_poll")
    (cursor_handler "get_last_job_poll_time"
       [("file_path", VAtom (AStr file_path));
        ("fallback_used", VAtom (AStr "24 hours ago"));
        ("impact", VAtom (AStr "May re-sync some recent jobs"))]).

Definition get_last_estimate_poll_time : M S datetime :=
  try_except (read_cursor "last_estimate_poll")
    (cursor_handler "get_last_estimate_poll_time"
       [("file_path", VAtom (AStr file_path));
        ("fallback_used", VAtom (AStr "24 hours ago"));
        ("impact", VAtom (AStr "May re-sync recent estimates"))]).

(** The body shared by the three [save_last_*_poll_time] methods. *)
Definition save_cursor (key : string) (dt : datetime) : M S unit :=
  fun w =>
    match load_json (state_file w) with
    | Raise e => (Raise e, w)
    | Ok None => (Raise TypeError, w)             (* item assignment on a non-dict *)
    | Ok (Some data) => set_state_file (Dict (<[key := JStr (isoformat dt)]> data)) w
    end.

Definition save_last_poll_time := save_cursor "last_sf_poll".
Definition save_last_job_poll_time := save_cursor "last_job_poll".
Definition save_last_estimate_poll_time := save_cursor "last_estimate_poll".

(** [get_stats]: the whole file, or [{}] when it does not exist. *)
Definition get_stats : M S (option (gmap string json)) :=
  fun w => (load_json (state_file w), w).

(** [stats.get(key, 0) + n] *)
Definition stat_plus (stats : option (gmap string json)) (key : string) (n : Z) : Result Z :=
  match stats with
  | None => Raise AttributeError
  | Some data =>
      match data !! key with
      | None => Ok (0 + n)
      | Some (JInt z) => Ok (z + n)
      | Some (JBool b) => Ok ((if b then 1 else 0) + n)
      | Some _ => Raise TypeError
      end
  end.

(** [update_stats]: the keyword arguments are merged into the file. *)
Definition update_stats (kwargs : list (string * json)) : M S unit :=
  stats ← get_stats;
  match stats with
  | None => raise AttributeError                  (* [data.update] on a non-dict *)
  | Some data =>
      set_state_file (Dict (fold_left (fun m kv => <[kv.1 := kv.2]> m) kwargs data))
  end.

End StateManager.
End state_manager.

(* ===================================================================== *)
(** ** app/services/sf_client.py *)
(* ===================================================================== *)

Module sf_client.

(** The Source service as the sync reads it.  A listing endpoint, sorted by
    [-updated_at], is the finite sequence of its page responses (page 1
    first); a page past the end has no items.  A response may be an error
    ([raise_for_status], an expired token, a timeout). *)
Class Source := {
  customers_feed : list (Result (list SFCustomer.t));
  jobs_feed : list (Result (list SFJob.t));
  estimates_feed : list (Result (list SFEstimate.t));
  (* GET /v1/customers/{id}; a 404 is [Ok None] *)
  customer_by_id : Z -> Result (option SFCustomer.t)
}.

(** [l[:n]] *)
Definition slice_to {A} (n : Z) (l : list A) : list A :=
  if n <? 0 then firstn (List.length l - Z.to_nat (- n)) l
  else firstn (Z.to_nat n) l.

(** [except (AttributeError, ValueError, TypeError)] *)
Definition data_quality_error (e : exn) : bool :=
  match e with
  | AttributeError | ValueError | TypeError => true
  | _ => false
  end.

Definition PER_PAGE : nat := 50.

Section Lister.
Context {S R : Type}.
(** What differs between the three listers: the timestamp property, the entry
    appended to the bad-record batch, and the notification. *)
Variable updated_at_datetime : R -> Result datetime.
Variable bad_entry : R -> exn -> nat -> Result (list (string * atom)).
Variable function_name : string.
Variable kind : string.                 (* "customer", "job", "estimate" *)

(** [_notify_bad_customers], [_notify_bad_jobs], [_notify_bad_estimates] *)
Definition notify_bad (bad : list (list (string * atom))) : M S unit :=
  let n := List.length bad in
  let error_summary :=
    "Found " +:+ pretty n +:+ " " +:+ kind +:+ "(s) with data quality issues during sync" in
  let context :=
    ([ ("count", VAtom (AInt (Z.of_nat n)));
       (kind +:+ "s", VRecords (firstn 10 bad));
       ("recommendation", VAtom (AStr ("Check Service Fusion data quality for these " +:+ kind +:+ "s"))) ]
     ++ (if Nat.ltb 10 n
         then [("note", VAtom (AStr ("Showing first 10 of " +:+ pretty n +:+ " total bad records")))]
         else []))%list in
  slack_notifier.send_error error_summary function_name LOW context.

(** [if bad: await self._notify_bad(bad)] *)
Definition flush_bad (bad : list (list (string * atom))) : M S unit :=
  match bad with
  | [] => mret tt
  | _ => notify_bad bad
  end.

(** How the [for] loop over one page ends. *)
Inductive page_outcome :=
| Older (updated : list R) (bad : list (list (string * atom)))      (* the [else] branch: return *)
| Exhausted (updated : list R) (bad : list (list (string * atom)))  (* the page is done *)
| Propagated (e : exn).                                             (* an exception no clause catches *)

(** [for record in response.items: try: ... except (...): ...] *)
Fixpoint scan_items (since : datetime) (items : list R) (page : nat)
    (updated : list R) (bad : list (list (string * atom))) : page_outcome :=
  match items with
  | [] => Exhausted updated bad
  | record :: rest =>
      match (record_updated ← updated_at_datetime record; gt record_updated since) with
      | Ok true => scan_items since rest page (updated ++ [record])%list bad
      | Ok false => Older updated bad
      | Raise e =>
          if data_quality_error e
          then match bad_entry record e page with
               | Ok entry => scan_items since rest page updated (bad ++ [entry])%list
               | Raise e' => Propagated e'       (* raised inside the handler *)
               end
          else Propagated e
      end
  end.

(** The statements after the [while] loop. *)
Definition finish (max_results : Z) (updated : list R)
    (bad : list (list (string * atom))) : M S (list R) :=
  flush_bad bad;; mret (slice_to max_results updated).

(** [while len(updated) < max_results: ...], on the pages not yet fetched. *)
Fixpoint scan_pages (since : datetime) (max_results : Z)
    (feed : list (Result (list R))) (page : nat)
    (updated : list R) (bad : list (list (string * atom))) : M S (list R) :=
  if Z.of_nat (List.length updated) <? max_results then
    match feed with
    | [] => finish max_results updated bad                 (* no items: break *)
    | Raise e :: _ => raise e
    | Ok [] :: _ => finish max_results updated bad         (* no items: break *)
    | Ok items :: later =>
        match scan_items since items page updated bad with
        | Older updated' bad' => flush_bad bad';; mret updated'
        | Propagated e => raise e
        | Exhausted updated' bad' =>
            if Nat.ltb (List.length items) PER_PAGE
            then finish max_results updated' bad'         (* last page: break *)
            else scan_pages since max_results later (Datatypes.S page) updated' bad'
        end
    end
  else finish max_results updated bad.

Definition get_updated (feed : list (Result (list R))) (since : datetime)
    (max_results : Z) : M S (list R) :=
  scan_pages since max_results feed 1%nat [] [].

End Lister.

Section Client.
Context `{Runtime} `{Settings} `{Source} {S : Type}.

Definition opt_str (o : option string) : atom :=
  match o with Some s => AStr s | None => ANone end.

(** [getattr(customer, "first_name", "")]: the default only replaces an
    [AttributeError]. *)
Definition bad_customer (customer : SFCustomer.t) (e : exn) (page : nat)
    : Result (list (string * atom)) :=
  first ← SFCustomer.first_name customer;
  last ← SFCustomer.last_name customer;
  let full := Text.strip (first +:+ " " +:+ last) in
  mret [ ("customer_id", AInt (SFCustomer.id customer));
         ("customer_name", AStr (if String.eqb full "" then "Unknown" else full));
         ("error", AStr (str_exn e));
         ("error_type", AStr (exn_name e));
         ("page", AInt (Z.of_nat page)) ].

Definition bad_job (job : SFJob.t) (e : exn) (page : nat) : Result (list (string * atom)) :=
  mret [ ("job_id", AInt (SFJob.id job));
         ("job_number", opt_str (SFJob.number job));
         ("customer_name", opt_str (SFJob.customer_name job));
         ("error", AStr (str_exn e));
         ("error_type", AStr (exn_name e));
         ("page", AInt (Z.of_nat page)) ].

Definition bad_estimate (estimate : SFEstimate.t) (e : exn) (page : nat)
    : Result (list (string * atom)) :=
  mret [ ("estimate_id", AInt (SFEstimate.id estimate));
         ("estimate_number", AStr (SFEstimate.number estimate));
         ("customer_name", AStr (SFEstimate.customer_name estimate));
         ("error", AStr (str_exn e));
         ("error_type", AStr (exn_name e));
         ("page", AInt (Z.of_nat page)) ].

Definition get_updated_customers (since : datetime) (max_results : Z) : M S (list SFCustomer.t) :=
  get_updated SFCustomer.updated_at_datetime bad_customer
              "get_updated_customers" "customer" customers_feed since max_results.

Definition get_updated_jobs (since : datetime) (max_results : Z) : M S (list SFJob.t) :=
  get_updated SFJob.updated_at_datetime bad_job
              "get_updated_jobs" "job" jobs_feed since max_results.

Definition get_updated_estimates (since : datetime) (max_results : Z) : M S (list SFEstimate.t) :=
  get_updated SFEstimate.updated_at_datetime bad_estimate
              "get_updated_estimates" "estimate" estimates_feed since max_results.

Definition get_customer_by_id (customer_id : Z) : M S (option SFCustomer.t) :=
  lift (customer_by_id customer_id).

End Client.
End sf_client.

(* ===================================================================== *)
(** ** app/services/ghl_client.py *)
(* ===================================================================== *)

Module ghl_client.
Section Client.
Context `{Settings} {S : Type} `{GHL.Server S}.

(** One request: the call is logged, the Target answers and moves on. *)
Definition request {A} (call : GHL.Call) (op : S -> Result A * S) : M S A :=
  fun w =>
    let '(r, s') := op (target w) in
    (r, mkWorld s' (calls w ++ [call])%list (slack w) (state_file w) (clock w)).

Definition search_contact_by_phone (phone : string) : M S (option GHL.ContactDict) :=
  contacts ← request (GHL.SearchContactByPhone phone) (GHL.get_contacts phone);
  mret (head contacts).

Definition search_contact_by_email (email : string) : M S (option GHL.ContactDict) :=
  contacts ← request (GHL.SearchContactByEmail email) (GHL.get_contacts email);
  mret (head contacts).

Definition update_contact_custom_field (contact_id field_id value : string) : M S unit :=
  request (GHL.UpdateContactCustomField contact_id field_id value)
          (GHL.put_contact contact_id field_id value).

Definition upsert_contact (contact_data : GHL.payload) : M S GHL.GHLContact :=
  request (GHL.UpsertContact contact_data)
          (GHL.post_contacts_upsert
             (GHL.set_item contact_data "locationId" (GHL.PStr ghl_location_id))).

(** The client-side filter of [search_opportunity_by_job_id]. *)
Definition field_matches (sf_job_id : Z) (field : GHL.CustomFieldDict) : bool :=
  let field_value := or_else (GHL.fieldValueString field) (GHL.value field) in
  bool_decide (GHL.field_id field = Some ghl_opportunity_crm_job_id_field)
  && bool_decide (field_value = Some (str sf_job_id)).

Definition tagged_with (sf_job_id : Z) (opp : GHL.OpportunityDict) : bool :=
  existsb (field_matches sf_job_id) (GHL.customFields opp).

Definition search_opportunity_by_job_id (sf_job_id : Z) (contact_id : string)
    : M S (option GHL.OpportunityDict) :=
  opportunities ← request (GHL.SearchOpportunityByJobId sf_job_id contact_id)
                          (GHL.get_opportunities_search contact_id);
  mret (List.find (tagged_with sf_job_id) opportunities).

Definition create_opportunity (opportunity_data : GHL.payload) : M S GHL.OpportunityDict :=
  request (GHL.CreateOpportunity opportunity_data)
          (GHL.post_opportunities
             (fold_left (fun d kv => GHL.set_item d kv.1 kv.2) opportunity_data
                        [("locationId", GHL.PStr ghl_location_id)])).

Definition update_opportunity_custom_field (opportunity_id field_key field_value : string)
    : M S unit :=
  request (GHL.UpdateOpportunityCustomField opportunity_id field_key field_value)
          (GHL.put_opportunity_custom_field opportunity_id field_key field_value).

Definition update_opportunity (opportunity_id : string) (update_data : GHL.payload) : M S unit :=
  request (GHL.UpdateOpportunity opportunity_id update_data)
          (GHL.put_opportunity opportunity_id update_data).

End Client.
End ghl_client.

(* ===================================================================== *)
(** ** app/main.py *)
(* ===================================================================== *)

Module main.
Section Sync.
Context `{Runtime} `{Settings} `{sf_client.Source} {S : Type} `{GHL.Server S}.

(** *** Customer sync *)

Definition no_contact_info (customer : SFCustomer.t) : bool :=
  negb (truthy (SFCustomer.phone customer)) && negb (truthy (SFCustomer.email customer)).

Definition opt_pv (o : option string) : GHL.pv :=
  match o with Some s => GHL.PStr s | None => GHL.PNone end.

Definition handle_sf_customer_update (customer : SFCustomer.t) : M S unit :=
  (* Skip if no phone or email *)
  if no_contact_info customer then mret tt
  else
    (* the [try] block; its handler re-raises *)
    first_name ← lift (SFCustomer.first_name customer);
    last_name ← lift (SFCustomer.last_name customer);
    let contact_data :=
      [ ("firstName", GHL.PStr first_name);
        ("lastName", GHL.PStr last_name);
        ("phone", opt_pv (SFCustomer.phone customer));
        ("email", opt_pv (SFCustomer.email customer));
        ("source", GHL.PStr "Service Fusion") ] in
    now ← utcnow;
    let custom_fields :=
      ((if String.eqb ghl_sf_customer_id_field "" then []
        else [(ghl_sf_customer_id_field, str (SFCustomer.id customer))])
       ++ (if String.eqb ghl_sf_last_sync_field "" then []
           else [(ghl_sf_last_sync_field, isoformat (replace_tzinfo now (Some utc)))])
       ++ (if String.eqb ghl_sf_updated_at_field "" then []
           else [(ghl_sf_updated_at_field, SFCustomer.updated_at customer)]))%list in
    let contact_data :=
      match custom_fields with
      | [] => contact_data
      | _ => (contact_data ++ [("customFields", GHL.PCustomFields custom_fields)])%list
      end in
    ghl_client.upsert_contact contact_data;;
    mret tt.

(** *** Conversion detection *)

Definition is_conversion_of (job : SFJob.t) (estimate : SFEstimate.t) : bool :=
  (SFEstimate.customer_id estimate =? SFJob.customer_id job)
  && String.eqb (SFEstimate.status estimate) "Estimate Won"
  && String.eqb (SFEstimate.updated_at estimate) (SFJob.updated_at job).

Definition find_converted_estimate_for_job (job : SFJob.t) : M S (option Z) :=
  (* Only check for newly created jobs (created_at == updated_at) *)
  if negb (truthy (SFJob.created_at job))
     || negb (bool_decide (SFJob.created_at job = Some (SFJob.updated_at job)))
  then mret None
  else
    job_created_dt ← lift (SFJob.created_at_datetime job);
    match job_created_dt with
    | None => mret None
    | Some job_created_dt =>
        let since := sub_timedelta job_created_dt (timedelta_hours 2) in
        try_except
          (estimates ← sf_client.get_updated_estimates since 50;
           mret (SFEstimate.id <$> List.find (is_conversion_of job) estimates))
          (fun e => Some (mret None))           (* except Exception: return None *)
    end.

(** *** The opportunity matcher *)

Definition work_order_context (work_order : WorkOrder) : context :=
  [ ("work_order_id", VAtom (AInt (WO.id work_order)));
    ("work_order_number", VAtom (sf_client.opt_str (WO.number work_order)));
    ("customer_id", VAtom (AInt (WO.customer_id work_order))) ].

(** [d["id"]] on a dict of the Target. *)
Definition item_id (o : option string) : M S string :=
  match o with
  | Some i => mret i
  | None => raise (KeyError "id")
  end.

(** Step 2: find or create the contact; the result is [ghl_contact.get("id")]. *)
Definition find_or_create_contact (sf_customer : SFCustomer.t) : M S (option string) :=
  ghl_contact ← (match SFCustomer.phone sf_customer with
                 | Some phone => if truthy (Some phone)
                                 then ghl_client.search_contact_by_phone phone
                                 else mret None
                 | None => mret None
                 end);
  ghl_contact ← (match ghl_contact, SFCustomer.email sf_customer with
                 | None, Some email => if truthy (Some email)
                                       then ghl_client.search_contact_by_email email
                                       else mret None
                 | _, _ => mret ghl_contact
                 end);
  match ghl_contact with
  | Some contact =>
      contact_id ← item_id (GHL.contact_id contact);
      ghl_client.update_contact_custom_field
        contact_id ghl_sf_customer_id_field (str (SFCustomer.id sf_customer));;
      mret (Some contact_id)
  | None =>
      first_name ← lift (SFCustomer.first_name sf_customer);
      last_name ← lift (SFCustomer.last_name sf_customer);
      let contact_data :=
        ([ ("firstName", GHL.PStr first_name);
           ("lastName", GHL.PStr last_name);
           ("source", GHL.PStr "Service Fusion") ]
         ++ (if truthy (SFCustomer.phone sf_customer)
             then [("phone", opt_pv (SFCustomer.phone sf_customer))] else [])
         ++ (if truthy (SFCustomer.email sf_customer)
             then [("email", opt_pv (SFCustomer.email sf_customer))] else []))%list in
      contact ← ghl_client.upsert_contact contact_data;
      mret (GHL.id contact)
  end.

(** Step 3: the opportunity of a converted estimate, re-pointed to the job,
    or else the opportunity of the work order itself. *)
Definition find_opportunity (converted_from_estimate_id : option Z)
    (work_order : WorkOrder) (contact_id : string) : M S (option GHL.OpportunityDict) :=
  opportunity ←
    (match converted_from_estimate_id with
     | Some estimate_id =>
         if estimate_id =? 0 then mret None       (* [if converted_from_estimate_id:] *)
         else
           opportunity ← ghl_client.search_opportunity_by_job_id estimate_id contact_id;
           match opportunity with
           | Some opp =>
               opportunity_id ← item_id (GHL.opportunity_id opp);
               (* Update the custom field to the new job ID *)
               ghl_client.update_opportunity_custom_field
                 opportunity_id "crm_job_id" (str (WO.id work_order));;
               mret (Some opp)
           | None => mret None
           end
     | None => mret None
     end);
  (* ONLY search if we don't already have an opportunity from the conversion *)
  match opportunity with
  | Some opp => mret (Some opp)
  | None =>
      (* Normal flow: look up by current work order ID *)
      opportunity ← ghl_client.search_opportunity_by_job_id (WO.id work_order) contact_id;
      match opportunity with
      | Some opp =>
          item_id (GHL.opportunity_id opp);;     (* printed: [opportunity['id']] *)
          mret (Some opp)
      | None => mret None
      end
  end.

(** Step 4: create the opportunity, or update its stage when it differs. *)
Definition create_or_update_opportunity (opportunity : option GHL.OpportunityDict)
    (work_order : WorkOrder) (work_type : string) (contact_id ghl_stage_id : string)
    : M S unit :=
  match opportunity with
  | None =>
      let opp_data :=
        [ ("contactId", GHL.PStr contact_id);
          ("pipelineId", GHL.PStr ghl_pipeline_id);
          ("pipelineStageId", GHL.PStr ghl_stage_id);
          ("name", GHL.PStr ("SF-" +:+ str (WO.id work_order) +:+ ": " +:+ work_type +:+ " #"
                             +:+ default "None" (WO.number work_order)));
          ("status", GHL.PStr "open");
          ("customFields",
           GHL.PCustomFields [(ghl_opportunity_crm_job_id_field, str (WO.id work_order))]) ] in
      ghl_client.create_opportunity opp_data;;
      mret tt
  | Some opp =>
      let current_stage := GHL.pipelineStageId opp in
      if bool_decide (current_stage = Some ghl_stage_id) then mret tt
      else
        opportunity_id ← item_id (GHL.opportunity_id opp);
        ghl_client.update_opportunity opportunity_id
          [ ("pipelineStageId", GHL.PStr ghl_stage_id); ("status", GHL.PStr "open") ]
  end.

(** The [try] block of [sync_work_order_to_ghl]. *)
Definition sync_steps (converted_from_estimate_id : option Z) (work_order : WorkOrder)
    (work_type : string) (ghl_stage_id : string) : M S unit :=
  (* Step 1: Get SF customer data *)
  sf_customer ← sf_client.get_customer_by_id (WO.customer_id work_order);
  match sf_customer with
  | None =>
      raise (JobSyncError
               ("Customer " +:+ str (WO.customer_id work_order) +:+ " does not exist")
               MEDIUM (work_order_context work_order))
  | Some sf_customer =>
      (* Validate contact info *)
      if no_contact_info sf_customer then
        slack_notifier.send_error
          (work_type +:+ " " +:+ str (WO.id work_order) +:+ " skipped - no contact info")
          "sync_work_order_to_ghl" LOW
          [ ("work_order_id", VAtom (AInt (WO.id work_order)));
            ("work_type", VAtom (AStr work_type)) ]
      else
        ghl_contact_id ← find_or_create_contact sf_customer;
        match ghl_contact_id with
        | Some contact_id =>
            if String.eqb contact_id "" then
              raise (JobSyncError "Failed to get GHL contact ID" HIGH
                       [ ("work_order_id", VAtom (AInt (WO.id work_order)));
                         ("customer_id", VAtom (AInt (WO.customer_id work_order))) ])
            else
              opportunity ← find_opportunity converted_from_estimate_id work_order contact_id;
              create_or_update_opportunity opportunity work_order work_type
                                           contact_id ghl_stage_id
        | None =>
            raise (JobSyncError "Failed to get GHL contact ID" HIGH
                     [ ("work_order_id", VAtom (AInt (WO.id work_order)));
                       ("customer_id", VAtom (AInt (WO.customer_id work_order))) ])
        end
  end.

(** [except JobSyncError: raise] / [except Exception as e: raise JobSyncError(...) from e] *)
Definition wrap_sync_error (work_order : WorkOrder) (work_type : string)
    (e : exn) : option (M S unit) :=
  if is_JobSyncError e then None
  else Some (raise (JobSyncError
                      ("Failed to sync " +:+ Text.lower work_type +:+ " " +:+ str (WO.id work_order))
                      HIGH
                      (work_order_context work_order
                       ++ [("original_error", VAtom (AStr (str_exn e)))])%list)).

(** The function from the status lookup on, for a given outcome of the
    conversion check. *)
Definition sync_mapped (converted_from_estimate_id : option Z) (work_order : WorkOrder)
    (work_type : string) : M S unit :=
  (* Map SF status to GHL stage *)
  let ghl_stage_id := sf_to_ghl_stage_map _ !! WO.status work_order in
  match ghl_stage_id with
  | None => mret tt                                   (* unknown SF status: skip *)
  | Some ghl_stage_id =>
      if String.eqb ghl_stage_id "" then mret tt      (* [not ghl_stage_id] *)
      else try_except
             (sync_steps converted_from_estimate_id work_order work_type ghl_stage_id)
             (wrap_sync_error work_order work_type)
  end.

(** [sync_work_order_to_ghl(work_order, index, work_type)]; [index] is only
    printed. *)
Definition sync_work_order_to_ghl (work_order : WorkOrder) (work_type : string) : M S unit :=
  (* Check if this is a converted estimate -> job *)
  converted_from_estimate_id ←
    (match work_order with
     | Job job => find_converted_estimate_for_job job
     | Estimate _ => mret None
     end);
  sync_mapped converted_from_estimate_id work_order work_type.

(** *** The polling passes *)

(** [@safe_scheduled_job]: every exception of the pass is logged and
    reported at high severity, and not re-raised. *)
Definition safe_scheduled_job (job_name : string) (func : M S unit) : M S unit :=
  try_except func
    (fun e => Some (slack_notifier.send_error (str_exn e) ("scheduled_job:" +:+ job_name) HIGH
                      [ ("job_name", VAtom (AStr job_name));
                        ("note", VAtom (AStr "Job failed but scheduler continues running"));
                        ("next_run", VAtom (AStr "Will retry on next scheduled interval")) ])).

(** [for record in records: try: await sync(record) except Exception as e:
    sync_errors.append(entry)]: a failure is recorded and the loop goes on. *)
Fixpoint sync_each {R} (sync : R -> M S unit) (entry : R -> exn -> list (string * atom))
    (records : list R) (sync_errors : list (list (string * atom)))
    : M S (list (list (string * atom))) :=
  match records with
  | [] => mret sync_errors
  | record :: rest =>
      sync_errors ← try_except (sync record;; mret sync_errors)
                      (fun e => Some (mret (sync_errors ++ [entry record e])%list));
      sync_each sync entry rest sync_errors
  end.

Definition failed_customer (customer : SFCustomer.t) (e : exn) : list (string * atom) :=
  [ ("customer_id", AInt (SFCustomer.id customer)); ("error", AStr (str_exn e)) ].

Definition failed_job (job : SFJob.t) (e : exn) : list (string * atom) :=
  [ ("job_id", AInt (SFJob.id job));
    ("job_number", sf_client.opt_str (SFJob.number job));
    ("error", AStr (str_exn e)) ].

Definition failed_estimate (estimate : SFEstimate.t) (e : exn) : list (string * atom) :=
  [ ("estimate_id", AInt (SFEstimate.id estimate));
    ("estimate_number", AStr (SFEstimate.number estimate));
    ("error", AStr (str_exn e)) ].

(** The batch notification: [if sync_errors: await slack_notifier.send_error(...)]. *)
Definition notify_failures (what function_name : string) (total : nat)
    (sync_errors reported : list (list (string * atom))) : M S unit :=
  match sync_errors with
  | [] => mret tt
  | _ =>
      slack_notifier.send_error
        (pretty (List.length sync_errors) +:+ " " +:+ what +:+ " failed to sync")
        function_name MEDIUM
        [ ("total_" +:+ what, VAtom (AInt (Z.of_nat total)));
          ("failed_count", VAtom (AInt (Z.of_nat (List.length sync_errors))));
          ("failed_" +:+ what, VRecords reported) ]
  end.

Definition check_for_customer_updates_body : M S unit :=
  last_poll ← state_manager.get_last_customer_poll_time;
  customers ← sf_client.get_updated_customers last_poll 100;
  sync_errors ← sync_each handle_sf_customer_update failed_customer customers [];
  notify_failures "customers" "check_for_customer_updates"
                  (List.length customers) sync_errors sync_errors;;
  now ← utcnow;
  state_manager.save_last_poll_time now;;
  stats ← state_manager.get_stats;
  total_checks ← lift (state_manager.stat_plus stats "total_checks" 1);
  total_updates ← lift (state_manager.stat_plus stats "total_updates_found"
                                                (Z.of_nat (List.length customers)));
  state_manager.update_stats
    [ ("total_checks", JInt total_checks);
      ("total_updates_found", JInt total_updates);
      ("last_check", JStr (isoformat now)) ].

Definition check_for_customer_updates : M S unit :=
  safe_scheduled_job "check_for_customer_updates" check_for_customer_updates_body.

Definition check_for_job_updates_body : M S unit :=
  last_poll ← state_manager.get_last_job_poll_time;
  jobs ← sf_client.get_updated_jobs last_poll 100;
  sync_errors ← sync_each (fun job => sync_work_order_to_ghl (Job job) "Job") failed_job jobs [];
  notify_failures "jobs" "check_for_job_updates"
                  (List.length jobs) sync_errors (firstn 5 sync_errors);;
  now ← utcnow;
  state_manager.save_last_job_poll_time now;;
  stats ← state_manager.get_stats;
  checks ← lift (state_manager.stat_plus stats "total_job_checks" 1);
  found ← lift (state_manager.stat_plus stats "total_job_updates_found"
                                        (Z.of_nat (List.length jobs)));
  state_manager.update_stats
    [ ("total_job_checks", JInt checks); ("total_job_updates_found", JInt found) ].

Definition check_for_job_updates : M S unit :=
  safe_scheduled_job "check_for_job_updates" check_for_job_updates_body.

Definition check_for_estimate_updates_body : M S unit :=
  last_poll ← state_manager.get_last_estimate_poll_time;
  estimates ← sf_client.get_updated_estimates last_poll 100;
  sync_errors ← sync_each (fun estimate => sync_work_order_to_ghl (Estimate estimate) "Estimate")
                          failed_estimate estimates [];
  notify_failures "estimates" "check_for_estimate_updates"
                  (List.length estimates) sync_errors (firstn 5 sync_errors);;
  now ← utcnow;
  state_manager.save_last_estimate_poll_time now;;
  stats ← state_manager.get_stats;
  checks ← lift (state_manager.stat_plus stats "total_estimate_checks" 1);
  found ← lift (state_manager.stat_plus stats "total_estimate_updates_found"
                                        (Z.of_nat (List.length estimates)));
  state_manager.update_stats
    [ ("total_estimate_checks", JInt checks); ("total_estimate_updates_found", JInt found) ].

Definition check_for_estimate_updates : M S unit :=
  safe_scheduled_job "check_for_estimate_updates" check_for_estimate_updates_body.

(** [run_all_syncs]: customers, then estimates, then jobs. *)
Definition run_all_syncs : M S unit :=
  check_for_customer_updates;;
  check_for_estimate_updates;;
  check_for_job_updates.

End Sync.
End main.

(* ===================================================================== *)
(** ** A reference Target: an in-memory contact and opportunity store *)
(* ===================================================================== *)

(** The closed examples run against this store.  It keeps contacts and
    opportunities in creation order, finds contacts by exact phone or email,
    and resolves the custom-field key "crm_job_id" to the field whose id the
    settings name. *)
Module MemTarget.

Record Contact := {
  c_id : string;
  c_phone : option string;
  c_email : option string;
  c_fields : list (string * string)
}.

Record Opportunity := {
  o_id : string;
  o_contact : string;
  o_name : string;
  o_stage : string;
  o_fields : list (string * string)
}.

Record Store := {
  contacts : list Contact;
  opportunities : list Opportunity;
  crm_job_id_field : string          (* the id behind the key "crm_job_id" *)
}.

Fixpoint assoc_set (l : list (string * string)) (k v : string) : list (string * string) :=
  match l with
  | [] => [(k, v)]
  | (k', v') :: l' => if String.eqb k k' then (k, v) :: l' else (k', v') :: assoc_set l' k v
  end.

Definition lookup_str (d : GHL.payload) (k : string) : option string :=
  match List.find (fun kv => String.eqb kv.1 k) d with
  | Some (_, GHL.PStr s) => Some s
  | _ => None
  end.

Definition lookup_fields (d : GHL.payload) : list (string * string) :=
  match List.find (fun kv => String.eqb kv.1 "customFields") d with
  | Some (_, GHL.PCustomFields f) => f
  | _ => []
  end.

Definition matches_query (q : string) (c : Contact) : bool :=
  bool_decide (c_phone c = Some q) || bool_decide (c_email c = Some q).

Definition contact_dict (c : Contact) : GHL.ContactDict :=
  {| GHL.contact_id := Some (c_id c) |}.

Definition opportunity_dict (o : Opportunity) : GHL.OpportunityDict :=
  {| GHL.opportunity_id := Some (o_id o);
     GHL.name := Some (o_name o);
     GHL.pipelineStageId := Some (o_stage o);
     GHL.customFields :=
       map (fun kv => {| GHL.field_id := Some kv.1;
                         GHL.fieldValueString := Some kv.2;
                         GHL.value := None |}) (o_fields o) |}.

Definition has_contact (st : Store) (cid : string) : bool :=
  existsb (fun c => String.eqb (c_id c) cid) (contacts st).

Definition has_opportunity (st : Store) (oid : string) : bool :=
  existsb (fun o => String.eqb (o_id o) oid) (opportunities st).

Definition update_opportunities (st : Store) (oid : string)
    (f : Opportunity -> Opportunity) : Store :=
  {| contacts := contacts st;
     opportunities := map (fun o => if String.eqb (o_id o) oid then f o else o)
                          (opportunities st);
     crm_job_id_field := crm_job_id_field st |}.

#[global] Instance server : GHL.Server Store := {|
  GHL.get_contacts q st :=
    (Ok (map contact_dict (List.filter (matches_query q) (contacts st))), st);
  GHL.put_contact cid fid v st :=
    if has_contact st cid then
      (Ok tt,
       {| contacts := map (fun c => if String.eqb (c_id c) cid
                                     then {| c_id := c_id c; c_phone := c_phone c;
                                             c_email := c_email c;
                                             c_fields := assoc_set (c_fields c) fid v |}
                                     else c) (contacts st);
          opportunities := opportunities st;
          crm_job_id_field := crm_job_id_field st |})
    else (Raise (HTTPError 404), st);
  GHL.post_contacts_upsert d st :=
    let phone := lookup_str d "phone" in
    let email := lookup_str d "email" in
    match List.find (fun c => (truthy phone && bool_decide (c_phone c = phone))
                              || (truthy email && bool_decide (c_email c = email)))
                    (contacts st) with
    | Some c => (Ok {| GHL.id := Some (c_id c) |}, st)
    | None =>
        let cid := "contact-" +:+ pretty (List.length (contacts st)) in
        (Ok {| GHL.id := Some cid |},
         {| contacts := (contacts st ++ [ {| c_id := cid; c_phone := phone; c_email := email;
                                             c_fields := lookup_fields d |} ])%list;
            opportunities := opportunities st;
            crm_job_id_field := crm_job_id_field st |})
    end;
  GHL.get_opportunities_search cid st :=
    (Ok (map opportunity_dict
             (List.filter (fun o => String.eqb (o_contact o) cid) (opportunities st))), st);
  GHL.post_opportunities d st :=
    let o := {| o_id := "opp-" +:+ pretty (List.length (opportunities st));
                o_contact := default "" (lookup_str d "contactId");
                o_name := default "" (lookup_str d "name");
                o_stage := default "" (lookup_str d "pipelineStageId");
                o_fields := lookup_fields d |} in
    (Ok (opportunity_dict o),
     {| contacts := contacts st;
        opportunities := (opportunities st ++ [o])%list;
        crm_job_id_field := crm_job_id_field st |});
  GHL.put_opportunity_custom_field oid key v st :=
    if has_opportunity st oid then
      let fid := if String.eqb key "crm_job_id" then crm_job_id_field st else key in
      (Ok tt,
       update_opportunities st oid
         (fun o => {| o_id := o_id o; o_contact := o_contact o; o_name := o_name o;
                      o_stage := o_stage o; o_fields := assoc_set (o_fields o) fid v |}))
    else (Raise (HTTPError 404), st);
  GHL.put_opportunity oid d st :=
    if has_opportunity st oid then
      (Ok tt,
       update_opportunities st oid
         (fun o => {| o_id := o_id o; o_contact := o_contact o; o_name := o_name o;
                      o_stage := default (o_stage o) (lookup_str d "pipelineStageId");
                      o_fields := o_fields o |}))
    else (Raise (HTTPError 404), st)
|}.

End MemTarget.

(* ===================================================================== *)
(** ** Fixtures: a deployment and its records, for the closed examples *)
(* ===================================================================== *)

Module Fixture.

(** A Source zone five hours behind UTC. *)
Definition zone : tzinfo := fixed_offset (timedelta_hours (-5)).

Definition deployment : Settings := {|
  ghl_location_id := "loc-1";
  ghl_sf_customer_id_field := "field-sf-customer-id";
  ghl_sf_last_sync_field := "";
  ghl_sf_updated_at_field := "";
  ghl_stage_appointment_request := "stage-appointment-request";
  ghl_stage_estimate_scheduled := "stage-estimate-scheduled";
  ghl_stage_estimate_sent := "stage-estimate-sent";
  ghl_stage_estimate_stop := "stage-estimate-stop";
  ghl_stage_canceled := "stage-canceled";
  ghl_stage_job_scheduled := "stage-job-scheduled";
  ghl_stage_job_in_progress := "stage-job-in-progress";
  ghl_stage_review_referral := "stage-review-referral";
  ghl_opportunity_crm_job_id_field := "field-crm-job-id";
  ghl_pipeline_id := "pipeline-1";
  sf_status_unscheduled := "Unscheduled";
  sf_status_scheduled := "Scheduled";
  sf_status_dispatched := "Dispatched";
  sf_status_delayed := "Delayed";
  sf_status_on_the_way := "On The Way";
  sf_status_on_site := "On Site";
  sf_status_started := "Started";
  sf_status_paused := "Paused";
  sf_status_resumed := "Resumed";
  sf_status_completed := "Completed";
  sf_status_cancelled := "Cancelled";
  sf_status_job_closed := "Job Closed";
  sf_status_to_be_invoiced := "To be invoiced";
  sf_status_invoiced := "Invoiced";
  sf_status_paid_in_full := "Paid in Full";
  sf_status_partially_completed := "Partially Completed";
  sf_status_archived := "Archived";
  sf_estimate_status_requested := "Estimate Requested";
  sf_estimate_status_scheduled := "Estimate Scheduled";
  sf_estimate_status_provided := "Estimate Provided";
  sf_estimate_status_accepted := "Estimate Accepted";
  sf_estimate_status_won := "Estimate Won";
  sf_estimate_status_lost := "Lost";
  sf_tz := zone
|}.

Definition job (id customer : Z) (status updated : string) (created : option string) : SFJob.t :=
  {| SFJob.id := id; SFJob.number := Some ("J-" +:+ str id); SFJob.customer_id := customer;
     SFJob.customer_name := None; SFJob.status := status;
     SFJob.updated_at := updated; SFJob.created_at := created |}.

Definition estimate (id customer : Z) (status updated : string) : SFEstimate.t :=
  {| SFEstimate.id := id; SFEstimate.number := "E-" +:+ str id;
     SFEstimate.customer_id := customer; SFEstimate.customer_name := "Ada Lovelace";
     SFEstimate.status := status; SFEstimate.updated_at := updated |}.

Definition customer (id : Z) (updated : string) (phone email : option string) : SFCustomer.t :=
  {| SFCustomer.id := id; SFCustomer.customer_name := "Ada Lovelace";
     SFCustomer.updated_at := updated;
     SFCustomer.contacts :=
       [ {| SFContact.fname := Some "Ada"; SFContact.lname := Some "Lovelace";
            SFContact.is_primary := Some true;
            SFContact.phones := match phone with
                                | Some p => [ {| SFPhone.phone := Some p |} ]
                                | None => []
                                end;
            SFContact.emails := match email with
                                | Some e => [ {| SFEmail.email := Some e |} ]
                                | None => []
                                end |} ] |}.

Definition empty_store : MemTarget.Store :=
  {| MemTarget.contacts := []; MemTarget.opportunities := [];
     MemTarget.crm_job_id_field := "field-crm-job-id" |}.

(** The clock reads 2024-03-02T12:00:00 UTC. *)
Definition noon : Z := ymd_hms 2024 3 2 12 0 0.

Definition world (store : MemTarget.Store) (file : FileState) : World MemTarget.Store :=
  mkWorld store [] [] file noon.

(** The first run: nothing in the Target, no state file. *)
Definition start : World MemTarget.Store := world empty_store Absent.

(** A Source whose job listing is one page and whose customer lookup fails. *)
Definition jobs_only (jobs : list SFJob.t) : sf_client.Source := {|
  sf_client.customers_feed := [];
  sf_client.jobs_feed := [Ok jobs];
  sf_client.estimates_feed := [];
  sf_client.customer_by_id := fun _ => Raise (HTTPError 500)
|}.

(** A job updated on the given day of March 2024 at 09:00 Source time. *)
Definition march (day : Z) : SFJob.t :=
  job day 1 "Scheduled" ("2024-03-0" +:+ str day +:+ "T09:00:00+00:00") None.

(** Six jobs of a customer whose lookup fails. *)
Definition failing_jobs : list SFJob.t :=
  map (fun k => job k 1 "Scheduled" "2024-03-02T09:00:00+00:00" None) [1; 2; 3; 4; 5; 6].

(** The failure entry of the [k]-th of them. *)
Definition row (k : Z) : list (string * atom) :=
  [ ("job_id", AInt k); ("job_number", AStr ("J-" +:+ str k));
    ("error", AStr ("Failed to sync job " +:+ str k)) ].

(** The conversion scenario: estimate 7 of customer 5 was won at [T], and job
    9 was created from it. *)
Definition T : string := "2024-03-02T08:00:00+00:00".

Definition ada : SFCustomer.t :=
  customer 5 "2024-03-01T10:00:00+00:00" (Some "(303) 555-1234") None.
Definition nobody : SFCustomer.t := customer 6 "2024-03-01T10:00:00+00:00" None None.

Definition won : SFEstimate.t := estimate 7 5 "Estimate Won" T.
Definition converted : SFJob.t := job 9 5 "Scheduled" T (Some T).
Definition invoiced : SFJob.t := job 9 5 "Invoiced" T (Some T).
Definition orphan : SFJob.t := job 10 6 "Scheduled" T None.
Definition garbled : SFJob.t := job 11 5 "Scheduled" "not-a-date" (Some "not-a-date").

Definition crm : sf_client.Source := {|
  sf_client.customers_feed := [Ok [ada; nobody]];
  sf_client.jobs_feed := [Ok [converted]];
  sf_client.estimates_feed := [Ok [won]];
  sf_client.customer_by_id := fun id => if id =? 5 then Ok (Some ada)
                                        else if id =? 6 then Ok (Some nobody)
                                        else Ok None
|}.

(** The same Source after a second estimate of the customer was won at the
    same moment; it is listed first. *)
Definition won_twin : SFEstimate.t := estimate 6 5 "Estimate Won" T.

Definition crm_twins : sf_client.Source := {|
  sf_client.customers_feed := [Ok [ada; nobody]];
  sf_client.jobs_feed := [Ok [converted]];
  sf_client.estimates_feed := [Ok [won_twin; won]];
  sf_client.customer_by_id := fun id => if id =? 5 then Ok (Some ada)
                                        else if id =? 6 then Ok (Some nobody)
                                        else Ok None
|}.

(** The same Source with the estimate listing down. *)
Definition crm_estimates_down : sf_client.Source := {|
  sf_client.customers_feed := [Ok [ada; nobody]];
  sf_client.jobs_feed := [Ok [converted]];
  sf_client.estimates_feed := [Raise (HTTPError 503)];
  sf_client.customer_by_id := fun id => if id =? 5 then Ok (Some ada) else Ok None
|}.

Definition sync (source : sf_client.Source) (work_order : WorkOrder) (work_type : string)
    : M MemTarget.Store unit :=
  @main.sync_work_order_to_ghl basic_runtime deployment source _ MemTarget.server
                               work_order work_type.

Definition job_pass (source : sf_client.Source) : M MemTarget.Store unit :=
  @main.check_for_job_updates basic_runtime deployment source _ MemTarget.server.

(** The world after the won estimate has been synced once. *)
Definition after_estimate : World MemTarget.Store :=
  (sync crm (Estimate won) "Estimate" start).2.

(** The 2-hour-lookback listing issued for a job updated at [T]. *)
Definition lookback (source : sf_client.Source) : M MemTarget.Store (list SFEstimate.t) :=
  @sf_client.get_updated_estimates basic_runtime deployment source _
     (sub_timedelta (naive (ymd_hms 2024 3 2 13 0 0)) (timedelta_hours 2)) 50.

(** The opportunity the first sync of the won estimate creates. *)
Definition opp0 : GHL.OpportunityDict :=
  {| GHL.opportunity_id := Some "opp-0";
     GHL.name := Some "SF-7: Estimate #E-7";
     GHL.pipelineStageId := Some "stage-estimate-stop";
     GHL.customFields := [ {| GHL.field_id := Some "field-crm-job-id";
                              GHL.fieldValueString := Some "7";
                              GHL.value := None |} ] |}.

End Fixture.

(* ===================================================================== *)
(** ** The vocabulary of the statements *)
(* ===================================================================== *)

Module Spec.

(** [c] does not occur in [s]. *)
Fixpoint absent (c : ascii) (s : string) : bool :=
  match s with
  | EmptyString => true
  | String c' s' => negb (Ascii.eqb c c') && absent c s'
  end.

(** The statuses that are keys of the translation table. *)
Definition mapped_statuses (settings : Settings) : list string :=
  [ sf_status_unscheduled; sf_status_cancelled; sf_status_scheduled;
    sf_status_dispatched; sf_status_partially_completed; sf_status_delayed;
    sf_status_on_the_way; sf_status_on_site; sf_status_started;
    sf_status_paused; sf_status_resumed; sf_status_completed;
    sf_estimate_status_requested; sf_estimate_status_accepted;
    sf_estimate_status_won; sf_estimate_status_lost; sf_estimate_status_provided ].

(** The configured statuses that the table leaves out. *)
Definition unmapped_statuses (settings : Settings) : list string :=
  [ sf_status_job_closed; sf_status_to_be_invoiced; sf_status_invoiced;
    sf_status_paid_in_full; sf_status_archived; sf_estimate_status_scheduled ].

(** Every status the settings define. *)
Definition configured_statuses (settings : Settings) : list string :=
  (job_statuses settings ++ estimate_statuses settings)%list.

(** The three record kinds, their cursor keys and their cursor readers. *)
Inductive RecordKind := Customers | Jobs | Estimates.

Definition cursor_key (kind : RecordKind) : string :=
  match kind with
  | Customers => "last_sf_poll"
  | Jobs => "last_job_poll"
  | Estimates => "last_estimate_poll"
  end.

Definition get_last_poll_time `{Runtime} {S : Type} (kind : RecordKind) : M S datetime :=
  match kind with
  | Customers => state_manager.get_last_customer_poll_time
  | Jobs => state_manager.get_last_job_poll_time
  | Estimates => state_manager.get_last_estimate_poll_time
  end.

(** No cursor has been persisted under [key]: the file does not exist, or it
    is a JSON object without the key. *)
Definition no_cursor (key : string) (f : FileState) : Prop :=
  f = Absent \/ exists data, f = Dict data /\ data !! key = None.

(** The record's computed timestamp is strictly greater than [since]. *)
Definition newer {R : Type} (updated_at_datetime : R -> Result datetime)
    (since : datetime) (record : R) : Prop :=
  (record_updated ← updated_at_datetime record; gt record_updated since) = Ok true.

(** The record's computed timestamp is not strictly greater than [since]. *)
Definition older {R : Type} (updated_at_datetime : R -> Result datetime)
    (since : datetime) (record : R) : Prop :=
  (record_updated ← updated_at_datetime record; gt record_updated since) = Ok false.

(** The pages of an endpoint that answers [per_page=50]: every page before
    the last one is full. *)
Fixpoint well_paged {R : Type} (pages : list (list R)) : Prop :=
  match pages with
  | [] | [_] => True
  | page :: later => List.length page = sf_client.PER_PAGE /\ well_paged later
  end.

Section Batch.
Context {S R : Type}.
Variable sync : R -> M S unit.
Variable entry : R -> exn -> list (string * atom).

(** The attempts of one pass over [records]: each record with the result of
    its sync, run in the world its predecessors left. *)
Fixpoint outcomes (records : list R) (w : World S) : list (R * Result unit) :=
  match records with
  | [] => []
  | record :: rest => (record, (sync record w).1) :: outcomes rest (sync record w).2
  end.

Fixpoint world_after (records : list R) (w : World S) : World S :=
  match records with
  | [] => w
  | record :: rest => world_after rest (sync record w).2
  end.

(** The entries of the attempts that raised. *)
Fixpoint failures (attempts : list (R * Result unit)) : list (list (string * atom)) :=
  match attempts with
  | [] => []
  | (record, Raise e) :: rest => entry record e :: failures rest
  | (_, Ok _) :: rest => failures rest
  end.

End Batch.

(** The notification a pass appends for the collected [sync_errors], of which
    it lists [reported]. *)
Definition batch_notification (what function_name : string) (total : nat)
    (sync_errors reported : list (list (string * atom))) : list Notification :=
  match sync_errors with
  | [] => []
  | _ => [ {| function_name := function_name;
              severity := MEDIUM;
              message := pretty (List.length sync_errors) +:+ " " +:+ what +:+ " failed to sync";
              ctx := [ ("total_" +:+ what, VAtom (AInt (Z.of_nat total)));
                       ("failed_count", VAtom (AInt (Z.of_nat (List.length sync_errors))));
                       ("failed_" +:+ what, VRecords reported) ] |} ]
  end.

(** The notification a job pass appends for the collected [sync_errors]. *)
Definition job_batch_notification (total : nat) (sync_errors : list (list (string * atom)))
    : list Notification :=
  match sync_errors with
  | [] => []
  | _ => [ {| function_name := "check_for_job_updates";
              severity := MEDIUM;
              message := pretty (List.length sync_errors) +:+ " jobs failed to sync";
              ctx := [ ("total_jobs", VAtom (AInt (Z.of_nat total)));
                       ("failed_count", VAtom (AInt (Z.of_nat (List.length sync_errors))));
                       ("failed_jobs", VRecords (firstn 5 sync_errors)) ] |} ]
  end.

Section Calls.
Context {S : Type}.

(** No run of [m] sends a notification. *)
Definition quiet {A} (m : M S A) : Prop :=
  forall w r w', m w = (r, w') -> slack w' = slack w.

(** [w'] extends the call log of [w] by calls that all satisfy [P]. *)
Definition extends (P : GHL.Call -> Prop) (w w' : World S) : Prop :=
  exists new, calls w' = (calls w ++ new)%list /\ Forall P new.

(** Every run of [m] extends the call log by calls satisfying [P]. *)
Definition issues {A} (P : GHL.Call -> Prop) (m : M S A) : Prop :=
  forall w r w', m w = (r, w') -> extends P w w'.

End Calls.

Definition read_only (c : GHL.Call) : Prop := GHL.mutating c = false.
Definition not_on_opportunity (c : GHL.Call) : Prop := GHL.opportunity_mutation c = false.
Definition not_create (c : GHL.Call) : Prop := GHL.is_create_opportunity c = false.

(** The guard at the top of [find_converted_estimate_for_job]: [created_at]
    is absent or differs from [updated_at]. *)
Definition not_fresh (job : SFJob.t) : bool :=
  negb (truthy (SFJob.created_at job))
  || negb (bool_decide (SFJob.created_at job = Some (SFJob.updated_at job))).

Section Matcher.
Context `{Runtime} `{Settings} `{sf_client.Source} {S : Type} `{GHL.Server S}.

(** The per-record sync of the job pass. *)
Definition sync_job (job : SFJob.t) : M S unit := main.sync_work_order_to_ghl (Job job) "Job".

(** The conversion check at the head of [sync_work_order_to_ghl]. *)
Definition conversion_check (work_order : WorkOrder) : M S (option Z) :=
  match work_order with
  | Job job => main.find_converted_estimate_for_job job
  | Estimate _ => mret None
  end.

(** The two searches at the head of the contact step. *)
Definition contact_searches (customer : SFCustomer.t) : M S (option GHL.ContactDict) :=
  ghl_contact ← (match SFCustomer.phone customer with
                 | Some phone => if truthy (Some phone)
                                 then ghl_client.search_contact_by_phone phone
                                 else mret None
                 | None => mret None
                 end);
  match ghl_contact, SFCustomer.email customer with
  | None, Some email => if truthy (Some email)
                        then ghl_client.search_contact_by_email email
                        else mret None
  | _, _ => mret ghl_contact
  end.

(** The lookup of a converted estimate's opportunity finds nothing: there is
    no converted estimate, or no opportunity carries its id (any more). *)
Definition no_estimate_opportunity (found : option Z) (contact_id : string)
    (w w' : World S) : Prop :=
  match found with
  | None => w' = w
  | Some estimate_id =>
      if estimate_id =? 0 then w' = w
      else ghl_client.search_opportunity_by_job_id estimate_id contact_id w = (Ok None, w')
  end.

End Matcher.

End Spec.
Export Spec.

(** ** Frames, the cursor writers and the passes by record kind *)

(** No run of [m] changes the component [f] of the world. *)
Definition preserves {S X A} (f : World S -> X) (m : M S A) : Prop :=
  forall w r w', m w = (r, w') -> f w' = f w.

(** The world with one more notification. *)
Definition notified {S} (w : World S) (n : Notification) : World S :=
  mkWorld (target w) (calls w) (slack w ++ [n])%list (state_file w) (clock w).

(** The world with another state file. *)
Definition with_state_file {S} (w : World S) (f : FileState) : World S :=
  mkWorld (target w) (calls w) (slack w) f (clock w).

(** The cursor writers and the names under which the readers report. *)
Definition save_last_poll_time {S : Type} (kind : RecordKind) : datetime -> M S unit :=
  match kind with
  | Customers => state_manager.save_last_poll_time
  | Jobs => state_manager.save_last_job_poll_time
  | Estimates => state_manager.save_last_estimate_poll_time
  end.

Definition reader_name (kind : RecordKind) : string :=
  match kind with
  | Customers => "get_last_poll_time"
  | Jobs => "get_last_job_poll_time"
  | Estimates => "get_last_estimate_poll_time"
  end.

(** The content of a state file that can be written: none yet, or a JSON
    object. *)
Definition writable (f : FileState) : option (gmap string json) :=
  match f with
  | Absent => Some ∅
  | Dict data => Some data
  | _ => None
  end.

(** The report of the scheduler wrapper for a pass that raised [e]. *)
Definition fatal_notification (job_name : string) (e : exn) : Notification :=
  {| function_name := "scheduled_job:" +:+ job_name;
     severity := HIGH;
     message := str_exn e;
     ctx := [ ("job_name", VAtom (AStr job_name));
              ("note", VAtom (AStr "Job failed but scheduler continues running"));
              ("next_run", VAtom (AStr "Will retry on next scheduled interval")) ] |}.

(** [f] does not read the Slack log. *)
Definition ignores_slack {S X} (f : World S -> X) : Prop :=
  forall (w : World S) sl, f (mkWorld (target w) (calls w) sl (state_file w) (clock w)) = f w.

(** [f] reads neither the Target nor the call log. *)
Definition ignores_target {S X} (f : World S -> X) : Prop :=
  forall (w : World S) t c, f (mkWorld t c (slack w) (state_file w) (clock w)) = f w.

(** [f] does not read the state file. *)
Definition ignores_file {S X} (f : World S -> X) : Prop :=
  forall (w : World S) sf, f (mkWorld (target w) (calls w) (slack w) sf (clock w)) = f w.

(** The three polling passes, their names and their listings. *)
Definition check_for_updates `{Runtime} `{Settings} `{sf_client.Source} {S : Type}
    `{GHL.Server S} (kind : RecordKind) : M S unit :=
  match kind with
  | Customers => main.check_for_customer_updates
  | Jobs => main.check_for_job_updates
  | Estimates => main.check_for_estimate_updates
  end.

Definition pass_name (kind : RecordKind) : string :=
  match kind with
  | Customers => "check_for_customer_updates"
  | Jobs => "check_for_job_updates"
  | Estimates => "check_for_estimate_updates"
  end.

(** The listing of a pass raises [e]. *)
Definition listing_raises `{Runtime} `{Settings} `{sf_client.Source} {S : Type}
    (kind : RecordKind) (since : datetime) (w : World S) (e : exn) (w' : World S) : Prop :=
  match kind with
  | Customers => sf_client.get_updated_customers since 100 w = (Raise e, w')
  | Jobs => sf_client.get_updated_jobs since 100 w = (Raise e, w')
  | Estimates => sf_client.get_updated_estimates since 100 w = (Raise e, w')
  end.

(** ** Page bounds *)


(** ** Request bodies and unset stages *)

(** [d.get(k)] on a request body. *)
Definition payload_get (d : GHL.payload) (k : string) : option GHL.pv :=
  snd <$> List.find (fun kv => String.eqb kv.1 k) d.

(** No pipeline stage has been configured: the stage ids the translation
    table uses are all empty, as they are by default. *)
Definition stages_unset (settings : Settings) : Prop :=
  ghl_stage_job_scheduled = "" /\ ghl_stage_canceled = ""
  /\ ghl_stage_job_in_progress = "" /\ ghl_stage_review_referral = ""
  /\ ghl_stage_estimate_scheduled = "" /\ ghl_stage_estimate_stop = ""
  /\ ghl_stage_estimate_sent = "".

(** The body of the opportunity the matcher creates for a work order. *)
Definition new_opportunity `{Settings} (work_order : WorkOrder) (work_type : string)
    (contact_id stage : string) : GHL.payload :=
  [ ("contactId", GHL.PStr contact_id);
    ("pipelineId", GHL.PStr ghl_pipeline_id);
    ("pipelineStageId", GHL.PStr stage);
    ("name", GHL.PStr ("SF-" +:+ str (WO.id work_order) +:+ ": " +:+ work_type +:+ " #"
                       +:+ default "None" (WO.number work_order)));
    ("status", GHL.PStr "open");
    ("customFields",
     GHL.PCustomFields [(ghl_opportunity_crm_job_id_field, str (WO.id work_order))]) ].

(** ** The intake search ([find_customer_by_email_or_phone]) and the phone
       clean-up of the intake endpoints *)

(** The Source requests behind the intake endpoints. *)
Module sf_intake.

(** The Source as the intake code uses it: the token request and the
    filtered customer search, whose answer is the ["items"] of the response
    (or the exception of the request or of its decoding).  [Customer] is the
    JSON object of a customer. *)
Class Search (Customer : Type) := {
  get_token : Result string;
  (* GET /v1/customers with the given query parameters *)
  get_customers : list (string * string) -> Result (list Customer)
}.

Section Intake.
Context {Customer : Type} `{Search Customer} {S : Type}.




(** [s.lstrip("+")] *)
Fixpoint lstrip_plus (s : string) : string :=
  match s with
  | String c s' => if Ascii.eqb c "+" then lstrip_plus s' else s
  | EmptyString => EmptyString
  end.

(** The phone clean-up at the head of both intake endpoints:
    [clean_phone = phone.lstrip("+")], then without its first character when
    it has 11 characters and starts with "1". *)
Definition clean_phone (phone : option string) : option string :=
  match phone with
  | Some p =>
      if truthy (Some p) then
        let clean := lstrip_plus p in
        if Nat.eqb (String.length clean) 11 && String.prefix "1" clean
        then Some (substring 1 (String.length clean - 1) clean)
        else Some clean
      else None
  | None => None
  end.

End Intake.
End sf_intake.

(** [s] consists of decimal digits only. *)
Fixpoint all_digits (s : string) : bool :=
  match s with
  | EmptyString => true
  | String c s' => Text.is_digit c && all_digits s'
  end.

(** [s] consists of space characters only. *)
Fixpoint blank (s : string) : bool :=
  match s with
  | EmptyString => true
  | String c s' => Ascii.eqb c " " && blank s'
  end.

(** The contact is flagged as primary. *)
Definition flagged (contact : SFContact.t) : bool :=
  match SFContact.is_primary contact with Some true => true | _ => false end.

(** ** The records of a feed *)

(** The records of the pages that were answered, in feed order. *)
Fixpoint feed_records {R : Type} (feed : list (Result (list R))) : list R :=
  match feed with
  | [] => []
  | Ok items :: later => (items ++ feed_records later)%list
  | Raise _ :: later => feed_records later
  end.

(** ** Scenarios of the closed examples *)

Module Scenario.

(** Five minutes before the clock reading of the fixtures. *)
Definition stamp : datetime := naive (ymd_hms 2024 3 2 11 55 0).

(** The fallback cursor at that clock reading. *)
Definition day_before : datetime := naive (ymd_hms 2024 3 1 12 0 0).

(** A state file that holds the customer cursor only. *)
Definition customers_only : FileState := Dict {[ "last_sf_poll" := JStr "2024-03-02T11:55:00" ]}.

(** A Source whose job listing is down. *)
Definition jobs_down : sf_client.Source := {|
  sf_client.customers_feed := [];
  sf_client.jobs_feed := [Raise (HTTPError 503)];
  sf_client.estimates_feed := [];
  sf_client.customer_by_id := fun _ => Ok None
|}.

(** A job whose timestamp does not parse. *)
Definition unreadable_job : SFJob.t := Fixture.job 12 5 "Scheduled" "yesterday" None.

(** The job lister on a feed, in the deployment of the fixtures. *)
Definition list_jobs (feed : list (Result (list SFJob.t))) (since : datetime)
    (max_results : Z) : M MemTarget.Store (list SFJob.t) :=
  sf_client.get_updated (@SFJob.updated_at_datetime basic_runtime Fixture.deployment)
                        sf_client.bad_job "get_updated_jobs" "job" feed since max_results.

(** The won estimate after it was sent back to "provided". *)
Definition provided : SFEstimate.t := Fixture.estimate 7 5 "Estimate Provided" Fixture.T.

(** A customer named with spaces, whose contact has a phone and no name. *)
Definition unnamed : SFCustomer.t :=
  {| SFCustomer.id := 8; SFCustomer.customer_name := "  ";
     SFCustomer.updated_at := "yesterday";
     SFCustomer.contacts :=
       [ {| SFContact.fname := None; SFContact.lname := None;
            SFContact.is_primary := None;
            SFContact.phones := [ {| SFPhone.phone := Some "303-555-9999" |} ];
            SFContact.emails := [] |} ] |}.

Definition unnamed_first : sf_client.Source := {|
  sf_client.customers_feed := [Ok [Fixture.ada; unnamed]];
  sf_client.jobs_feed := [];
  sf_client.estimates_feed := [];
  sf_client.customer_by_id := fun _ => Ok None
|}.

Definition customer_sync (customer : SFCustomer.t) : M MemTarget.Store unit :=
  @main.handle_sf_customer_update Fixture.deployment _ MemTarget.server customer.

Definition contact_step (customer : SFCustomer.t) : M MemTarget.Store (option string) :=
  @main.find_or_create_contact Fixture.deployment _ MemTarget.server customer.

Definition search (sf_job_id : Z) (contact_id : string)
    : M MemTarget.Store (option GHL.OpportunityDict) :=
  @ghl_client.search_opportunity_by_job_id Fixture.deployment _ MemTarget.server
     sf_job_id contact_id.

Definition detect (job : SFJob.t) : M MemTarget.Store (option Z) :=
  @main.find_converted_estimate_for_job basic_runtime Fixture.deployment Fixture.crm _ job.

Definition unconfigured : Settings := default_settings "loc-1" Fixture.zone.

End Scenario.

(* ===================================================================== *)
(** * Properties *)
(* ===================================================================== *)

(** ** The effect monad *)

Section MonadFacts.
Context {S : Type}.

Lemma bind_unfold {A B} (m : M S A) (f : A -> M S B) (w : World S) :
  (m ≫= f) w = match m w with
               | (Ok a, w') => f a w'
               | (Raise e, w') => (Raise e, w')
               end.
Proof. reflexivity. Qed.

Lemma bind_ok {A B} (m : M S A) (f : A -> M S B) w a w' :
  m w = (Ok a, w') -> (m ≫= f) w = f a w'.
Proof. intros Hm. rewrite bind_unfold, Hm. reflexivity. Qed.

Lemma try_except_ok {A} (body : M S A) handler w a w' :
  body w = (Ok a, w') -> try_except body handler w = (Ok a, w').
Proof. intros Hb. unfold try_except. rewrite Hb. reflexivity. Qed.

End MonadFacts.

(** ** [str.replace] on timestamp texts *)

Lemma prefix_head_mismatch c0 rest c s :
  Ascii.eqb c0 c = false -> String.prefix (String c0 rest) (String c s) = false.
Proof.
  intros Hne. simpl. destruct (ascii_dec c0 c) as [->|]; [|reflexivity].
  rewrite Ascii.eqb_refl in Hne. discriminate.
Qed.

Lemma remove_from_short old k s :
  (String.length s <= k)%nat -> remove_from old k s = EmptyString.
Proof.
  revert k. induction s as [|c s IH]; intros k Hk; [reflexivity|].
  simpl in Hk. destruct k as [|k]; [lia|]. simpl. apply IH. lia.
Qed.

Lemma prefix_refl s : String.prefix s s = true.
Proof.
  induction s as [|c s IH]; [reflexivity|]. simpl.
  destruct (ascii_dec c c); [exact IH|congruence].
Qed.

Lemma append_empty_r s : s +:+ "" = s.
Proof.
  induction s as [|c s IH]; [reflexivity|].
  change (String c (s +:+ "") = String c s). now rewrite IH.
Qed.

Lemma absent_app c s t : absent c (s +:+ t) = absent c s && absent c t.
Proof.
  induction s as [|c' s IH]; [reflexivity|].
  change (absent c (String c' (s +:+ t)) = absent c (String c' s) && absent c t).
  simpl. rewrite IH. apply andb_assoc.
Qed.

(** Scanning a text that lacks the first character of [old] removes nothing. *)
Lemma remove_from_absent c0 rest s t :
  absent c0 s = true ->
  remove_from (String c0 rest) 0 (s +:+ t) = s +:+ remove_from (String c0 rest) 0 t.
Proof.
  induction s as [|c s IH]; intros Habs; [reflexivity|].
  simpl in Habs. apply andb_prop in Habs as [Hc Hs].
  apply negb_true_iff in Hc.
  change (String c s +:+ t) with (String c (s +:+ t)).
  cbn [remove_from]. rewrite (prefix_head_mismatch c0 rest c (s +:+ t) Hc).
  rewrite IH by exact Hs. reflexivity.
Qed.

Lemma remove_from_self c0 rest :
  remove_from (String c0 rest) 0 (String c0 rest) = EmptyString.
Proof.
  cbn [remove_from]. rewrite prefix_refl. apply remove_from_short. simpl. lia.
Qed.

(** A marker at the end of a text that lacks its first character is stripped. *)
Lemma str_remove_suffix c0 rest s :
  absent c0 s = true -> str_remove (String c0 rest) (s +:+ String c0 rest) = s.
Proof.
  intros Habs. unfold str_remove. simpl String.eqb.
  rewrite remove_from_absent by exact Habs. rewrite remove_from_self.
  apply append_empty_r.
Qed.

Lemma str_remove_absent c0 rest s :
  absent c0 s = true -> str_remove (String c0 rest) s = s.
Proof.
  intros Habs. unfold str_remove. simpl String.eqb.
  transitivity (remove_from (String c0 rest) 0 (s +:+ "")).
  - now rewrite append_empty_r.
  - rewrite remove_from_absent by exact Habs. simpl. apply append_empty_r.
Qed.

(** ** Timestamps (C5, C9) *)

Section Timestamps.
Context `{Runtime} `{Settings}.

(** The parse shared by jobs and estimates, on a text ending in the marker. *)
Lemma shifted_parse (s body : string) (local : datetime) :
  s = body +:+ "+00:00" -> absent "+" body = true -> fromisoformat body = Ok local ->
  (dt_naive ← fromisoformat (str_remove "+00:00" s);
   mret (replace_tzinfo (astimezone_utc (replace_tzinfo dt_naive (Some sf_tz))) None))
  = Ok (naive (wall local - sf_tz (wall local))).
Proof.
  intros -> Habs Hparse. rewrite str_remove_suffix by exact Habs. rewrite Hparse. reflexivity.
Qed.

(** C5 (amended).  For every job and every estimate whose [updated_at] is a
    wall-clock text followed by the marker "+00:00", the computed update
    timestamp is the naive UTC time obtained by stripping the marker, reading
    the text as a wall clock of the configured Source zone and subtracting
    that zone's UTC offset.  Customers are not converted (see C9). *)
Theorem C5_work_order_timestamps_are_converted (body : string) (local : datetime) :
  absent "+" body = true ->
  fromisoformat body = Ok local ->
  (forall job : SFJob.t,
      SFJob.updated_at job = body +:+ "+00:00" ->
      SFJob.updated_at_datetime job = Ok (naive (wall local - sf_tz (wall local))))
  /\ (forall estimate : SFEstimate.t,
      SFEstimate.updated_at estimate = body +:+ "+00:00" ->
      SFEstimate.updated_at_datetime estimate = Ok (naive (wall local - sf_tz (wall local)))).
Proof.
  intros Habs Hparse. split.
  - intros job Hs. unfold SFJob.updated_at_datetime. eapply shifted_parse; eauto.
  - intros estimate Hs. unfold SFEstimate.updated_at_datetime. eapply shifted_parse; eauto.
Qed.

(** C9.  A customer's computed update timestamp is the verbatim parse of its
    [updated_at] text with the "+00:00" or "Z" suffix removed: no zone enters
    the computation.  A job carrying the same wall-clock text is shifted by
    the UTC offset of the configured Source zone. *)
Theorem C9_customer_timestamp_is_verbatim (body suffix : string) (local : datetime)
    (customer : SFCustomer.t) :
  absent "+" body = true -> absent "Z" body = true ->
  suffix = "+00:00" \/ suffix = "Z" \/ suffix = "" ->
  fromisoformat body = Ok local ->
  SFCustomer.updated_at customer = body +:+ suffix ->
  SFCustomer.updated_at_datetime customer = Ok local
  /\ (forall job : SFJob.t,
        SFJob.updated_at job = body +:+ "+00:00" ->
        SFJob.updated_at_datetime job = Ok (naive (wall local - sf_tz (wall local)))).
Proof.
  intros Hplus Hz Hsuffix Hparse Hs. split.
  - unfold SFCustomer.updated_at_datetime. rewrite Hs.
    destruct Hsuffix as [-> | [-> | ->]].
    + rewrite str_remove_suffix by exact Hplus.
      rewrite str_remove_absent by exact Hz. exact Hparse.
    + rewrite (str_remove_absent "+" "00:00") by (rewrite absent_app, Hplus; reflexivity).
      rewrite str_remove_suffix by exact Hz. exact Hparse.
    + rewrite append_empty_r.
      rewrite (str_remove_absent "+" "00:00") by exact Hplus.
      rewrite str_remove_absent by exact Hz. exact Hparse.
  - intros job Hj. unfold SFJob.updated_at_datetime. eapply shifted_parse; eauto.
Qed.

End Timestamps.

(** Under a zone five hours behind UTC the job and estimate text
    "2024-03-01T10:00:00+00:00" resolves to 15:00:00 naive UTC. *)
Lemma C5_witness :
  absent "+" "2024-03-01T10:00:00" = true
  /\ basic_fromisoformat "2024-03-01T10:00:00" = Ok (naive (ymd_hms 2024 3 1 10 0 0))
  /\ @SFJob.updated_at_datetime basic_runtime Fixture.deployment
       (Fixture.job 1 1 "Scheduled" "2024-03-01T10:00:00+00:00" None)
     = Ok (naive (ymd_hms 2024 3 1 15 0 0))
  /\ @SFEstimate.updated_at_datetime basic_runtime Fixture.deployment
       (Fixture.estimate 1 1 "Estimate Won" "2024-03-01T10:00:00+00:00")
     = Ok (naive (ymd_hms 2024 3 1 15 0 0)).
Proof.
  pose proof (@C5_work_order_timestamps_are_converted basic_runtime Fixture.deployment
                "2024-03-01T10:00:00" (naive (ymd_hms 2024 3 1 10 0 0))
                eq_refl eq_refl) as [Hjob Hest].
  split; [reflexivity|]. split; [reflexivity|]. split.
  - exact (Hjob (Fixture.job 1 1 "Scheduled" "2024-03-01T10:00:00+00:00" None) eq_refl).
  - exact (Hest (Fixture.estimate 1 1 "Estimate Won" "2024-03-01T10:00:00+00:00") eq_refl).
Defined.

(** C5, as stated, fails for customers: under a zone five hours behind UTC
    the customer text "2024-03-01T10:00:00+00:00" resolves to 10:00:00, not
    to 15:00:00. *)
Lemma C5_customer_counterexample :
  @SFCustomer.updated_at_datetime basic_runtime
     (Fixture.customer 1 "2024-03-01T10:00:00+00:00" (Some "3035551234") None)
  = Ok (naive (ymd_hms 2024 3 1 10 0 0))
  /\ ymd_hms 2024 3 1 10 0 0 <> ymd_hms 2024 3 1 15 0 0.
Proof. split; [reflexivity | discriminate]. Qed.

Lemma C9_witness :
  @SFCustomer.updated_at_datetime basic_runtime
     (Fixture.customer 1 "2024-03-01T10:00:00Z" (Some "3035551234") None)
  = Ok (naive (ymd_hms 2024 3 1 10 0 0))
  /\ @SFJob.updated_at_datetime basic_runtime Fixture.deployment
       (Fixture.job 1 1 "Scheduled" "2024-03-01T10:00:00+00:00" None)
     = Ok (naive (ymd_hms 2024 3 1 15 0 0)).
Proof.
  pose proof (@C9_customer_timestamp_is_verbatim basic_runtime Fixture.deployment
                "2024-03-01T10:00:00" "Z" (naive (ymd_hms 2024 3 1 10 0 0))
                (Fixture.customer 1 "2024-03-01T10:00:00Z" (Some "3035551234") None)
                eq_refl eq_refl (or_intror (or_introl eq_refl)) eq_refl eq_refl) as [Hc Hj].
  split; [exact Hc|].
  exact (Hj (Fixture.job 1 1 "Scheduled" "2024-03-01T10:00:00+00:00" None) eq_refl).
Defined.

(** ** The status-to-stage table (C6) *)

Lemma dict_of_lookup_from (entries : list (string * string)) (m : gmap string string)
    (k : string) :
  is_Some (fold_left (fun m kv => <[kv.1 := kv.2]> m) entries m !! k)
  <-> k ∈ entries.*1 \/ is_Some (m !! k).
Proof.
  revert m. induction entries as [|[k' v'] entries IH]; intros m; simpl.
  - split; [auto|]. intros [Hin|Hm]; [|exact Hm]. inversion Hin.
  - rewrite IH. rewrite elem_of_cons. destruct (decide (k = k')) as [->|Hne].
    + rewrite lookup_insert_eq. split; [auto|]. intros _. right. eauto.
    + rewrite lookup_insert_ne by congruence. tauto.
Qed.

(** The keys of a dict display are the keys of its entries. *)
Lemma dict_of_keys (entries : list (string * string)) (k : string) :
  is_Some (dict_of entries !! k) <-> k ∈ entries.*1.
Proof.
  unfold dict_of. rewrite dict_of_lookup_from. rewrite lookup_empty.
  split; [|auto]. intros [Hin|[x Hx]]; [exact Hin|discriminate].
Qed.

(** C6 (amended).  The key set of the translation table is exactly the twelve
    job statuses and five estimate statuses its dict display lists; each key
    is a configured status and has one stage.  The job statuses Job Closed,
    To be invoiced, Invoiced, Paid in Full and Archived and the estimate status
    Estimate Scheduled are configured too but, with the default status names,
    are not keys. *)
Theorem C6_stage_map_keys (settings : Settings) :
  (forall status : string,
      is_Some (sf_to_ghl_stage_map settings !! status) <-> status ∈ mapped_statuses settings)
  /\ (forall status : string,
      status ∈ mapped_statuses settings -> status ∈ configured_statuses settings)
  /\ (forall status : string,
      status ∈ unmapped_statuses settings -> status ∈ configured_statuses settings)
  /\ (forall (location : string) (zone : tzinfo) (status : string),
      status ∈ unmapped_statuses (default_settings location zone) ->
      sf_to_ghl_stage_map (default_settings location zone) !! status = None).
Proof.
  split; [|split; [|split]].
  - intros status. unfold sf_to_ghl_stage_map. rewrite dict_of_keys. reflexivity.
  - intros status Hin. apply list_elem_of_In in Hin. apply list_elem_of_In.
    simpl in Hin |- *. tauto.
  - intros status Hin. apply list_elem_of_In in Hin. apply list_elem_of_In.
    simpl in Hin |- *. tauto.
  - intros location zone status Hin. revert status Hin. apply Forall_forall.
    repeat constructor.
Qed.

(** C6, as stated, fails: "Invoiced" is a configured job status and is not a
    key of the table. *)
Lemma C6_counterexample :
  "Invoiced" ∈ job_statuses (default_settings "loc-1" Fixture.zone)
  /\ sf_to_ghl_stage_map (default_settings "loc-1" Fixture.zone) !! "Invoiced" = None.
Proof. split; [apply list_elem_of_In; simpl; tauto | reflexivity]. Qed.

(** ** The cursor store (C8) *)

Section Cursor.
Context `{Runtime} {S : Type}.

Lemma read_cursor_fallback (key : string) (w : World S) :
  no_cursor key (state_file w) ->
  state_manager.read_cursor key w = (Ok (naive (clock w - timedelta_hours 24)), w).
Proof.
  intros [Habs | (data & Hd & Hk)]; unfold state_manager.read_cursor.
  - rewrite Habs. reflexivity.
  - rewrite Hd. simpl. rewrite Hk. reflexivity.
Qed.

(** C8.  When no cursor has been persisted for a record kind (the state file
    is absent, or it lacks the kind's key), the cursor read returns the time
    24 hours before the clock reading; it does not raise, and it changes
    nothing. *)
Theorem C8_cursor_fallback (kind : RecordKind) (w : World S) :
  no_cursor (cursor_key kind) (state_file w) ->
  get_last_poll_time kind w = (Ok (naive (clock w - timedelta_hours 24)), w).
Proof.
  intros Hno. destruct kind; apply try_except_ok; apply read_cursor_fallback; exact Hno.
Qed.

End Cursor.

(** The job cursor of a state file that only holds the customer cursor. *)
Lemma C8_witness :
  @get_last_poll_time basic_runtime _ Jobs
     (Fixture.world Fixture.empty_store
        (Dict {[ "last_sf_poll" := JStr "2024-03-02T11:55:00" ]}))
  = (Ok (naive (ymd_hms 2024 3 1 12 0 0)),
     Fixture.world Fixture.empty_store
        (Dict {[ "last_sf_poll" := JStr "2024-03-02T11:55:00" ]})).
Proof.
  apply (@C8_cursor_fallback basic_runtime _ Jobs
           (Fixture.world Fixture.empty_store
              (Dict {[ "last_sf_poll" := JStr "2024-03-02T11:55:00" ]}))).
  right. eexists. split; [reflexivity | reflexivity].
Defined.

(** ** The listers (C1) *)

Section ListerFacts.
Context {S R : Type}.
Variable updated_at_datetime : R -> Result datetime.
Variable bad_entry : R -> exn -> nat -> Result (list (string * atom)).
Variable function_name kind : string.

Lemma scan_items_newer since items page updated bad :
  Forall (newer updated_at_datetime since) updated ->
  match sf_client.scan_items updated_at_datetime bad_entry since items page updated bad with
  | sf_client.Older updated' _ | sf_client.Exhausted updated' _ =>
      Forall (newer updated_at_datetime since) updated'
  | sf_client.Propagated _ => True
  end.
Proof.
  revert updated bad. induction items as [|record rest IH]; intros updated bad Hall; simpl.
  - exact Hall.
  - destruct (record_updated ← updated_at_datetime record; gt record_updated since)
      as [[|]|e] eqn:Hcmp.
    + apply IH. apply Forall_app. split; [exact Hall|]. constructor; [exact Hcmp|constructor].
    + exact Hall.
    + destruct (sf_client.data_quality_error e); [|exact I].
      destruct (bad_entry record e page); [|exact I]. apply IH. exact Hall.
Qed.

Lemma flush_bad_returns (bad : list (list (string * atom))) (w : World S) :
  exists w', sf_client.flush_bad (S:=S) function_name kind bad w = (Ok tt, w').
Proof. destruct bad; simpl; eexists; reflexivity. Qed.

Lemma slice_to_Forall {A} (P : A -> Prop) n (l : list A) :
  Forall P l -> Forall P (sf_client.slice_to n l).
Proof.
  intros Hall. unfold sf_client.slice_to. destruct (n <? 0); apply Forall_take; exact Hall.
Qed.

Lemma finish_newer since max_results updated bad (w w' : World S) res :
  Forall (newer updated_at_datetime since) updated ->
  sf_client.finish function_name kind max_results updated bad w = (Ok res, w') ->
  Forall (newer updated_at_datetime since) res.
Proof.
  intros Hall. unfold sf_client.finish. rewrite bind_unfold.
  destruct (flush_bad_returns bad w) as (w1 & ->). simpl.
  intros [= <- _]. apply slice_to_Forall. exact Hall.
Qed.

Lemma scan_pages_newer since max_results feed page updated bad (w w' : World S) res :
  Forall (newer updated_at_datetime since) updated ->
  sf_client.scan_pages updated_at_datetime bad_entry function_name kind
                       since max_results feed page updated bad w = (Ok res, w') ->
  Forall (newer updated_at_datetime since) res.
Proof.
  revert page updated bad w. induction feed as [|response later IH];
    intros page updated bad w Hall; simpl.
  - destruct (_ <? _); apply finish_newer; exact Hall.
  - destruct (_ <? _); [|apply finish_newer; exact Hall].
    destruct response as [[|record items]|e]; [apply finish_newer; exact Hall| |discriminate].
    pose proof (scan_items_newer since (record :: items) page updated bad Hall) as Hscan.
    destruct (sf_client.scan_items _ _ since (record :: items) page updated bad)
      as [updated' bad'|updated' bad'|e].
    + rewrite bind_unfold. destruct (flush_bad_returns bad' w) as (w1 & ->).
      simpl. intros [= <- _]. exact Hscan.
    + destruct (Nat.ltb _ _); [apply finish_newer; exact Hscan|]. apply IH. exact Hscan.
    + discriminate.
Qed.

(** The part of C1 that holds on every feed: a lister never returns a record
    whose computed timestamp is not strictly greater than [since]. *)
Lemma get_updated_newer feed since max_results (w w' : World S) res :
  sf_client.get_updated updated_at_datetime bad_entry function_name kind
                        feed since max_results w = (Ok res, w') ->
  Forall (newer updated_at_datetime since) res.
Proof. apply scan_pages_newer. constructor. Qed.

(** On a page that is a run of newer records followed by a run of older
    ones, the scan collects the newer run and stops at the first older one. *)
Lemma scan_items_sorted since fresh stale page updated bad :
  Forall (newer updated_at_datetime since) fresh ->
  Forall (older updated_at_datetime since) stale ->
  sf_client.scan_items updated_at_datetime bad_entry since (fresh ++ stale) page updated bad
  = match stale with
    | [] => sf_client.Exhausted (updated ++ fresh)%list bad
    | _ => sf_client.Older (updated ++ fresh)%list bad
    end.
Proof.
  intros Hfresh. revert updated. induction Hfresh as [|record fresh Hrecord _ IH];
    intros updated Hstale; simpl.
  - rewrite app_nil_r. destruct Hstale as [|record stale Hrecord _]; [reflexivity|].
    simpl. unfold older in Hrecord. rewrite Hrecord. reflexivity.
  - unfold newer in Hrecord. rewrite Hrecord. rewrite (IH _ Hstale).
    rewrite <- app_assoc. reflexivity.
Qed.

Lemma slice_to_prefix {A} (n : Z) (l : list A) :
  (exists rest, l = (sf_client.slice_to n l ++ rest)%list)
  /\ (sf_client.slice_to n l = l \/ n <= Z.of_nat (List.length (sf_client.slice_to n l))).
Proof.
  unfold sf_client.slice_to. destruct (n <? 0) eqn:Hneg.
  - split; [eexists; symmetry; apply firstn_skipn|]. right. apply Z.ltb_lt in Hneg. lia.
  - split; [eexists; symmetry; apply firstn_skipn|]. apply Z.ltb_ge in Hneg.
    destruct (Nat.le_gt_cases (List.length l) (Z.to_nat n)) as [Hle|Hgt].
    + left. apply firstn_all2. exact Hle.
    + right. rewrite length_firstn. lia.
Qed.

Lemma finish_exact max_results (updated : list R) (w : World S) :
  exists res,
    sf_client.finish function_name kind max_results updated [] w = (Ok res, w)
    /\ (exists rest, updated = (res ++ rest)%list)
    /\ (res = updated \/ max_results <= Z.of_nat (List.length res)).
Proof.
  exists (sf_client.slice_to max_results updated).
  split; [reflexivity|]. apply slice_to_prefix.
Qed.

(** The scan on a well-formed feed: no page fails, every page before the last
    is full, and the records, in feed order, are a run of records newer than
    [since] followed by records that are not.  The lister returns a prefix of
    the newer run, and all of it unless [max_results] records were reached. *)
Lemma scan_pages_exact since max_results pages fresh stale page updated (w : World S) :
  well_paged pages ->
  concat pages = (fresh ++ stale)%list ->
  Forall (newer updated_at_datetime since) fresh ->
  Forall (older updated_at_datetime since) stale ->
  exists res,
    sf_client.scan_pages updated_at_datetime bad_entry function_name kind
                         since max_results (map Ok pages) page updated [] w
    = (Ok res, w)
    /\ (exists rest, (updated ++ fresh)%list = (res ++ rest)%list)
    /\ (res = (updated ++ fresh)%list \/ max_results <= Z.of_nat (List.length res)).
Proof.
  revert fresh page updated.
  induction pages as [|items later IH]; intros fresh page updated Hpaged Hcat Hfresh Hstale.
  - simpl in Hcat. symmetry in Hcat. apply app_eq_nil in Hcat as [-> ->].
    simpl. rewrite app_nil_r. destruct (_ <? _); apply finish_exact.
  - cbn [map sf_client.scan_pages].
    destruct (Z.of_nat (List.length updated) <? max_results) eqn:Hroom.
    2:{ apply Z.ltb_ge in Hroom.
        destruct (slice_to_prefix max_results updated) as ((rest & Hrest) & Hcap).
        exists (sf_client.slice_to max_results updated). split; [reflexivity|]. split.
        - exists (rest ++ fresh)%list. rewrite app_assoc, <- Hrest. reflexivity.
        - right. destruct Hcap as [->|Hcap]; [exact Hroom|exact Hcap]. }
    simpl in Hcat. apply app_eq_app in Hcat as (l & [(-> & Hl)|(-> & Hl)]).
    + (* the newer run ends on this page *)
      assert (Hl' : Forall (older updated_at_datetime since) l).
      { rewrite Hl in Hstale. apply Forall_app in Hstale. tauto. }
      pose proof (scan_items_sorted since fresh l page updated [] Hfresh Hl') as Hscan.
      destruct fresh as [|record fresh'], l as [|old l']; cbn [app] in Hscan |- *.
      * (* an empty page *)
        rewrite app_nil_r. apply finish_exact.
      * rewrite Hscan. exists (updated ++ [])%list. split; [reflexivity|].
        split; [exists []; symmetry; apply app_nil_r|left; reflexivity].
      * rewrite app_nil_r in Hscan |- *. rewrite Hscan.
        destruct (Nat.ltb _ _).
        -- apply finish_exact.
        -- assert (Hlater : well_paged later).
           { destruct later; [exact I|]. apply Hpaged. }
           destruct (IH [] (Datatypes.S page) (updated ++ record :: fresh')%list Hlater)
             as (res & Hrun & Hpre & Hcap); [now rewrite Hl|constructor|exact Hstale|].
           rewrite app_nil_r in Hpre, Hcap. exists res. tauto.
      * rewrite Hscan.
        exists (updated ++ record :: fresh')%list. split; [reflexivity|].
        split; [exists []; symmetry; apply app_nil_r|left; reflexivity].
    + (* the whole page is newer *)
      apply Forall_app in Hfresh as [Hitems Hl'].
      pose proof (scan_items_sorted since items [] page updated [] Hitems (List.Forall_nil _))
        as Hscan.
      rewrite app_nil_r in Hscan. rewrite Hscan.
      destruct items as [|record items'].
      * simpl. destruct later as [|next later'].
        -- simpl in Hl. symmetry in Hl. apply app_eq_nil in Hl as [-> ->].
           rewrite app_nil_r. apply finish_exact.
        -- destruct Hpaged as [Hfull _]. discriminate Hfull.
      * destruct (Nat.ltb (List.length (record :: items')) sf_client.PER_PAGE) eqn:Hshort.
        -- destruct later as [|next later'].
           ++ simpl in Hl. symmetry in Hl. apply app_eq_nil in Hl as [-> ->].
              rewrite app_nil_r. apply finish_exact.
           ++ destruct Hpaged as [Hfull _]. apply Nat.ltb_lt in Hshort. lia.
        -- assert (Hlater : well_paged later).
           { destruct later; [exact I|]. apply Hpaged. }
           destruct (IH l (Datatypes.S page) (updated ++ record :: items')%list Hlater Hl Hl' Hstale)
             as (res & Hrun & Hpre & Hcap).
           rewrite <- app_assoc in Hpre, Hcap. exists res. tauto.
Qed.

(** The part of C1 that holds on a well-formed feed: the lister returns, in
    feed order, the records newer than [since] (a prefix of them when
    [max_results] was reached), without touching the world. *)
Lemma get_updated_exact since max_results pages fresh stale (w : World S) :
  well_paged pages ->
  concat pages = (fresh ++ stale)%list ->
  Forall (newer updated_at_datetime since) fresh ->
  Forall (older updated_at_datetime since) stale ->
  exists res,
    sf_client.get_updated updated_at_datetime bad_entry function_name kind
                          (map Ok pages) since max_results w
    = (Ok res, w)
    /\ (exists rest, fresh = (res ++ rest)%list)
    /\ (res = fresh \/ max_results <= Z.of_nat (List.length res)).
Proof.
  intros Hpaged Hcat Hfresh Hstale.
  exact (scan_pages_exact since max_results pages fresh stale 1%nat [] w
           Hpaged Hcat Hfresh Hstale).
Qed.

End ListerFacts.

(** C1 at the failing input: [max_results = 1] and one page whose first two
    jobs are newer than [since] and whose third is older.  The scan leaves
    through the early return, which does not slice, and hands back two jobs;
    the claim bounds the result by [max_results]. *)
Theorem C1_early_return_exceeds_max_results :
  @sf_client.get_updated_jobs basic_runtime Fixture.deployment
     (Fixture.jobs_only [Fixture.march 3; Fixture.march 2; Fixture.march 1]) _
     (naive (ymd_hms 2024 3 1 20 0 0)) 1 Fixture.start
  = (Ok [Fixture.march 3; Fixture.march 2], Fixture.start)
  /\ (Z.of_nat (List.length [Fixture.march 3; Fixture.march 2]) > 1).
Proof. split; [reflexivity | reflexivity]. Qed.

(** The sibling exit on the same input without the older record: the scan
    leaves through the final [return], which slices to [max_results]. *)
Example normal_exit_is_capped :
  @sf_client.get_updated_jobs basic_runtime Fixture.deployment
     (Fixture.jobs_only [Fixture.march 3; Fixture.march 2]) _
     (naive (ymd_hms 2024 3 1 20 0 0)) 1 Fixture.start
  = (Ok [Fixture.march 3], Fixture.start).
Proof. reflexivity. Qed.

(** ** The polling pass (C4) *)

Lemma failures_In {R} (entry : R -> exn -> list (string * atom)) attempts record e :
  In (record, Raise e) attempts -> In (entry record e) (failures entry attempts).
Proof.
  induction attempts as [|[r [[]|e']] rest IH]; simpl; [tauto| |].
  - intros [[=]|Hin]; auto.
  - intros [[= -> ->]|Hin]; [left; reflexivity|right; auto].
Qed.

Section Batch.
Context {S R : Type}.
Variable sync : R -> M S unit.
Variable entry : R -> exn -> list (string * atom).

Lemma outcomes_records records w : (outcomes sync records w).*1 = records.
Proof.
  revert w. induction records as [|r rest IH]; intros w; simpl; [reflexivity|].
  now rewrite IH.
Qed.

(** The loop attempts every record, whatever happened to the earlier ones,
    never raises, and collects the entries of the failed attempts in order. *)
Lemma sync_each_spec records sync_errors w :
  main.sync_each sync entry records sync_errors w
  = (Ok (sync_errors ++ failures entry (outcomes sync records w))%list,
     world_after sync records w).
Proof.
  revert sync_errors w. induction records as [|record rest IH]; intros sync_errors w; simpl.
  - rewrite app_nil_r. reflexivity.
  - rewrite bind_unfold. unfold try_except at 1. rewrite bind_unfold.
    destruct (sync record w) as [[[]|e] w1]; simpl.
    + apply IH.
    + rewrite IH. rewrite <- app_assoc. reflexivity.
Qed.

End Batch.

Section Pass.
Context `{Runtime} `{Settings} `{sf_client.Source} {S : Type} `{GHL.Server S}.

Lemma notify_failures_slack what fname total errors reported (w : World S) :
  exists w', main.notify_failures what fname total errors reported w = (Ok tt, w')
    /\ slack w' = (slack w ++ batch_notification what fname total errors reported)%list.
Proof.
  destruct errors; simpl; eexists; split; try reflexivity. simpl. now rewrite app_nil_r.
Qed.

(** Saving the cursor and the counters sends nothing to Slack. *)
Lemma quiet_bind {A B} (m : M S A) (f : A -> M S B) :
  quiet m -> (forall a, quiet (f a)) -> quiet (m ≫= f).
Proof.
  intros Hm Hf w r w'. rewrite bind_unfold.
  destruct (m w) as [[a|e] w1] eqn:Hrun.
  - intros Hrest. rewrite (Hf a _ _ _ Hrest). exact (Hm _ _ _ Hrun).
  - intros [= _ <-]. exact (Hm _ _ _ Hrun).
Qed.

Lemma quiet_lift {A} (r : Result A) : quiet (S:=S) (lift r).
Proof. intros w r' w'. unfold lift. intros [= _ <-]. reflexivity. Qed.

Lemma quiet_utcnow : quiet (S:=S) utcnow.
Proof. intros w r w' [= _ <-]. reflexivity. Qed.

Lemma quiet_save_cursor key dt : quiet (S:=S) (state_manager.save_cursor key dt).
Proof.
  intros w r w'. unfold state_manager.save_cursor.
  destruct (state_manager.load_json (state_file w)) as [[data|]|e]; intros [= _ <-]; reflexivity.
Qed.

Lemma quiet_get_stats : quiet (S:=S) state_manager.get_stats.
Proof.
  intros w r w'. unfold state_manager.get_stats.
  destruct (state_manager.load_json (state_file w)); intros [= _ <-]; reflexivity.
Qed.

Lemma quiet_update_stats kwargs : quiet (S:=S) (state_manager.update_stats kwargs).
Proof.
  intros w r w'. unfold state_manager.update_stats. rewrite bind_unfold.
  unfold state_manager.get_stats.
  destruct (state_manager.load_json (state_file w)) as [[data|]|e]; intros [= _ <-]; reflexivity.
Qed.

(** The shape the three passes share: read the cursor, list, sync each
    record, report the failures, then do the bookkeeping [rest]. *)
Lemma pass_spec {R} (read : M S datetime) (listing : datetime -> M S (list R))
    (sync : R -> M S unit) (entry : R -> exn -> list (string * atom))
    (what fname job_name : string)
    (reported : list (list (string * atom)) -> list (list (string * atom)))
    (rest : list R -> M S unit)
    (w0 w1 w2 : World S) (last_poll : datetime) (records : list R) :
  (forall records, quiet (rest records)) ->
  read w0 = (Ok last_poll, w1) ->
  listing last_poll w1 = (Ok records, w2) ->
  let sync_errors := failures entry (outcomes sync records w2) in
  exists (w4 : World S) (fatal : list Notification),
    main.safe_scheduled_job job_name
      (last_poll ← read;
       records ← listing last_poll;
       sync_errors ← main.sync_each sync entry records [];
       main.notify_failures what fname (List.length records) sync_errors
                            (reported sync_errors);;
       rest records) w0
    = (Ok tt, w4)
    /\ slack w4
       = (slack (world_after sync records w2)
          ++ batch_notification what fname (List.length records) sync_errors
                                (reported sync_errors)
          ++ fatal)%list
    /\ (fatal = [] \/ exists n, fatal = [n]
                                /\ function_name n = "scheduled_job:" +:+ job_name).
Proof.
  intros Hquiet Hcursor Hlist sync_errors.
  unfold main.safe_scheduled_job, try_except.
  rewrite (bind_ok _ _ _ _ _ Hcursor). rewrite (bind_ok _ _ _ _ _ Hlist).
  rewrite (bind_ok _ _ _ _ _ (sync_each_spec sync entry records [] w2)).
  simpl app. fold sync_errors. rewrite bind_unfold.
  destruct (notify_failures_slack what fname (List.length records) sync_errors
              (reported sync_errors) (world_after sync records w2)) as (wn & -> & Hslack).
  destruct (rest records wn) as [[[]|e] w4] eqn:Hrest; apply Hquiet in Hrest.
  - exists w4, []. split; [reflexivity|]. split; [|left; reflexivity].
    rewrite app_nil_r. congruence.
  - eexists _, [_]. split; [reflexivity|]. split.
    + simpl. rewrite Hrest, Hslack. rewrite <- app_assoc. reflexivity.
    + right. eexists. split; reflexivity.
Qed.

Ltac quiet_steps :=
  repeat first
    [ apply quiet_utcnow | apply quiet_lift | apply quiet_save_cursor
    | apply quiet_get_stats | apply quiet_update_stats
    | apply quiet_bind; [|intros ?] ].

(** C4 (amended).  In a job pass whose cursor read and listing succeed, every
    listed job is attempted in order, each in the world its predecessors left,
    whether or not an earlier job raised; the loop itself never raises and
    records an entry for every job whose sync raised.  After the loop the pass
    sends no notification when no job failed and exactly one batched
    notification otherwise.  That notification counts every failed job and
    lists the first five of them; a later notification of the pass can only be
    the fatal-pass report of the wrapper. *)
Theorem C4_job_pass_isolates_failures (w0 w1 w2 : World S) (last_poll : datetime)
    (jobs : list SFJob.t) :
  state_manager.get_last_job_poll_time w0 = (Ok last_poll, w1) ->
  sf_client.get_updated_jobs last_poll 100 w1 = (Ok jobs, w2) ->
  let attempts := outcomes sync_job jobs w2 in
  let sync_errors := failures main.failed_job attempts in
  let w3 := world_after sync_job jobs w2 in
  attempts.*1 = jobs
  /\ main.sync_each sync_job main.failed_job jobs [] w2 = (Ok sync_errors, w3)
  /\ (forall job e, In (job, Raise e) attempts -> In (main.failed_job job e) sync_errors)
  /\ exists (w4 : World S) (fatal : list Notification),
       main.check_for_job_updates w0 = (Ok tt, w4)
       /\ slack w4
          = (slack w3 ++ job_batch_notification (List.length jobs) sync_errors ++ fatal)%list
       /\ (fatal = [] \/ exists n, fatal = [n]
                                   /\ function_name n = "scheduled_job:check_for_job_updates").
Proof.
  intros Hcursor Hlist attempts sync_errors w3.
  split; [apply outcomes_records|].
  split; [apply (sync_each_spec sync_job main.failed_job jobs [] w2)|].
  split; [intros job e; apply failures_In|].
  destruct (pass_spec state_manager.get_last_job_poll_time
              (fun last_poll => sf_client.get_updated_jobs last_poll 100)
              sync_job main.failed_job "jobs" "check_for_job_updates" "check_for_job_updates"
              (firstn 5)
              (fun jobs : list SFJob.t =>
                 now ← utcnow;
                 state_manager.save_last_job_poll_time now;;
                 stats ← state_manager.get_stats;
                 checks ← lift (state_manager.stat_plus stats "total_job_checks" 1);
                 found ← lift (state_manager.stat_plus stats "total_job_updates_found"
                                                       (Z.of_nat (List.length jobs)));
                 state_manager.update_stats
                   [ ("total_job_checks", JInt checks); ("total_job_updates_found", JInt found) ])
              w0 w1 w2 last_poll jobs) as (w4 & fatal & Hpass & Hslack & Hfatal);
    [intros; unfold state_manager.save_last_job_poll_time; quiet_steps|assumption..|].
  exists w4, fatal. split; [exact Hpass|]. split; [|exact Hfatal].
  rewrite Hslack. fold attempts sync_errors w3.
  unfold job_batch_notification, batch_notification. destruct sync_errors; reflexivity.
Qed.

(** The estimate pass has the same shape and truncates the same way. *)
Lemma estimate_pass_isolates_failures (w0 w1 w2 : World S) (last_poll : datetime)
    (estimates : list SFEstimate.t) :
  state_manager.get_last_estimate_poll_time w0 = (Ok last_poll, w1) ->
  sf_client.get_updated_estimates last_poll 100 w1 = (Ok estimates, w2) ->
  let sync := fun estimate => main.sync_work_order_to_ghl (Estimate estimate) "Estimate" in
  let sync_errors := failures main.failed_estimate (outcomes sync estimates w2) in
  exists (w4 : World S) (fatal : list Notification),
    main.check_for_estimate_updates w0 = (Ok tt, w4)
    /\ slack w4
       = (slack (world_after sync estimates w2)
          ++ batch_notification "estimates" "check_for_estimate_updates"
               (List.length estimates) sync_errors (firstn 5 sync_errors)
          ++ fatal)%list
    /\ (fatal = [] \/ exists n, fatal = [n]
                                /\ function_name n = "scheduled_job:check_for_estimate_updates").
Proof.
  intros Hcursor Hlist sync sync_errors.
  apply (pass_spec state_manager.get_last_estimate_poll_time
           (fun last_poll => sf_client.get_updated_estimates last_poll 100)
           sync main.failed_estimate "estimates" "check_for_estimate_updates"
           "check_for_estimate_updates" (firstn 5)
           (fun estimates : list SFEstimate.t =>
              now ← utcnow;
              state_manager.save_last_estimate_poll_time now;;
              stats ← state_manager.get_stats;
              checks ← lift (state_manager.stat_plus stats "total_estimate_checks" 1);
              found ← lift (state_manager.stat_plus stats "total_estimate_updates_found"
                                                    (Z.of_nat (List.length estimates)));
              state_manager.update_stats
                [ ("total_estimate_checks", JInt checks);
                  ("total_estimate_updates_found", JInt found) ])
           w0 w1 w2 last_poll estimates);
    [intros; unfold state_manager.save_last_estimate_poll_time; quiet_steps|assumption..].
Qed.

(** The customer pass has the same shape and lists every failed customer. *)
Lemma customer_pass_isolates_failures (w0 w1 w2 : World S) (last_poll : datetime)
    (customers : list SFCustomer.t) :
  state_manager.get_last_customer_poll_time w0 = (Ok last_poll, w1) ->
  sf_client.get_updated_customers last_poll 100 w1 = (Ok customers, w2) ->
  let sync_errors :=
    failures main.failed_customer (outcomes main.handle_sf_customer_update customers w2) in
  exists (w4 : World S) (fatal : list Notification),
    main.check_for_customer_updates w0 = (Ok tt, w4)
    /\ slack w4
       = (slack (world_after main.handle_sf_customer_update customers w2)
          ++ batch_notification "customers" "check_for_customer_updates"
               (List.length customers) sync_errors sync_errors
          ++ fatal)%list
    /\ (fatal = [] \/ exists n, fatal = [n]
                                /\ function_name n = "scheduled_job:check_for_customer_updates").
Proof.
  intros Hcursor Hlist sync_errors.
  apply (pass_spec state_manager.get_last_customer_poll_time
           (fun last_poll => sf_client.get_updated_customers last_poll 100)
           main.handle_sf_customer_update main.failed_customer "customers"
           "check_for_customer_updates" "check_for_customer_updates" (fun errors => errors)
           (fun customers : list SFCustomer.t =>
              now ← utcnow;
              state_manager.save_last_poll_time now;;
              stats ← state_manager.get_stats;
              total_checks ← lift (state_manager.stat_plus stats "total_checks" 1);
              total_updates ← lift (state_manager.stat_plus stats "total_updates_found"
                                      (Z.of_nat (List.length customers)));
              state_manager.update_stats
                [ ("total_checks", JInt total_checks);
                  ("total_updates_found", JInt total_updates);
                  ("last_check", JStr (isoformat now)) ])
           w0 w1 w2 last_poll customers);
    [intros; unfold state_manager.save_last_poll_time; quiet_steps|assumption..].
Qed.

End Pass.

(** C4, as stated, fails for the sixth failed record: the pass reports six
    failures in one notification, whose context lists the first five. *)
Lemma C4_counterexample :
  exists w4 n,
    Fixture.job_pass (Fixture.jobs_only Fixture.failing_jobs) Fixture.start = (Ok tt, w4)
    /\ slack w4 = [n]
    /\ function_name n = "check_for_job_updates"
    /\ ctx n = [ ("total_jobs", VAtom (AInt 6)); ("failed_count", VAtom (AInt 6));
                 ("failed_jobs",
                  VRecords [Fixture.row 1; Fixture.row 2; Fixture.row 3;
                            Fixture.row 4; Fixture.row 5]) ]
    /\ (exists e w',
          Fixture.sync (Fixture.jobs_only Fixture.failing_jobs)
            (Job (Fixture.job 6 1 "Scheduled" "2024-03-02T09:00:00+00:00" None)) "Job"
            Fixture.start
          = (Raise e, w')
          /\ main.failed_job (Fixture.job 6 1 "Scheduled" "2024-03-02T09:00:00+00:00" None) e
             = Fixture.row 6)
    /\ ~ In (Fixture.row 6)
            [Fixture.row 1; Fixture.row 2; Fixture.row 3; Fixture.row 4; Fixture.row 5].
Proof.
  eexists _, _. split; [reflexivity|]. split; [reflexivity|]. split; [reflexivity|].
  split; [reflexivity|]. split.
  - exists (JobSyncError "Failed to sync job 6" HIGH
              [ ("work_order_id", VAtom (AInt 6)); ("work_order_number", VAtom (AStr "J-6"));
                ("customer_id", VAtom (AInt 1));
                ("original_error", VAtom (AStr "HTTP error 500")) ]),
      Fixture.start.
    split; reflexivity.
  - simpl. intros [Hr|[Hr|[Hr|[Hr|[Hr|[]]]]]]; discriminate Hr.
Qed.

Lemma C4_witness :
  exists w4 fatal,
    Fixture.job_pass (Fixture.jobs_only Fixture.failing_jobs) Fixture.start = (Ok tt, w4)
    /\ slack w4
       = (slack Fixture.start
          ++ job_batch_notification 6
               [Fixture.row 1; Fixture.row 2; Fixture.row 3;
                Fixture.row 4; Fixture.row 5; Fixture.row 6]
          ++ fatal)%list.
Proof.
  destruct (@C4_job_pass_isolates_failures basic_runtime Fixture.deployment
              (Fixture.jobs_only Fixture.failing_jobs) _ MemTarget.server
              Fixture.start Fixture.start Fixture.start
              (naive (ymd_hms 2024 3 1 12 0 0)) Fixture.failing_jobs eq_refl eq_refl)
    as (_ & _ & _ & w4 & fatal & Hpass & Hslack & _).
  exists w4, fatal. split; [exact Hpass|exact Hslack].
Defined.

(** ** The log of Target calls *)

Section CallLog.
Context {S : Type}.

Lemma extends_refl P (w : World S) : extends P w w.
Proof. exists []. split; [now rewrite app_nil_r | constructor]. Qed.

Lemma extends_trans P (w1 w2 w3 : World S) :
  extends P w1 w2 -> extends P w2 w3 -> extends P w1 w3.
Proof.
  intros (n1 & H1 & F1) (n2 & H2 & F2). exists (n1 ++ n2)%list. split.
  - rewrite H2, H1. now rewrite app_assoc.
  - apply Forall_app. split; assumption.
Qed.

Lemma extends_nothing (w w' : World S) : extends (fun _ => False) w w' -> calls w' = calls w.
Proof.
  intros (new & Hnew & Hall). destruct new as [|c new].
  - now rewrite app_nil_r in Hnew.
  - inversion Hall as [|? ? Hc _]. destruct Hc.
Qed.

Lemma issues_ret {A} P (a : A) : issues P (mret a : M S A).
Proof. intros w r w' [= _ <-]. apply extends_refl. Qed.

Lemma issues_raise {A} P e : issues P (raise e : M S A).
Proof. intros w r w' [= _ <-]. apply extends_refl. Qed.

Lemma issues_lift {A} P (x : Result A) : issues P (lift x : M S A).
Proof. intros w r w' [= _ <-]. apply extends_refl. Qed.

Lemma issues_bind {A B} P (m : M S A) (f : A -> M S B) :
  issues P m -> (forall a, issues P (f a)) -> issues P (m ≫= f).
Proof.
  intros Hm Hf w r w'. rewrite bind_unfold.
  destruct (m w) as [[a|e] w1] eqn:Hrun; specialize (Hm _ _ _ Hrun).
  - intros Hk. eapply extends_trans; [exact Hm|]. eapply Hf; eauto.
  - intros [= _ <-]. exact Hm.
Qed.

Lemma issues_try_except {A} P (body : M S A) handler :
  issues P body ->
  (forall e h, handler e = Some h -> issues P h) ->
  issues P (try_except body handler).
Proof.
  intros Hb Hh w r w'. unfold try_except.
  destruct (body w) as [[a|e] w1] eqn:Hrun; specialize (Hb _ _ _ Hrun).
  - intros [= _ <-]. exact Hb.
  - destruct (handler e) as [h|] eqn:Hhe.
    + intros Hk. eapply extends_trans; [exact Hb|]. eapply Hh; eauto.
    + intros [= _ <-]. exact Hb.
Qed.

Lemma issues_send_error P error fname sev context :
  issues P (slack_notifier.send_error error fname sev context : M S unit).
Proof.
  intros w r w' [= _ <-]. exists []. simpl. split; [now rewrite app_nil_r | constructor].
Qed.

Lemma issues_request `{GHL.Server S} {A} (P : GHL.Call -> Prop) call
    (op : S -> Result A * S) :
  P call -> issues P (ghl_client.request call op).
Proof.
  intros HP w r w'. unfold ghl_client.request. destruct (op (target w)) as [r0 s'].
  intros [= _ <-]. exists [call]. split; [reflexivity|]. constructor; [exact HP|constructor].
Qed.

Lemma request_run `{GHL.Server S} {A} (call : GHL.Call) (op : S -> Result A * S)
    (w : World S) :
  ghl_client.request call op w
  = ((op (target w)).1,
     mkWorld (op (target w)).2 (calls w ++ [call])%list (slack w) (state_file w) (clock w)).
Proof. unfold ghl_client.request. destruct (op (target w)); reflexivity. Qed.

Lemma read_only_filter (cs : list GHL.Call) :
  Forall read_only cs -> List.filter GHL.mutating cs = [].
Proof.
  induction 1 as [|c cs Hc _ IH]; [reflexivity|]. simpl. rewrite Hc. exact IH.
Qed.

Lemma read_only_not_on_opportunity (cs : list GHL.Call) :
  Forall read_only cs -> Forall not_on_opportunity cs.
Proof.
  intros Hall. eapply Forall_impl; [exact Hall|].
  intros [] Hc; try reflexivity; discriminate Hc.
Qed.

End CallLog.

Section ListerCalls.
Context {S R : Type}.
Variable updated_at_datetime : R -> Result datetime.
Variable bad_entry : R -> exn -> nat -> Result (list (string * atom)).
Variable function_name kind : string.

Lemma issues_flush_bad P bad : issues P (sf_client.flush_bad (S:=S) function_name kind bad).
Proof. destruct bad; [apply issues_ret|apply issues_send_error]. Qed.

Lemma issues_finish P max_results (updated : list R) bad :
  issues P (sf_client.finish (S:=S) function_name kind max_results updated bad).
Proof. apply issues_bind; [apply issues_flush_bad|intros; apply issues_ret]. Qed.

(** Listing talks to the Source and to Slack only. *)
Lemma issues_scan_pages P since max_results feed page updated bad :
  issues P (sf_client.scan_pages (S:=S) updated_at_datetime bad_entry function_name kind
                                 since max_results feed page updated bad).
Proof.
  revert page updated bad. induction feed as [|response later IH]; intros page updated bad; simpl.
  - destruct (_ <? _); apply issues_finish.
  - destruct (_ <? _); [|apply issues_finish].
    destruct response as [[|record items]|e]; [apply issues_finish| |apply issues_raise].
    destruct (sf_client.scan_items _ _ since (record :: items) page updated bad)
      as [updated' bad'|updated' bad'|e].
    + apply issues_bind; [apply issues_flush_bad|intros; apply issues_ret].
    + destruct (Nat.ltb _ _); [apply issues_finish|apply IH].
    + apply issues_raise.
Qed.

End ListerCalls.

(** ** Conversion detection (C10) *)

Section ConversionFacts.
Context `{Runtime} `{Settings} `{sf_client.Source} {S : Type} `{GHL.Server S}.

Lemma issues_get_updated_estimates P since max_results :
  issues P (sf_client.get_updated_estimates (S:=S) since max_results).
Proof. apply issues_scan_pages. Qed.

(** A job whose [created_at] equals its [updated_at] has the same computed
    creation and update timestamps. *)
Lemma created_at_datetime_of_fresh (job : SFJob.t) :
  truthy (SFJob.created_at job) = true ->
  SFJob.created_at job = Some (SFJob.updated_at job) ->
  SFJob.created_at_datetime job = Some <$> SFJob.updated_at_datetime job
  \/ exists e, SFJob.created_at_datetime job = Raise e /\ SFJob.updated_at_datetime job = Raise e.
Proof.
  intros Htruthy Hsame. unfold SFJob.created_at_datetime, SFJob.updated_at_datetime.
  rewrite Hsame in Htruthy |- *. simpl in Htruthy.
  destruct (String.eqb (SFJob.updated_at job) ""); [discriminate|].
  destruct (fromisoformat _) as [dt|e]; [left; reflexivity|right; eauto].
Qed.

Lemma find_converted_not_fresh (job : SFJob.t) (w : World S) :
  not_fresh job = true -> main.find_converted_estimate_for_job job w = (Ok None, w).
Proof.
  intros Hguard. unfold main.find_converted_estimate_for_job.
  unfold not_fresh in Hguard. rewrite Hguard. reflexivity.
Qed.

Lemma fresh_parse (job : SFJob.t) (ts : datetime) :
  not_fresh job = false ->
  SFJob.updated_at_datetime job = Ok ts ->
  SFJob.created_at_datetime job = Ok (Some ts).
Proof.
  intros Hguard Hts. unfold not_fresh in Hguard.
  apply orb_false_iff in Hguard as [Ht Hs]. apply negb_false_iff in Ht, Hs.
  apply bool_decide_eq_true in Hs.
  destruct (created_at_datetime_of_fresh job Ht Hs) as [-> | (e & _ & He)].
  - rewrite Hts. reflexivity.
  - congruence.
Qed.

(** The search of a freshly created job, once its timestamp is known: the
    first listed estimate that matches, or no match when the listing raises. *)
Lemma find_converted_fresh (job : SFJob.t) (ts : datetime) (w : World S) :
  not_fresh job = false ->
  SFJob.created_at_datetime job = Ok (Some ts) ->
  main.find_converted_estimate_for_job job w
  = match sf_client.get_updated_estimates (sub_timedelta ts (timedelta_hours 2)) 50 w with
    | (Ok estimates, w') =>
        (Ok (SFEstimate.id <$> List.find (main.is_conversion_of job) estimates), w')
    | (Raise _, w') => (Ok None, w')
    end.
Proof.
  intros Hguard Hts. unfold main.find_converted_estimate_for_job.
  unfold not_fresh in Hguard. rewrite Hguard.
  rewrite bind_unfold. unfold lift at 1. rewrite Hts.
  unfold try_except. rewrite bind_unfold.
  destruct (sf_client.get_updated_estimates _ 50 w) as [[estimates|e] w']; reflexivity.
Qed.

Lemma issues_find_converted P (job : SFJob.t) :
  issues P (main.find_converted_estimate_for_job (S:=S) job).
Proof.
  unfold main.find_converted_estimate_for_job.
  destruct (_ || _); [apply issues_ret|].
  apply issues_bind; [apply issues_lift|]. intros [ts|]; [|apply issues_ret].
  apply issues_try_except.
  - apply issues_bind; [apply issues_get_updated_estimates|intros; apply issues_ret].
  - intros e h [= <-]. apply issues_ret.
Qed.

(** Conversion detection on a job whose timestamp parses. *)
Lemma find_converted_runs (job : SFJob.t) (ts : datetime) (w : World S) :
  SFJob.updated_at_datetime job = Ok ts ->
  exists found w',
    main.find_converted_estimate_for_job job w = (Ok found, w')
    /\ (not_fresh job = true -> found = None /\ w' = w)
    /\ (forall e w1,
          sf_client.get_updated_estimates (sub_timedelta ts (timedelta_hours 2)) 50 w
          = (Raise e, w1) -> found = None).
Proof.
  intros Hts. destruct (not_fresh job) eqn:Hguard.
  - exists None, w. split; [now apply find_converted_not_fresh|]. split; auto.
  - rewrite (find_converted_fresh job ts w Hguard (fresh_parse job ts Hguard Hts)).
    destruct (sf_client.get_updated_estimates _ 50 w) as [[estimates|e] w'] eqn:Hlist.
    + eexists _, w'. split; [reflexivity|]. split; [discriminate|]. intros e w1 [=].
    + exists None, w'. split; [reflexivity|]. split; [discriminate|]. reflexivity.
Qed.

(** C10 (amended).  For every job whose [updated_at] parses (as it does for
    every job a lister returns), conversion detection never raises: it returns
    no match when [created_at] is absent or differs from [updated_at], it
    returns no match when the estimate listing raises, it issues no Target
    call, and the job's sync continues from the status lookup with the
    detection's answer. *)
Theorem C10_conversion_detection_never_fails (job : SFJob.t) (ts : datetime) (w : World S) :
  SFJob.updated_at_datetime job = Ok ts ->
  exists (found : option Z) (w' : World S),
    main.find_converted_estimate_for_job job w = (Ok found, w')
    /\ calls w' = calls w
    /\ (not_fresh job = true -> found = None /\ w' = w)
    /\ (forall e w1,
          sf_client.get_updated_estimates (sub_timedelta ts (timedelta_hours 2)) 50 w
          = (Raise e, w1) -> found = None)
    /\ (forall work_type,
          main.sync_work_order_to_ghl (Job job) work_type w
          = main.sync_mapped found (Job job) work_type w').
Proof.
  intros Hts.
  destruct (find_converted_runs job ts w Hts) as (found & w' & Hrun & Hguard & Hfail).
  exists found, w'. split; [exact Hrun|]. split.
  - apply extends_nothing. eapply (issues_find_converted (fun _ => False)); eauto.
  - split; [exact Hguard|]. split; [exact Hfail|].
    intros work_type. unfold main.sync_work_order_to_ghl.
    rewrite (bind_ok _ _ _ _ _ Hrun). reflexivity.
Qed.

(** For a work order whose timestamp parses, the conversion check returns
    and issues no Target call. *)
Lemma conversion_check_runs (work_order : WorkOrder) (ts : datetime) (w : World S) :
  WO.updated_at_datetime work_order = Ok ts ->
  exists found w', conversion_check work_order w = (Ok found, w') /\ calls w' = calls w.
Proof.
  intros Hts. destruct work_order as [job|estimate]; simpl in *.
  - destruct (find_converted_runs job ts w Hts) as (found & w' & Hrun & _).
    exists found, w'. split; [exact Hrun|].
    apply extends_nothing. eapply (issues_find_converted (fun _ => False)); eauto.
  - exists None, w. split; reflexivity.
Qed.

(** However the conversion check ends, it issues no Target call. *)
Lemma conversion_check_calls (work_order : WorkOrder) (w w' : World S) r :
  conversion_check work_order w = (r, w') -> calls w' = calls w.
Proof.
  destruct work_order as [job|estimate]; simpl.
  - intros Hrun. apply extends_nothing.
    eapply (issues_find_converted (fun _ => False)); eauto.
  - intros [= _ <-]. reflexivity.
Qed.

End ConversionFacts.

(** C10, as stated, fails for a job whose equal [created_at] and [updated_at]
    do not parse: the timestamp is parsed before the [try] block, so the
    [ValueError] leaves conversion detection and the job's sync. *)
Lemma C10_counterexample :
  @main.find_converted_estimate_for_job basic_runtime Fixture.deployment Fixture.crm _
     Fixture.garbled Fixture.start
  = (Raise ValueError, Fixture.start)
  /\ Fixture.sync Fixture.crm (Job Fixture.garbled) "Job" Fixture.start
     = (Raise ValueError, Fixture.start).
Proof. split; reflexivity. Qed.

(** With the estimate listing down, detection answers "no match". *)
Lemma C10_witness :
  exists w',
    @main.find_converted_estimate_for_job basic_runtime Fixture.deployment
       Fixture.crm_estimates_down _ Fixture.converted Fixture.start = (Ok None, w')
    /\ calls w' = calls Fixture.start.
Proof.
  destruct (@C10_conversion_detection_never_fails basic_runtime Fixture.deployment
              Fixture.crm_estimates_down MemTarget.Store MemTarget.server Fixture.converted
              (naive (ymd_hms 2024 3 2 13 0 0)) Fixture.start eq_refl)
    as (found & w' & Hrun & Hcalls & _ & Hdown & _).
  exists w'. rewrite <- (Hdown (HTTPError 503) Fixture.start eq_refl).
  split; [exact Hrun|exact Hcalls].
Defined.

(** ** The opportunity matcher (C7, C2, C3) *)

Section MatcherFacts.
Context `{Runtime} `{Settings} `{sf_client.Source} {S : Type} `{GHL.Server S}.

Lemma issues_item_id P o : issues P (main.item_id (S:=S) o).
Proof. destruct o; [apply issues_ret|apply issues_raise]. Qed.

(** C7.  A customer whose derived phone and email are both absent (or empty)
    is skipped.  In the customer path the handler returns at once: no Target
    call, no notification, no exception.  In the work-order path, whenever the
    customer lookup returns this customer, the sync from the status lookup on
    returns normally without any Target call, whatever the conversion check
    answered; the whole sync issues no Target call, however it ends; and for
    every work order whose timestamp parses (every listed work order) the
    whole sync returns normally, so that the per-record handler of the pass
    records no failure for it. *)
Theorem C7_no_contact_info_is_a_skip (customer : SFCustomer.t) :
  main.no_contact_info customer = true ->
  (forall w : World S, main.handle_sf_customer_update customer w = (Ok tt, w))
  /\ (forall (work_order : WorkOrder) (work_type : string) (w : World S),
        sf_client.customer_by_id (WO.customer_id work_order) = Ok (Some customer) ->
        (forall found : option Z,
            exists w' : World S,
              main.sync_mapped found work_order work_type w = (Ok tt, w')
              /\ calls w' = calls w)
        /\ (forall (r : Result unit) (w' : World S),
              main.sync_work_order_to_ghl work_order work_type w = (r, w') ->
              calls w' = calls w)
        /\ (forall ts : datetime,
              WO.updated_at_datetime work_order = Ok ts ->
              exists w' : World S,
                main.sync_work_order_to_ghl work_order work_type w = (Ok tt, w')
                /\ calls w' = calls w
                /\ forall entry,
                     failures entry
                       (outcomes (fun wo => main.sync_work_order_to_ghl wo work_type)
                                 [work_order] w)
                     = [])).
Proof.
  intros Hinfo. split.
  - intros w. unfold main.handle_sf_customer_update. rewrite Hinfo. reflexivity.
  - intros work_order work_type w Hcust.
    assert (Hmapped : forall found (w1 : World S),
               exists w', main.sync_mapped found work_order work_type w1 = (Ok tt, w')
                          /\ calls w' = calls w1).
    { intros found w1. unfold main.sync_mapped.
      destruct (sf_to_ghl_stage_map _ !! WO.status work_order) as [stage|];
        [|exists w1; split; reflexivity].
      destruct (String.eqb stage ""); [exists w1; split; reflexivity|].
      unfold try_except, main.sync_steps. rewrite bind_unfold.
      unfold sf_client.get_customer_by_id, lift. rewrite Hcust, Hinfo.
      eexists. split; reflexivity. }
    split; [intros found; apply Hmapped|]. split.
    { intros r w'. unfold main.sync_work_order_to_ghl.
      fold (conversion_check (S:=S) work_order). rewrite bind_unfold.
      destruct (conversion_check work_order w) as [[found|e] w1] eqn:Hconv.
      - destruct (Hmapped found w1) as (w2 & -> & Hcalls). intros [= _ <-].
        rewrite Hcalls. apply (conversion_check_calls _ _ _ _ Hconv).
      - intros [= _ <-]. apply (conversion_check_calls _ _ _ _ Hconv). }
    intros ts Hts.
    destruct (conversion_check_runs work_order ts w Hts) as (found & w1 & Hconv & Hcalls).
    destruct (Hmapped found w1) as (w' & Hrun & Hcalls').
    assert (Hsync : main.sync_work_order_to_ghl work_order work_type w = (Ok tt, w')).
    { unfold main.sync_work_order_to_ghl. fold (conversion_check (S:=S) work_order).
      rewrite (bind_ok _ _ _ _ _ Hconv). exact Hrun. }
    exists w'. split; [exact Hsync|]. split; [congruence|].
    intros entry. simpl. rewrite Hsync. reflexivity.
Qed.

Lemma search_opportunity_calls sf_job_id contact_id (w w' : World S) r :
  ghl_client.search_opportunity_by_job_id sf_job_id contact_id w = (r, w') ->
  calls w' = (calls w ++ [GHL.SearchOpportunityByJobId sf_job_id contact_id])%list.
Proof.
  unfold ghl_client.search_opportunity_by_job_id. rewrite bind_unfold. rewrite request_run.
  destruct (GHL.get_opportunities_search contact_id (target w)) as [[opps|e] s'];
    intros [= _ <-]; reflexivity.
Qed.

(** What [sync_work_order_to_ghl] does once the conversion check has
    answered, the status is mapped and the customer has contact details. *)
Lemma sync_mapped_unfold (found : option Z) (work_order : WorkOrder) (work_type stage : string)
    (customer : SFCustomer.t) (w : World S) :
  sf_to_ghl_stage_map _ !! WO.status work_order = Some stage ->
  stage <> "" ->
  sf_client.customer_by_id (WO.customer_id work_order) = Ok (Some customer) ->
  main.no_contact_info customer = false ->
  main.sync_mapped found work_order work_type w
  = try_except
      (ghl_contact_id ← main.find_or_create_contact customer;
       match ghl_contact_id with
       | Some contact_id =>
           if String.eqb contact_id "" then
             raise (JobSyncError "Failed to get GHL contact ID" HIGH
                      [ ("work_order_id", VAtom (AInt (WO.id work_order)));
                        ("customer_id", VAtom (AInt (WO.customer_id work_order))) ])
           else
             opportunity ← main.find_opportunity found work_order contact_id;
             main.create_or_update_opportunity opportunity work_order work_type contact_id stage
       | None =>
           raise (JobSyncError "Failed to get GHL contact ID" HIGH
                    [ ("work_order_id", VAtom (AInt (WO.id work_order)));
                      ("customer_id", VAtom (AInt (WO.customer_id work_order))) ])
       end)
      (main.wrap_sync_error work_order work_type) w.
Proof.
  intros Hstage Hne Hcust Hinfo. unfold main.sync_mapped. rewrite Hstage.
  destruct (String.eqb_spec stage ""); [contradiction|].
  unfold try_except, main.sync_steps. rewrite bind_unfold.
  unfold sf_client.get_customer_by_id, lift. rewrite Hcust. rewrite Hinfo. reflexivity.
Qed.

Lemma issues_contact_searches (customer : SFCustomer.t) :
  issues read_only (contact_searches (S:=S) customer).
Proof.
  unfold contact_searches. apply issues_bind.
  { destruct (SFCustomer.phone customer) as [phone|]; [|apply issues_ret].
    destruct (truthy _); [|apply issues_ret].
    apply issues_bind; [now apply issues_request|intros; apply issues_ret]. }
  intros by_phone. destruct by_phone; [apply issues_ret|].
  destruct (SFCustomer.email customer) as [email|]; [|apply issues_ret].
  destruct (truthy _); [|apply issues_ret].
  apply issues_bind; [now apply issues_request|intros; apply issues_ret].
Qed.

Lemma find_or_create_contact_unfold (customer : SFCustomer.t) (w : World S) :
  main.find_or_create_contact customer w
  = (ghl_contact ← contact_searches customer;
     match ghl_contact with
     | Some contact =>
         contact_id ← main.item_id (GHL.contact_id contact);
         ghl_client.update_contact_custom_field
           contact_id ghl_sf_customer_id_field (str (SFCustomer.id customer));;
         mret (Some contact_id)
     | None =>
         first_name ← lift (SFCustomer.first_name customer);
         last_name ← lift (SFCustomer.last_name customer);
         contact ← ghl_client.upsert_contact
                     ([ ("firstName", GHL.PStr first_name);
                        ("lastName", GHL.PStr last_name);
                        ("source", GHL.PStr "Service Fusion") ]
                      ++ (if truthy (SFCustomer.phone customer)
                          then [("phone", main.opt_pv (SFCustomer.phone customer))] else [])
                      ++ (if truthy (SFCustomer.email customer)
                          then [("email", main.opt_pv (SFCustomer.email customer))] else []))%list;
         mret (GHL.id contact)
     end) w.
Proof.
  unfold main.find_or_create_contact, contact_searches. rewrite !bind_unfold.
  destruct (match SFCustomer.phone customer with _ => _ end w) as [[by_phone|e] w1];
    reflexivity.
Qed.

(** When the contact step succeeds it has issued its searches and then
    exactly one mutating call: the link-field update of the contact it found,
    or the upsert that created the contact. *)
Lemma find_or_create_contact_mutation (customer : SFCustomer.t) (contact_id : string)
    (w w' : World S) :
  main.find_or_create_contact customer w = (Ok (Some contact_id), w') ->
  exists (cs : list GHL.Call) (m : GHL.Call),
    calls w' = (calls w ++ cs ++ [m])%list
    /\ Forall read_only cs
    /\ (m = GHL.UpdateContactCustomField contact_id ghl_sf_customer_id_field
              (str (SFCustomer.id customer))
        \/ exists contact_data, m = GHL.UpsertContact contact_data).
Proof.
  rewrite find_or_create_contact_unfold. rewrite bind_unfold.
  destruct (contact_searches customer w) as [[ghl_contact|e] w1] eqn:Hsearch; [|discriminate].
  destruct (issues_contact_searches customer _ _ _ Hsearch) as (cs & Hcs & Hro).
  destruct ghl_contact as [contact|].
  - rewrite bind_unfold. destruct (GHL.contact_id contact) as [cid|]; [|discriminate].
    cbn [main.item_id mret M_ret]. rewrite bind_unfold.
    unfold ghl_client.update_contact_custom_field. rewrite request_run.
    destruct (GHL.put_contact cid _ _ (target w1)) as [[[]|e] s2]; [|discriminate].
    cbn [fst snd]. intros [= <- <-]. eexists cs, _. cbn [calls].
    split; [rewrite Hcs, <- app_assoc; reflexivity|]. split; [exact Hro|]. left. reflexivity.
  - rewrite bind_unfold. unfold lift at 1.
    destruct (SFCustomer.first_name customer) as [first|e]; [|discriminate].
    rewrite bind_unfold. unfold lift at 1.
    destruct (SFCustomer.last_name customer) as [last|e]; [|discriminate].
    rewrite bind_unfold. unfold ghl_client.upsert_contact. rewrite request_run.
    destruct (GHL.post_contacts_upsert _ (target w1)) as [[contact|e] s2]; [|discriminate].
    cbn [fst snd mret M_ret]. intros [= Hid <-]. eexists cs, _. cbn [calls].
    split; [rewrite Hcs, <- app_assoc; reflexivity|]. split; [exact Hro|]. right. eauto.
Qed.

(** The contact step only touches contacts. *)
Lemma find_or_create_contact_calls (customer : SFCustomer.t) (contact_id : string)
    (w w' : World S) :
  main.find_or_create_contact customer w = (Ok (Some contact_id), w') ->
  exists cs, calls w' = (calls w ++ cs)%list /\ Forall not_on_opportunity cs.
Proof.
  intros Hrun. destruct (find_or_create_contact_mutation _ _ _ _ Hrun) as (cs & m & Hc & Hro & Hm).
  exists (cs ++ [m])%list. split; [exact Hc|]. apply Forall_app.
  split; [now apply read_only_not_on_opportunity|].
  constructor; [|constructor]. destruct Hm as [-> | [d ->]]; reflexivity.
Qed.

(** C2 (amended).  Let J be a freshly created job (created_at = updated_at)
    whose status maps to a non-empty stage and whose customer has a phone or an
    email; let E be the first estimate of the 2-hour-lookback listing that has
    J's customer, status "Estimate Won" and J's updated_at string, with a
    non-zero id; and let the contact step resolve a contact under which the
    opportunity search finds an opportunity tagged with E's id.  Then syncing J
    issues [update_opportunity_custom_field] on that opportunity, setting
    crm_job_id to J's id, and issues no [create_opportunity]. *)
Theorem C2_conversion_repoints_opportunity
    (job : SFJob.t) (estimate : SFEstimate.t) (customer : SFCustomer.t)
    (stage contact_id opportunity_id : string) (opp : GHL.OpportunityDict)
    (ts : datetime) (estimates : list SFEstimate.t) (w0 w1 w2 w3 : World S) :
  sf_to_ghl_stage_map _ !! SFJob.status job = Some stage ->
  stage <> "" ->
  not_fresh job = false ->
  SFJob.updated_at_datetime job = Ok ts ->
  sf_client.get_updated_estimates (sub_timedelta ts (timedelta_hours 2)) 50 w0
    = (Ok estimates, w1) ->
  List.find (main.is_conversion_of job) estimates = Some estimate ->
  SFEstimate.id estimate <> 0 ->
  sf_client.customer_by_id (SFJob.customer_id job) = Ok (Some customer) ->
  main.no_contact_info customer = false ->
  main.find_or_create_contact customer w1 = (Ok (Some contact_id), w2) ->
  contact_id <> "" ->
  ghl_client.search_opportunity_by_job_id (SFEstimate.id estimate) contact_id w2
    = (Ok (Some opp), w3) ->
  GHL.opportunity_id opp = Some opportunity_id ->
  exists (r : Result unit) (w' : World S) (new : list GHL.Call),
    main.sync_work_order_to_ghl (Job job) "Job" w0 = (r, w')
    /\ calls w' = (calls w0 ++ new)%list
    /\ In (GHL.UpdateOpportunityCustomField opportunity_id "crm_job_id" (str (SFJob.id job))) new
    /\ Forall not_create new.
Proof.
  intros Hstage Hne Hfresh Hts Hlist Hfind Hid Hcust Hinfo Hcontact Hcid Hsearch Hoid.
  (* the calls up to the retag *)
  assert (Hc1 : calls w1 = calls w0).
  { apply extends_nothing.
    eapply (issues_get_updated_estimates (fun _ => False)); eauto. }
  destruct (find_or_create_contact_calls customer _ _ _ Hcontact) as (cs & Hc2 & Hcs).
  pose proof (search_opportunity_calls _ _ _ _ _ Hsearch) as Hc3.
  set (retag := GHL.UpdateOpportunityCustomField opportunity_id "crm_job_id" (str (SFJob.id job))).
  set (search := GHL.SearchOpportunityByJobId (SFEstimate.id estimate) contact_id).
  assert (Hcs' : Forall not_create cs).
  { eapply Forall_impl; [exact Hcs|]. intros [] Hc; try reflexivity; discriminate Hc. }
  assert (Hdone : forall (w' : World S) (tail : list GHL.Call),
             calls w' = (calls w3 ++ retag :: tail)%list -> Forall not_create tail ->
             exists new, calls w' = (calls w0 ++ new)%list /\ In retag new
                         /\ Forall not_create new).
  { intros w' tail Hcalls Htail. exists (cs ++ search :: retag :: tail)%list.
    split; [rewrite Hcalls, Hc3, Hc2, Hc1, <- !app_assoc; reflexivity|]. split.
    - apply in_or_app. right. simpl. auto.
    - apply Forall_app. split; [exact Hcs'|]. repeat constructor. exact Htail. }
  (* run the function up to the retag *)
  unfold main.sync_work_order_to_ghl.
  rewrite bind_unfold.
  rewrite (find_converted_fresh job ts w0 Hfresh (fresh_parse job ts Hfresh Hts)).
  rewrite Hlist, Hfind. cbn [fmap option_fmap option_map].
  rewrite (sync_mapped_unfold _ (Job job) "Job" stage customer w1 Hstage Hne Hcust Hinfo).
  unfold try_except. rewrite bind_unfold. rewrite Hcontact.
  destruct (String.eqb_spec contact_id ""); [contradiction|].
  rewrite bind_unfold. unfold main.find_opportunity. rewrite bind_unfold.
  destruct (Z.eqb_spec (SFEstimate.id estimate) 0); [contradiction|].
  rewrite bind_unfold. rewrite Hsearch. rewrite bind_unfold. rewrite Hoid.
  cbn [main.item_id]. unfold mret at 1, M_ret at 1. rewrite bind_unfold.
  unfold ghl_client.update_opportunity_custom_field, ghl_client.request at 1.
  cbn [WO.id].
  destruct (GHL.put_opportunity_custom_field opportunity_id "crm_job_id"
              (str (SFJob.id job)) (target w3)) as [[[]|e] s4].
  - (* the retag succeeded: the stage is compared *)
    cbn [mret M_ret]. unfold main.create_or_update_opportunity.
    destruct (bool_decide (GHL.pipelineStageId opp = Some stage)).
    + eexists _, _. edestruct Hdone with (tail := @nil GHL.Call) as (new & Hnew);
        [| |exists new; split; [reflexivity|exact Hnew]]; [reflexivity|constructor].
    + rewrite bind_unfold. rewrite Hoid. cbn [main.item_id]. unfold mret at 1, M_ret at 1.
      unfold ghl_client.update_opportunity, ghl_client.request.
      cbn [target calls slack state_file clock].
      destruct (GHL.put_opportunity opportunity_id _ s4) as [[[]|e] s5].
      * eexists _, _.
        edestruct Hdone as (new & Hnew);
          [| |exists new; split; [reflexivity|exact Hnew]];
          [simpl calls; rewrite <- app_assoc; reflexivity|repeat constructor].
      * unfold main.wrap_sync_error. destruct (is_JobSyncError e); eexists _, _;
          (edestruct Hdone as (new & Hnew);
           [| |exists new; split; [reflexivity|exact Hnew]];
           [simpl calls; rewrite <- app_assoc; reflexivity|repeat constructor]).
  - (* the retag request failed: the call was issued, the sync raises *)
    unfold main.wrap_sync_error. destruct (is_JobSyncError e); eexists _, _;
      (edestruct Hdone with (tail := @nil GHL.Call) as (new & Hnew);
       [| |exists new; split; [reflexivity|exact Hnew]]; [reflexivity|constructor]).
Qed.

(** C3 (amended).  Take an invocation of the matcher in which the status is
    mapped, the customer has contact details, the contact step resolves a
    contact, no opportunity is found under a converted estimate's id, and the
    opportunity found under the work order's own id already carries the mapped
    stage: the situation a completed first invocation leaves behind.  Then the
    invocation succeeds and issues no opportunity create, update or field
    update.  It is not free of mutating Target calls: it issues exactly one,
    the contact step's link-field update of the contact it found (or the
    upsert of the contact, when the searches found none). *)
Theorem C3_repeat_sync_mutates_contact_only
    (work_order : WorkOrder) (work_type stage contact_id opportunity_id : string)
    (customer : SFCustomer.t) (found : option Z) (opp : GHL.OpportunityDict)
    (w0 w1 w2 w3 w4 : World S) :
  conversion_check work_order w0 = (Ok found, w1) ->
  sf_to_ghl_stage_map _ !! WO.status work_order = Some stage ->
  stage <> "" ->
  sf_client.customer_by_id (WO.customer_id work_order) = Ok (Some customer) ->
  main.no_contact_info customer = false ->
  main.find_or_create_contact customer w1 = (Ok (Some contact_id), w2) ->
  contact_id <> "" ->
  no_estimate_opportunity found contact_id w2 w3 ->
  ghl_client.search_opportunity_by_job_id (WO.id work_order) contact_id w3
    = (Ok (Some opp), w4) ->
  GHL.opportunity_id opp = Some opportunity_id ->
  GHL.pipelineStageId opp = Some stage ->
  main.sync_work_order_to_ghl work_order work_type w0 = (Ok tt, w4)
  /\ exists (new : list GHL.Call) (m : GHL.Call),
       calls w4 = (calls w0 ++ new)%list
       /\ Forall not_on_opportunity new
       /\ List.filter GHL.mutating new = [m]
       /\ (m = GHL.UpdateContactCustomField contact_id ghl_sf_customer_id_field
                 (str (SFCustomer.id customer))
           \/ exists contact_data, m = GHL.UpsertContact contact_data).
Proof.
  intros Hconv Hstage Hne Hcust Hinfo Hcontact Hcid Hest Hsearch Hid Hsame.
  assert (Hlookup :
            (opportunity ← ghl_client.search_opportunity_by_job_id (WO.id work_order) contact_id;
             match opportunity with
             | Some opp => main.item_id (GHL.opportunity_id opp);; mret (Some opp)
             | None => mret None
             end) w3 = (Ok (Some opp), w4)).
  { rewrite (bind_ok _ _ _ _ _ Hsearch). rewrite Hid. reflexivity. }
  split.
  - unfold main.sync_work_order_to_ghl. fold (conversion_check (S:=S) work_order).
    rewrite (bind_ok _ _ _ _ _ Hconv).
    rewrite (sync_mapped_unfold _ work_order work_type stage customer w1 Hstage Hne Hcust Hinfo).
    unfold try_except. rewrite (bind_ok _ _ _ _ _ Hcontact).
    destruct (String.eqb_spec contact_id ""); [contradiction|].
    assert (Hopp : main.find_opportunity found work_order contact_id w2 = (Ok (Some opp), w4)).
    { unfold main.find_opportunity. rewrite bind_unfold. unfold no_estimate_opportunity in Hest.
      destruct found as [estimate_id|].
      - destruct (estimate_id =? 0).
        + subst w3. cbn [mret M_ret]. exact Hlookup.
        + rewrite (bind_ok _ _ _ _ _ Hest). cbn [mret M_ret]. exact Hlookup.
      - subst w3. cbn [mret M_ret]. exact Hlookup. }
    rewrite (bind_ok _ _ _ _ _ Hopp). unfold main.create_or_update_opportunity.
    rewrite Hsame. rewrite bool_decide_eq_true_2 by reflexivity. reflexivity.
  - assert (Hc1 : calls w1 = calls w0).
    { destruct work_order as [job|estimate]; simpl in Hconv.
      - apply extends_nothing. eapply (issues_find_converted (fun _ => False)); eauto.
      - injection Hconv as _ <-. reflexivity. }
    destruct (find_or_create_contact_mutation customer contact_id w1 w2 Hcontact)
      as (cs & m & Hc2 & Hro & Hm).
    assert (Hc3 : exists lookups, calls w3 = (calls w2 ++ lookups)%list
                                  /\ Forall read_only lookups).
    { unfold no_estimate_opportunity in Hest. destruct found as [estimate_id|].
      - destruct (estimate_id =? 0).
        + subst w3. exists []. split; [now rewrite app_nil_r|constructor].
        + apply search_opportunity_calls in Hest. eexists. split; [exact Hest|].
          repeat constructor.
      - subst w3. exists []. split; [now rewrite app_nil_r|constructor]. }
    destruct Hc3 as (lookups & Hc3 & Hlook).
    apply search_opportunity_calls in Hsearch.
    exists (cs ++ [m] ++ lookups
            ++ [GHL.SearchOpportunityByJobId (WO.id work_order) contact_id])%list, m.
    split; [rewrite Hsearch, Hc3, Hc2, Hc1, <- !app_assoc; reflexivity|].
    assert (Hm_mut : GHL.mutating m = true /\ not_on_opportunity m).
    { destruct Hm as [-> | [d ->]]; split; reflexivity. }
    destruct Hm_mut as [Hmut Hnot]. split; [|split; [|exact Hm]].
    + apply Forall_app. split; [now apply read_only_not_on_opportunity|].
      constructor; [exact Hnot|]. apply Forall_app. split.
      * now apply read_only_not_on_opportunity.
      * repeat constructor.
    + rewrite !List.filter_app. rewrite (read_only_filter cs Hro).
      rewrite (read_only_filter lookups Hlook). simpl. rewrite Hmut. reflexivity.
Qed.

End MatcherFacts.

(** The skipped customer and a job of theirs, on the reference Target. *)
Lemma C7_witness :
  @main.handle_sf_customer_update Fixture.deployment _ MemTarget.server
     Fixture.nobody Fixture.start = (Ok tt, Fixture.start)
  /\ exists w',
       Fixture.sync Fixture.crm (Job Fixture.orphan) "Job" Fixture.start = (Ok tt, w')
       /\ calls w' = calls Fixture.start.
Proof.
  destruct (@C7_no_contact_info_is_a_skip basic_runtime Fixture.deployment Fixture.crm _
              MemTarget.server Fixture.nobody eq_refl) as [Hcustomer Horder].
  split; [apply Hcustomer|].
  destruct (Horder (Job Fixture.orphan) "Job" Fixture.start eq_refl) as (_ & _ & Hlisted).
  destruct (Hlisted (naive (ymd_hms 2024 3 2 13 0 0)) eq_refl) as (w' & Hsync & Hcalls & _).
  exists w'. split; [exact Hsync|exact Hcalls].
Defined.

(** The first sync of the won estimate creates the contact and the
    opportunity. *)
Example first_sync_creates :
  Fixture.sync Fixture.crm (Estimate Fixture.won) "Estimate" Fixture.start
  = (Ok tt, Fixture.after_estimate)
  /\ List.filter GHL.mutating (calls Fixture.after_estimate)
     = [ GHL.UpsertContact [ ("firstName", GHL.PStr "Ada"); ("lastName", GHL.PStr "Lovelace");
                             ("source", GHL.PStr "Service Fusion");
                             ("phone", GHL.PStr "3035551234") ];
         GHL.CreateOpportunity
           [ ("contactId", GHL.PStr "contact-0"); ("pipelineId", GHL.PStr "pipeline-1");
             ("pipelineStageId", GHL.PStr "stage-estimate-stop");
             ("name", GHL.PStr "SF-7: Estimate #E-7"); ("status", GHL.PStr "open");
             ("customFields", GHL.PCustomFields [("field-crm-job-id", "7")]) ] ].
Proof. split; reflexivity. Qed.

(** C2, as stated, fails.  The won estimate 7 has the job's customer and
    timestamp and is returned by the lookback listing, and its opportunity
    exists under the contact the sync resolves; but a second estimate with the
    same customer, status and timestamp is listed before it.  The loop returns
    the first match, no opportunity carries that id, and the sync creates a new
    opportunity for the job instead of re-tagging the one of estimate 7. *)
Lemma C2_counterexample :
  Fixture.lookback Fixture.crm_twins Fixture.after_estimate
  = (Ok [Fixture.won_twin; Fixture.won], Fixture.after_estimate)
  /\ main.is_conversion_of Fixture.converted Fixture.won = true
  /\ (@ghl_client.search_opportunity_by_job_id Fixture.deployment _ MemTarget.server
        7 "contact-0" Fixture.after_estimate).1
     = Ok (Some Fixture.opp0)
  /\ (Fixture.sync Fixture.crm_twins (Job Fixture.converted) "Job" Fixture.after_estimate).1
     = Ok tt
  /\ calls (Fixture.sync Fixture.crm_twins (Job Fixture.converted) "Job"
                         Fixture.after_estimate).2
     = (calls Fixture.after_estimate
        ++ [ GHL.SearchContactByPhone "3035551234";
             GHL.UpdateContactCustomField "contact-0" "field-sf-customer-id" "5";
             GHL.SearchOpportunityByJobId 6 "contact-0";
             GHL.SearchOpportunityByJobId 9 "contact-0";
             GHL.CreateOpportunity
               [ ("contactId", GHL.PStr "contact-0"); ("pipelineId", GHL.PStr "pipeline-1");
                 ("pipelineStageId", GHL.PStr "stage-job-scheduled");
                 ("name", GHL.PStr "SF-9: Job #J-9"); ("status", GHL.PStr "open");
                 ("customFields", GHL.PCustomFields [("field-crm-job-id", "9")]) ] ])%list.
Proof. repeat split; reflexivity. Qed.

(** A converted job whose status the table does not map ("Invoiced") is
    skipped before any Target call: the estimate's opportunity keeps its tag. *)
Example unmapped_conversion_is_skipped :
  Fixture.lookback Fixture.crm Fixture.after_estimate
  = (Ok [Fixture.won], Fixture.after_estimate)
  /\ main.is_conversion_of Fixture.invoiced Fixture.won = true
  /\ Fixture.sync Fixture.crm (Job Fixture.invoiced) "Job" Fixture.after_estimate
     = (Ok tt, Fixture.after_estimate).
Proof. repeat split; reflexivity. Qed.

(** With a mapped status the same job re-points the estimate's opportunity. *)
Lemma C2_witness :
  exists r w' new,
    Fixture.sync Fixture.crm (Job Fixture.converted) "Job" Fixture.after_estimate = (r, w')
    /\ calls w' = (calls Fixture.after_estimate ++ new)%list
    /\ In (GHL.UpdateOpportunityCustomField "opp-0" "crm_job_id" "9") new
    /\ Forall not_create new.
Proof.
  refine (@C2_conversion_repoints_opportunity basic_runtime Fixture.deployment Fixture.crm _
            MemTarget.server Fixture.converted Fixture.won Fixture.ada
            "stage-job-scheduled" "contact-0" "opp-0" Fixture.opp0
            (naive (ymd_hms 2024 3 2 13 0 0)) [Fixture.won]
            Fixture.after_estimate Fixture.after_estimate _ _
            eq_refl _ eq_refl eq_refl eq_refl eq_refl _ eq_refl eq_refl eq_refl _
            eq_refl eq_refl);
    discriminate.
Defined.

(** After the conversion the store still holds one opportunity, now tagged
    with the job's id and moved to the job's stage. *)
Example conversion_keeps_one_opportunity :
  MemTarget.opportunities
    (target (Fixture.sync Fixture.crm (Job Fixture.converted) "Job" Fixture.after_estimate).2)
  = [ {| MemTarget.o_id := "opp-0"; MemTarget.o_contact := "contact-0";
         MemTarget.o_name := "SF-7: Estimate #E-7";
         MemTarget.o_stage := "stage-job-scheduled";
         MemTarget.o_fields := [("field-crm-job-id", "9")] |} ].
Proof. reflexivity. Qed.

(** C3, as stated, fails: the second of two invocations in a row rewrites the
    contact's link field, a mutating Target call. *)
Lemma C3_counterexample :
  (Fixture.sync Fixture.crm (Estimate Fixture.won) "Estimate" Fixture.start).1 = Ok tt
  /\ (Fixture.sync Fixture.crm (Estimate Fixture.won) "Estimate" Fixture.after_estimate).1
     = Ok tt
  /\ calls (Fixture.sync Fixture.crm (Estimate Fixture.won) "Estimate" Fixture.after_estimate).2
     = (calls Fixture.after_estimate
        ++ [ GHL.SearchContactByPhone "3035551234";
             GHL.UpdateContactCustomField "contact-0" "field-sf-customer-id" "5";
             GHL.SearchOpportunityByJobId 7 "contact-0" ])%list
  /\ GHL.mutating (GHL.UpdateContactCustomField "contact-0" "field-sf-customer-id" "5") = true.
Proof. repeat split; reflexivity. Qed.

(** The second invocation on the reference Target: one mutating call, on the
    contact, and none on the opportunity. *)
Lemma C3_witness :
  Fixture.sync Fixture.crm (Estimate Fixture.won) "Estimate" Fixture.after_estimate
  = (Ok tt, (Fixture.sync Fixture.crm (Estimate Fixture.won) "Estimate" Fixture.after_estimate).2)
  /\ exists new m,
       calls (Fixture.sync Fixture.crm (Estimate Fixture.won) "Estimate" Fixture.after_estimate).2
       = (calls Fixture.after_estimate ++ new)%list
       /\ Forall not_on_opportunity new
       /\ List.filter GHL.mutating new = [m]
       /\ (m = GHL.UpdateContactCustomField "contact-0" "field-sf-customer-id" "5"
           \/ exists contact_data, m = GHL.UpsertContact contact_data).
Proof.
  refine (@C3_repeat_sync_mutates_contact_only basic_runtime Fixture.deployment Fixture.crm _
            MemTarget.server (Estimate Fixture.won) "Estimate" "stage-estimate-stop" "contact-0"
            "opp-0" Fixture.ada None _ Fixture.after_estimate Fixture.after_estimate _ _ _
            eq_refl eq_refl _ eq_refl eq_refl eq_refl _ eq_refl eq_refl eq_refl eq_refl);
    discriminate.
Defined.

(** ** Frames: what a computation leaves alone *)

Section FrameFacts.
Context {S X : Type}.
Variable f : World S -> X.

Lemma preserves_ret {A} (a : A) : preserves f (mret a : M S A).
Proof. intros w r w' [= _ <-]. reflexivity. Qed.

Lemma preserves_raise {A} e : preserves f (raise e : M S A).
Proof. intros w r w' [= _ <-]. reflexivity. Qed.

Lemma preserves_lift {A} (x : Result A) : preserves f (lift x : M S A).
Proof. intros w r w' [= _ <-]. reflexivity. Qed.

Lemma preserves_utcnow : preserves f (utcnow : M S datetime).
Proof. intros w r w' [= _ <-]. reflexivity. Qed.

Lemma preserves_bind {A B} (m : M S A) (k : A -> M S B) :
  preserves f m -> (forall a, preserves f (k a)) -> preserves f (m ≫= k).
Proof.
  intros Hm Hk w r w'. rewrite bind_unfold.
  destruct (m w) as [[a|e] w1] eqn:Hrun.
  - intros Hrest. rewrite (Hk a _ _ _ Hrest). exact (Hm _ _ _ Hrun).
  - intros [= _ <-]. exact (Hm _ _ _ Hrun).
Qed.

Lemma preserves_try_except {A} (body : M S A) handler :
  preserves f body ->
  (forall e h, handler e = Some h -> preserves f h) ->
  preserves f (try_except body handler).
Proof.
  intros Hb Hh w r w'. unfold try_except.
  destruct (body w) as [[a|e] w1] eqn:Hrun.
  - intros [= _ <-]. exact (Hb _ _ _ Hrun).
  - destruct (handler e) as [h|] eqn:Hhe.
    + intros Hrest. rewrite (Hh e h Hhe _ _ _ Hrest). exact (Hb _ _ _ Hrun).
    + intros [= _ <-]. exact (Hb _ _ _ Hrun).
Qed.

Lemma preserves_send_error error fname sev context :
  ignores_slack f -> preserves f (slack_notifier.send_error error fname sev context : M S unit).
Proof. intros Hf w r w' [= _ <-]. apply Hf. Qed.

End FrameFacts.

Section RequestFrame.
Context `{Settings} {S X : Type} `{GHL.Server S}.
Variable f : World S -> X.

Lemma preserves_request {A} call (op : S -> Result A * S) :
  ignores_target f -> preserves f (ghl_client.request call op).
Proof.
  intros Hf w r w'. rewrite request_run. intros [= _ <-]. apply Hf.
Qed.

End RequestFrame.

Ltac frame_step :=
  first
    [ apply preserves_ret | apply preserves_raise | apply preserves_lift
    | apply preserves_utcnow
    | apply preserves_send_error; assumption
    | apply preserves_request; assumption
    | apply preserves_bind; [|intros ?]
    | match goal with
      | |- preserves _ (match ?x with _ => _ end) => destruct x
      | |- preserves _ (if ?x then _ else _) => destruct x
      end ].

Ltac frame := repeat frame_step.

Section ListerFrame.
Context {S R X : Type}.
Variable updated_at_datetime : R -> Result datetime.
Variable bad_entry : R -> exn -> nat -> Result (list (string * atom)).
Variable function_name kind : string.
Variable f : World S -> X.
Hypothesis f_slack : ignores_slack f.

Lemma preserves_flush_bad bad : preserves f (sf_client.flush_bad (S:=S) function_name kind bad).
Proof. unfold sf_client.flush_bad, sf_client.notify_bad. frame. Qed.

Lemma preserves_finish max_results (updated : list R) bad :
  preserves f (sf_client.finish (S:=S) function_name kind max_results updated bad).
Proof. unfold sf_client.finish. apply preserves_bind; [apply preserves_flush_bad|]. intros; frame. Qed.

Lemma preserves_scan_pages since max_results feed page updated bad :
  preserves f (sf_client.scan_pages (S:=S) updated_at_datetime bad_entry function_name kind
                                    since max_results feed page updated bad).
Proof.
  revert page updated bad. induction feed as [|response later IH]; intros page updated bad; simpl.
  - destruct (_ <? _); apply preserves_finish.
  - destruct (_ <? _); [|apply preserves_finish].
    destruct response as [[|record items]|e]; [apply preserves_finish| |apply preserves_raise].
    destruct (sf_client.scan_items _ _ since (record :: items) page updated bad)
      as [updated' bad'|updated' bad'|e].
    + apply preserves_bind; [apply preserves_flush_bad|intros; apply preserves_ret].
    + destruct (Nat.ltb _ _); [apply preserves_finish|apply IH].
    + apply preserves_raise.
Qed.

Lemma preserves_get_updated feed since max_results :
  preserves f (sf_client.get_updated (S:=S) updated_at_datetime bad_entry function_name kind
                                     feed since max_results).
Proof. apply preserves_scan_pages. Qed.

End ListerFrame.

Section CursorFrame.
Context `{Runtime} {S X : Type}.
Variable f : World S -> X.
Hypothesis f_slack : ignores_slack f.

Lemma preserves_fallback : preserves f (state_manager.fallback (S:=S)).
Proof. unfold state_manager.fallback. frame. Qed.

Lemma preserves_read_cursor key : preserves f (state_manager.read_cursor (S:=S) key).
Proof.
  intros w r w'. unfold state_manager.read_cursor.
  destruct (state_file w) as [| | | |data]; simpl;
    try (intros [= _ <-]; reflexivity); try apply preserves_fallback.
  destruct (data !! key) as [v|]; [|apply preserves_fallback].
  destruct (state_manager.falsy v); [apply preserves_fallback|].
  destruct v; intros [= _ <-]; reflexivity.
Qed.

Lemma preserves_get_last_poll_time kind : preserves f (get_last_poll_time (S:=S) kind).
Proof.
  destruct kind; apply preserves_try_except; try apply preserves_read_cursor;
    intros e h Hh; destruct e; simpl in Hh; try discriminate Hh;
    injection Hh as <-; (apply preserves_bind; [apply preserves_send_error; assumption|]);
    intros; apply preserves_fallback.
Qed.

End CursorFrame.

Section SyncFrame.
Context `{Runtime} `{Settings} `{sf_client.Source} {S X : Type} `{GHL.Server S}.
Variable f : World S -> X.
Hypothesis f_slack : ignores_slack f.
Hypothesis f_target : ignores_target f.

Lemma preserves_find_converted job :
  preserves f (main.find_converted_estimate_for_job (S:=S) job).
Proof.
  unfold main.find_converted_estimate_for_job.
  destruct (_ || _); [apply preserves_ret|].
  apply preserves_bind; [apply preserves_lift|]. intros [ts|]; [|apply preserves_ret].
  apply preserves_try_except.
  - apply preserves_bind; [apply preserves_get_updated; assumption|intros; apply preserves_ret].
  - intros e h [= <-]. apply preserves_ret.
Qed.

Lemma preserves_search_opportunity id contact_id :
  preserves f (ghl_client.search_opportunity_by_job_id id contact_id).
Proof. unfold ghl_client.search_opportunity_by_job_id. frame. Qed.

Lemma preserves_find_or_create_contact customer :
  preserves f (main.find_or_create_contact customer).
Proof.
  unfold main.find_or_create_contact, ghl_client.search_contact_by_phone,
         ghl_client.search_contact_by_email, ghl_client.update_contact_custom_field,
         ghl_client.upsert_contact, main.item_id.
  frame.
Qed.

Lemma preserves_find_opportunity found work_order contact_id :
  preserves f (main.find_opportunity found work_order contact_id).
Proof.
  unfold main.find_opportunity, ghl_client.update_opportunity_custom_field, main.item_id.
  apply preserves_bind.
  - destruct found as [estimate_id|]; [|apply preserves_ret].
    destruct (estimate_id =? 0); [apply preserves_ret|].
    apply preserves_bind; [apply preserves_search_opportunity|]. intros [opp|]; frame.
  - intros [opp|]; [apply preserves_ret|].
    apply preserves_bind; [apply preserves_search_opportunity|]. intros [opp|]; frame.
Qed.

Lemma preserves_create_or_update opportunity work_order work_type contact_id stage :
  preserves f (main.create_or_update_opportunity opportunity work_order work_type
                                                 contact_id stage).
Proof.
  unfold main.create_or_update_opportunity, ghl_client.create_opportunity,
         ghl_client.update_opportunity, main.item_id.
  frame.
Qed.

Lemma preserves_sync_mapped found work_order work_type :
  preserves f (main.sync_mapped found work_order work_type).
Proof.
  unfold main.sync_mapped.
  destruct (sf_to_ghl_stage_map _ !! WO.status work_order) as [stage|]; [|apply preserves_ret].
  destruct (String.eqb stage ""); [apply preserves_ret|].
  apply preserves_try_except.
  - unfold main.sync_steps, sf_client.get_customer_by_id.
    apply preserves_bind; [apply preserves_lift|]. intros [customer|]; [|apply preserves_raise].
    destruct (main.no_contact_info customer); [apply preserves_send_error; assumption|].
    apply preserves_bind; [apply preserves_find_or_create_contact|].
    intros [contact_id|]; [|apply preserves_raise].
    destruct (String.eqb contact_id ""); [apply preserves_raise|].
    apply preserves_bind; [apply preserves_find_opportunity|].
    intros; apply preserves_create_or_update.
  - intros e h Hh. unfold main.wrap_sync_error in Hh.
    destruct (is_JobSyncError e); [discriminate|]. injection Hh as <-. apply preserves_raise.
Qed.

Lemma preserves_sync work_order work_type :
  preserves f (main.sync_work_order_to_ghl work_order work_type).
Proof.
  unfold main.sync_work_order_to_ghl. apply preserves_bind.
  - destruct work_order; [apply preserves_find_converted|apply preserves_ret].
  - intros; apply preserves_sync_mapped.
Qed.

Lemma preserves_handle_customer customer :
  preserves f (main.handle_sf_customer_update customer).
Proof.
  unfold main.handle_sf_customer_update, ghl_client.upsert_contact. frame.
Qed.

Lemma preserves_sync_each {R} (sync : R -> M S unit) entry records sync_errors :
  (forall record, preserves f (sync record)) ->
  preserves f (main.sync_each sync entry records sync_errors).
Proof.
  intros Hsync. revert sync_errors. induction records as [|record rest IH]; intros sync_errors;
    simpl; [apply preserves_ret|].
  apply preserves_bind; [|intros; apply IH].
  apply preserves_try_except.
  - apply preserves_bind; [apply Hsync|intros; apply preserves_ret].
  - intros e h [= <-]. apply preserves_ret.
Qed.

Lemma preserves_notify_failures what fname total errors reported :
  preserves f (main.notify_failures (S:=S) what fname total errors reported).
Proof. unfold main.notify_failures. frame. Qed.

End SyncFrame.

(** ** The cursor store *)

Lemma string_length_append (a b : string) :
  String.length (a +:+ b) = (String.length a + String.length b)%nat.
Proof. induction a as [|c a IH]; simpl; [reflexivity|]. now rewrite IH. Qed.

Lemma isoformat_nonempty (dt : datetime) : isoformat dt <> "".
Proof.
  unfold isoformat. destruct (civil_of_days _) as [[y m] d].
  intros Heq. apply (f_equal String.length) in Heq.
  rewrite string_length_append in Heq. simpl in Heq. lia.
Qed.

Section CursorStore.
Context `{Runtime} {S : Type}.

Lemma save_cursor_run key dt (w : World S) data :
  writable (state_file w) = Some data ->
  state_manager.save_cursor key dt w
  = (Ok tt, with_state_file w (Dict (<[key := JStr (isoformat dt)]> data))).
Proof.
  intros Hw. unfold state_manager.save_cursor.
  destruct (state_file w); simpl in Hw; try discriminate Hw; injection Hw as <-; reflexivity.
Qed.

Lemma save_last_poll_time_cursor kind dt :
  save_last_poll_time (S:=S) kind dt = state_manager.save_cursor (cursor_key kind) dt.
Proof. destruct kind; reflexivity. Qed.

Lemma read_cursor_string key (w : World S) data s :
  state_file w = Dict data -> data !! key = Some (JStr s) -> s <> "" ->
  state_manager.read_cursor key w = (fromisoformat s, w).
Proof.
  intros Hf Hk Hs. unfold state_manager.read_cursor. rewrite Hf. simpl. rewrite Hk. simpl.
  destruct (String.eqb_spec s ""); [contradiction|reflexivity].
Qed.

Lemma get_last_poll_time_read kind (w : World S) dt w' :
  state_manager.read_cursor (cursor_key kind) w = (Ok dt, w') ->
  get_last_poll_time kind w = (Ok dt, w').
Proof. intros Hr. destruct kind; apply try_except_ok; exact Hr. Qed.

(** X1.  Saving a cursor and reading it back.  On a state file that does not
    exist yet or holds a JSON object, saving the cursor of a record kind
    succeeds, writes the ISO text of the timestamp under the kind's key and
    leaves everything else as it was; the next read of that kind returns the
    saved timestamp, provided the runtime parses the ISO text it printed. *)
Theorem cursor_round_trip (kind : RecordKind) (dt : datetime) (w : World S)
    (data : gmap string json) :
  writable (state_file w) = Some data ->
  fromisoformat (isoformat dt) = Ok dt ->
  let w1 := with_state_file w (Dict (<[cursor_key kind := JStr (isoformat dt)]> data)) in
  save_last_poll_time kind dt w = (Ok tt, w1)
  /\ get_last_poll_time kind w1 = (Ok dt, w1).
Proof.
  intros Hw Hparse w1. split.
  - rewrite save_last_poll_time_cursor. apply save_cursor_run. exact Hw.
  - apply get_last_poll_time_read.
    rewrite (read_cursor_string (cursor_key kind) w1 _ (isoformat dt) eq_refl).
    + rewrite Hparse. reflexivity.
    + apply lookup_insert_eq.
    + apply isoformat_nonempty.
Qed.

Lemma cursor_key_inj kind kind' : cursor_key kind = cursor_key kind' -> kind = kind'.
Proof. destruct kind, kind'; simpl; intros Heq; try reflexivity; discriminate Heq. Qed.

(** The read of a cursor never changes the world, and its result depends on
    the clock and on the entry under the key only. *)
Lemma read_cursor_dict key (w : World S) data :
  writable (state_file w) = Some data ->
  state_manager.read_cursor key w
  = match data !! key with
    | None => (Ok (naive (clock w - timedelta_hours 24)), w)
    | Some v =>
        if state_manager.falsy v then (Ok (naive (clock w - timedelta_hours 24)), w)
        else match v with
             | JStr s => (fromisoformat s, w)
             | _ => (Raise TypeError, w)
             end
    end.
Proof.
  intros Hd. unfold state_manager.read_cursor.
  destruct (state_file w) as [| | | |d]; simpl in Hd; try discriminate Hd; injection Hd as <-.
  - rewrite lookup_empty. reflexivity.
  - simpl. destruct (d !! key) as [v|]; [|reflexivity].
    destruct (state_manager.falsy v); [reflexivity|]. destruct v; reflexivity.
Qed.

(** The read of a cursor never changes the world, and its result depends on
    the clock and on the entry under the key only. *)
Lemma read_cursor_entry key (w w' : World S) d d' :
  writable (state_file w) = Some d -> writable (state_file w') = Some d' ->
  d !! key = d' !! key -> clock w = clock w' ->
  exists r, state_manager.read_cursor key w = (r, w)
            /\ state_manager.read_cursor key w' = (r, w').
Proof.
  intros Hd Hd' Hk Hc.
  rewrite (read_cursor_dict key w d Hd), (read_cursor_dict key w' d' Hd'), <- Hk, <- Hc.
  destruct (d !! key) as [v|]; [|eexists; split; reflexivity].
  destruct (state_manager.falsy v); [eexists; split; reflexivity|].
  destruct v; eexists; split; reflexivity.
Qed.

(** X2.  The three cursors are independent: saving the cursor of one record
    kind does not change what the reader of another kind returns. *)
Theorem cursor_independence (kind kind' : RecordKind) (dt : datetime) (w w1 : World S) :
  kind <> kind' ->
  save_last_poll_time kind dt w = (Ok tt, w1) ->
  (get_last_poll_time kind' w1).1 = (get_last_poll_time kind' w).1.
Proof.
  intros Hne. rewrite save_last_poll_time_cursor. intros Hsave.
  assert (Hw : exists data, writable (state_file w) = Some data).
  { unfold state_manager.save_cursor in Hsave.
    destruct (state_file w); simpl in Hsave |- *; try discriminate Hsave; eauto. }
  destruct Hw as (data & Hw). rewrite (save_cursor_run _ _ _ _ Hw) in Hsave.
  injection Hsave as <-.
  destruct (read_cursor_entry (cursor_key kind') w
              (with_state_file w (Dict (<[cursor_key kind := JStr (isoformat dt)]> data)))
              data _ Hw eq_refl) as (r & Hr & Hr'); [|reflexivity|].
  { rewrite lookup_insert_ne; [reflexivity|]. intros Heq. apply Hne.
    now apply cursor_key_inj. }
  destruct kind'; unfold get_last_poll_time, state_manager.get_last_customer_poll_time,
    state_manager.get_last_job_poll_time, state_manager.get_last_estimate_poll_time,
    try_except; simpl cursor_key in Hr, Hr'; rewrite Hr, Hr'; destruct r as [v|e];
    try reflexivity; destruct e; reflexivity.
Qed.

(** X3.  The errors the readers catch.  When the state file cannot be opened,
    is not valid JSON, or holds under the kind's key a text the runtime does
    not parse, the reader returns the time 24 hours before the clock reading
    and reports once, at low severity, under its own name; nothing else
    changes. *)
Theorem cursor_error_fallback (kind : RecordKind) (w : World S) :
  state_file w = Unreadable \/ state_file w = Corrupt
  \/ (exists data s, state_file w = Dict data /\ data !! cursor_key kind = Some (JStr s)
                     /\ s <> "" /\ fromisoformat s = Raise ValueError) ->
  exists n : Notification,
    get_last_poll_time kind w = (Ok (naive (clock w - timedelta_hours 24)), notified w n)
    /\ function_name n = reader_name kind
    /\ severity n = LOW.
Proof.
  intros Hcase.
  assert (Hread : exists e, state_manager.read_cursor (cursor_key kind) w = (Raise e, w)
                            /\ (e = PermissionError \/ e = JSONDecodeError \/ e = ValueError)).
  { destruct Hcase as [Hf|[Hf|(data & s & Hf & Hk & Hs & Hp)]].
    - exists PermissionError. unfold state_manager.read_cursor. rewrite Hf. split; auto.
    - exists JSONDecodeError. unfold state_manager.read_cursor. rewrite Hf. split; auto.
    - exists ValueError. rewrite (read_cursor_string _ _ _ _ Hf Hk Hs), Hp. split; auto. }
  destruct Hread as (e & Hread & He).
  destruct kind; unfold get_last_poll_time, state_manager.get_last_customer_poll_time,
    state_manager.get_last_job_poll_time, state_manager.get_last_estimate_poll_time,
    try_except; simpl cursor_key in Hread; rewrite Hread;
    destruct He as [->|[->| ->]]; eexists; (split; [reflexivity|split; reflexivity]).
Qed.

(** The errors the readers do not catch: a state file holding valid JSON
    that is not an object, and a cursor that is neither empty nor a text. *)
Lemma cursor_uncaught (kind : RecordKind) (w : World S) :
  (state_file w = NotADict -> get_last_poll_time kind w = (Raise AttributeError, w))
  /\ (forall data v,
        state_file w = Dict data -> data !! cursor_key kind = Some v ->
        state_manager.falsy v = false -> (forall s, v <> JStr s) ->
        get_last_poll_time kind w = (Raise TypeError, w)).
Proof.
  split.
  - intros Hf. destruct kind; unfold get_last_poll_time,
      state_manager.get_last_customer_poll_time, state_manager.get_last_job_poll_time,
      state_manager.get_last_estimate_poll_time, try_except, state_manager.read_cursor;
      rewrite Hf; reflexivity.
  - intros data v Hf Hk Hv Hs.
    assert (Hr : state_manager.read_cursor (cursor_key kind) w = (Raise TypeError, w)).
    { unfold state_manager.read_cursor. rewrite Hf. simpl. rewrite Hk, Hv.
      destruct v; try reflexivity. now destruct (Hs s). }
    destruct kind; unfold get_last_poll_time, state_manager.get_last_customer_poll_time,
      state_manager.get_last_job_poll_time, state_manager.get_last_estimate_poll_time,
      try_except; simpl cursor_key in Hr; rewrite Hr; reflexivity.
Qed.

End CursorStore.

(** ** The polling passes *)

Section ListerRaise.
Context {S R : Type}.
Variable updated_at_datetime : R -> Result datetime.
Variable bad_entry : R -> exn -> nat -> Result (list (string * atom)).
Variable function_name kind : string.

Lemma flush_bad_ok bad (w : World S) r w' :
  sf_client.flush_bad function_name kind bad w = (r, w') -> r = Ok tt.
Proof. destruct bad; intros [= <- _]; reflexivity. Qed.

Lemma finish_ok max_results (updated : list R) bad (w : World S) e w' :
  sf_client.finish function_name kind max_results updated bad w = (Raise e, w') -> False.
Proof.
  unfold sf_client.finish. rewrite bind_unfold.
  destruct (sf_client.flush_bad function_name kind bad w) as [[[]|e'] w1] eqn:Hflush.
  - discriminate.
  - apply flush_bad_ok in Hflush. discriminate.
Qed.

(** A lister that raises has changed nothing: the bad records it had
    collected are not reported. *)
Lemma scan_pages_raise since max_results feed page updated bad (w w' : World S) e :
  sf_client.scan_pages updated_at_datetime bad_entry function_name kind
                       since max_results feed page updated bad w = (Raise e, w') ->
  w' = w.
Proof.
  revert page updated bad. induction feed as [|response later IH]; intros page updated bad; simpl.
  - destruct (_ <? _); intros Hf; destruct (finish_ok _ _ _ _ _ _ Hf).
  - destruct (_ <? _); [|intros Hf; destruct (finish_ok _ _ _ _ _ _ Hf)].
    destruct response as [[|record items]|e0];
      [intros Hf; destruct (finish_ok _ _ _ _ _ _ Hf)| |intros [= _ <-]; reflexivity].
    destruct (sf_client.scan_items _ _ since (record :: items) page updated bad)
      as [updated' bad'|updated' bad'|e0].
    + rewrite bind_unfold.
      destruct (sf_client.flush_bad function_name kind bad' w) as [[[]|e'] w1] eqn:Hflush.
      * discriminate.
      * apply flush_bad_ok in Hflush. discriminate.
    + destruct (Nat.ltb _ _); [intros Hf; destruct (finish_ok _ _ _ _ _ _ Hf)|apply IH].
    + intros [= _ <-]. reflexivity.
Qed.

End ListerRaise.

Section PassFacts.
Context `{Runtime} `{Settings} `{sf_client.Source} {S : Type} `{GHL.Server S}.

Lemma safe_scheduled_job_run name (func : M S unit) (w : World S) :
  main.safe_scheduled_job name func w
  = match func w with
    | (Ok _, w1) => (Ok tt, w1)
    | (Raise e, w1) => (Ok tt, notified w1 (fatal_notification name e))
    end.
Proof.
  unfold main.safe_scheduled_job, try_except. destruct (func w) as [[[]|e] w1]; reflexivity.
Qed.

Lemma safe_scheduled_job_returns name (func : M S unit) (w : World S) :
  exists w', main.safe_scheduled_job name func w = (Ok tt, w').
Proof.
  rewrite safe_scheduled_job_run. destruct (func w) as [[[]|e] w1]; eexists; reflexivity.
Qed.

(** X4.  The scheduled callback never raises.  Whatever the Source, the
    Target and the state file do, each pass returns normally, and
    [run_all_syncs] runs the customer pass, then the estimate pass in the
    world the customer pass left, then the job pass, and returns normally. *)
Theorem run_all_syncs_never_raises (w : World S) :
  exists w1 w2 w3 : World S,
    main.check_for_customer_updates w = (Ok tt, w1)
    /\ main.check_for_estimate_updates w1 = (Ok tt, w2)
    /\ main.check_for_job_updates w2 = (Ok tt, w3)
    /\ main.run_all_syncs w = (Ok tt, w3).
Proof.
  destruct (safe_scheduled_job_returns "check_for_customer_updates"
              main.check_for_customer_updates_body w) as (w1 & Hc).
  destruct (safe_scheduled_job_returns "check_for_estimate_updates"
              main.check_for_estimate_updates_body w1) as (w2 & He).
  destruct (safe_scheduled_job_returns "check_for_job_updates"
              main.check_for_job_updates_body w2) as (w3 & Hj).
  exists w1, w2, w3. split; [exact Hc|]. split; [exact He|]. split; [exact Hj|].
  unfold main.run_all_syncs.
  rewrite (bind_ok _ _ _ _ _ (Hc : main.check_for_customer_updates w = _)).
  rewrite (bind_ok _ _ _ _ _ (He : main.check_for_estimate_updates w1 = _)).
  exact Hj.
Qed.

Lemma pass_cursor_fails {R} (read : M S datetime) (rest : datetime -> M S R)
    (k : R -> M S unit) name (w0 w1 : World S) e :
  read w0 = (Raise e, w1) ->
  main.safe_scheduled_job name (last_poll ← read; records ← rest last_poll; k records) w0
  = (Ok tt, notified w1 (fatal_notification name e)).
Proof.
  intros Hread. rewrite safe_scheduled_job_run, bind_unfold, Hread. reflexivity.
Qed.

Lemma pass_listing_fails {R} (read : M S datetime) (listing : datetime -> M S R)
    (k : R -> M S unit) name (w0 w1 w2 : World S) last_poll e :
  read w0 = (Ok last_poll, w1) ->
  listing last_poll w1 = (Raise e, w2) ->
  main.safe_scheduled_job name (last_poll ← read; records ← listing last_poll; k records) w0
  = (Ok tt, notified w2 (fatal_notification name e)).
Proof.
  intros Hread Hlist. rewrite safe_scheduled_job_run, (bind_ok _ _ _ _ _ Hread), bind_unfold,
    Hlist. reflexivity.
Qed.

(** X5.  A state file the readers do not cover.  When the state file holds
    valid JSON that is not an object, or holds under the kind's key a value
    that is neither empty nor a text, the cursor read raises ([AttributeError],
    [TypeError]) instead of falling back; the pass of that kind stops there,
    without a Source or Target request, and ends with the wrapper's report. *)
Theorem unreadable_cursor_aborts_pass (kind : RecordKind) (w : World S) (e : exn) :
  (state_file w = NotADict /\ e = AttributeError)
  \/ (exists data v, state_file w = Dict data /\ data !! cursor_key kind = Some v
                     /\ state_manager.falsy v = false /\ (forall s, v <> JStr s)
                     /\ e = TypeError) ->
  get_last_poll_time kind w = (Raise e, w)
  /\ check_for_updates kind w = (Ok tt, notified w (fatal_notification (pass_name kind) e)).
Proof.
  intros Hcase.
  assert (Hread : get_last_poll_time kind w = (Raise e, w)).
  { destruct (cursor_uncaught kind w) as [Hdict Htype].
    destruct Hcase as [[Hf ->]|(data & v & Hf & Hk & Hv & Hs & ->)]; eauto. }
  split; [exact Hread|].
  destruct kind; apply pass_cursor_fails; exact Hread.
Qed.

(** X6.  A failed listing leaves everything in place.  When the cursor of a
    pass is read and the listing then raises, the lister has changed nothing
    (the bad records it had collected are not reported), the pass has made no
    Target request and has not touched the state file, so the cursor is where
    it was; the pass ends with the wrapper's report of the listing's error. *)
Theorem failed_listing_keeps_cursor (kind : RecordKind) (w0 w1 w2 : World S)
    (last_poll : datetime) (e : exn) :
  get_last_poll_time kind w0 = (Ok last_poll, w1) ->
  listing_raises kind last_poll w1 e w2 ->
  w2 = w1
  /\ check_for_updates kind w0
     = (Ok tt, notified w1 (fatal_notification (pass_name kind) e))
  /\ state_file w1 = state_file w0
  /\ calls w1 = calls w0
  /\ target w1 = target w0.
Proof.
  intros Hread Hlist.
  assert (Hw : w2 = w1).
  { destruct kind; simpl in Hlist; eapply scan_pages_raise; exact Hlist. }
  subst w2. split; [reflexivity|]. split.
  - destruct kind; simpl in Hlist |- *; eapply pass_listing_fails; eauto.
  - split; [|split].
    + apply (preserves_get_last_poll_time state_file (fun _ _ => eq_refl) kind _ _ _ Hread).
    + apply (preserves_get_last_poll_time calls (fun _ _ => eq_refl) kind _ _ _ Hread).
    + apply (preserves_get_last_poll_time target (fun _ _ => eq_refl) kind _ _ _ Hread).
Qed.


(** The job pass up to its bookkeeping: the world in which the cursor is
    saved has the state file and the clock of the start. *)
Lemma job_pass_reaches_bookkeeping (w0 w1 w2 : World S) (last_poll : datetime)
    (jobs : list SFJob.t) (k : list SFJob.t -> M S unit) :
  state_manager.get_last_job_poll_time w0 = (Ok last_poll, w1) ->
  sf_client.get_updated_jobs last_poll 100 w1 = (Ok jobs, w2) ->
  exists wn : World S,
    (last_poll ← state_manager.get_last_job_poll_time;
     jobs ← sf_client.get_updated_jobs last_poll 100;
     sync_errors ← main.sync_each (fun job => main.sync_work_order_to_ghl (Job job) "Job")
                                  main.failed_job jobs [];
     main.notify_failures "jobs" "check_for_job_updates" (List.length jobs) sync_errors
                          (firstn 5 sync_errors);;
     k jobs) w0
    = k jobs wn
    /\ state_file wn = state_file w0
    /\ clock wn = clock w0.
Proof.
  intros Hread Hlist.
  rewrite (bind_ok _ _ _ _ _ Hread), (bind_ok _ _ _ _ _ Hlist).
  destruct (main.sync_each (fun job => main.sync_work_order_to_ghl (Job job) "Job")
              main.failed_job jobs [] w2) as [r3 w3] eqn:Hsync.
  pose proof (sync_each_spec (fun job => main.sync_work_order_to_ghl (Job job) "Job")
                main.failed_job jobs [] w2) as Hspec.
  rewrite Hsync in Hspec. injection Hspec as -> Hw3.
  rewrite (bind_ok _ _ _ _ _ Hsync). rewrite bind_unfold.
  match goal with
  | |- context [main.notify_failures ?a ?b ?c ?d ?e w3] =>
      destruct (notify_failures_slack a b c d e w3) as (wn & Hnotify & _)
  end.
  rewrite Hnotify.
  exists wn. split; [reflexivity|].
  assert (Hframe : forall X (f : World S -> X),
             ignores_slack f -> ignores_target f -> f wn = f w0).
  { intros X f Hs Ht.
    rewrite (preserves_notify_failures f Hs _ _ _ _ _ _ _ _ Hnotify).
    rewrite (preserves_sync_each f _ _ _ _
               (fun job => preserves_sync f Hs Ht (Job job) "Job") _ _ _ Hsync).
    rewrite (preserves_get_updated _ _ _ _ f Hs _ _ _ _ _ _ Hlist).
    exact (preserves_get_last_poll_time f Hs Jobs _ _ _ Hread). }
  split; apply Hframe; intros ? ?; reflexivity.
Qed.


(** X8.  A state file that cannot be read is never repaired.  With a state
    file that cannot be opened or is not valid JSON, a job pass starts from
    the 24-hour fallback; when its listing succeeds it goes through the
    listed jobs and then fails on saving the cursor.  The pass ends with the
    wrapper's report of that error and the state file is as it was, so the
    next pass starts from the fallback again. *)
Theorem broken_state_file_never_advances (w0 w1 w2 : World S) (last_poll : datetime)
    (jobs : list SFJob.t) (e : exn) :
  (state_file w0 = Corrupt /\ e = JSONDecodeError)
  \/ (state_file w0 = Unreadable /\ e = PermissionError) ->
  state_manager.get_last_job_poll_time w0 = (Ok last_poll, w1) ->
  sf_client.get_updated_jobs last_poll 100 w1 = (Ok jobs, w2) ->
  last_poll = naive (clock w0 - timedelta_hours 24)
  /\ exists w3 : World S,
       main.check_for_job_updates w0
       = (Ok tt, notified w3 (fatal_notification "check_for_job_updates" e))
       /\ state_file w3 = state_file w0.
Proof.
  intros Hcase Hread Hlist. split.
  - unfold state_manager.get_last_job_poll_time, try_except, state_manager.read_cursor in Hread.
    destruct Hcase as [[Hf _]|[Hf _]]; rewrite Hf in Hread; now injection Hread as <- _.
  - unfold main.check_for_job_updates. rewrite safe_scheduled_job_run.
    unfold main.check_for_job_updates_body.
    destruct (job_pass_reaches_bookkeeping w0 w1 w2 last_poll jobs
                (fun jobs : list SFJob.t =>
                 now ← utcnow;
                 state_manager.save_last_job_poll_time now;;
                 stats ← state_manager.get_stats;
                 checks ← lift (state_manager.stat_plus stats "total_job_checks" 1);
                 found ← lift (state_manager.stat_plus stats "total_job_updates_found"
                                                       (Z.of_nat (List.length jobs)));
                 state_manager.update_stats
                   [ ("total_job_checks", JInt checks); ("total_job_updates_found", JInt found) ])
                Hread Hlist) as (wn & -> & Hfile & Hclock).
    rewrite (bind_ok _ _ _ _ _ (eq_refl : utcnow wn = (Ok (naive (clock wn)), wn))).
    unfold state_manager.save_last_job_poll_time. rewrite bind_unfold.
    unfold state_manager.save_cursor. rewrite Hfile.
    exists wn. split; [|exact Hfile].
    destruct Hcase as [[-> ->]|[-> ->]]; reflexivity.
Qed.

End PassFacts.

(** ** The listers: notifications, stopping and overshoot *)

Section ListerLaws.
Context {S R : Type}.
Variable updated_at_datetime : R -> Result datetime.
Variable bad_entry : R -> exn -> nat -> Result (list (string * atom)).
Variable function_name kind : string.

Lemma flush_bad_run bad (w : World S) :
  sf_client.flush_bad function_name kind bad w = (Ok tt, w)
  \/ exists n, sf_client.flush_bad function_name kind bad w = (Ok tt, notified w n)
               /\ Eff.function_name n = function_name /\ severity n = LOW.
Proof.
  destruct bad as [|b bad]; [left; reflexivity|]. right. eexists. split; [reflexivity|].
  split; reflexivity.
Qed.

Lemma finish_run max_results (updated : list R) bad (w : World S) r w' :
  sf_client.finish function_name kind max_results updated bad w = (r, w') ->
  r = Ok (sf_client.slice_to max_results updated)
  /\ (w' = w \/ exists n, w' = notified w n
                          /\ Eff.function_name n = function_name /\ severity n = LOW).
Proof.
  unfold sf_client.finish. rewrite bind_unfold.
  destruct (flush_bad_run bad w) as [-> | (n & -> & Hn)]; intros [= <- <-]; split; eauto.
Qed.

(** X9.  What a lister does to the world.  A lister makes no Target request
    and does not touch the state file or the clock.  When it raises it has
    changed nothing at all; when it returns it has sent at most one
    notification, of low severity and under the lister's name. *)
Theorem lister_reports_at_most_once feed since max_results (w w' : World S) r :
  sf_client.get_updated updated_at_datetime bad_entry function_name kind
                        feed since max_results w = (r, w') ->
  w' = w
  \/ exists (n : Notification) (res : list R),
       r = Ok res /\ w' = notified w n
       /\ Eff.function_name n = function_name /\ severity n = LOW.
Proof.
  unfold sf_client.get_updated. generalize 1%nat as page.
  generalize (@nil R) as updated. generalize (@nil (list (string * atom))) as bad.
  induction feed as [|response later IH]; intros bad updated page; simpl.
  - destruct (_ <? _); intros Hf; apply finish_run in Hf as [-> [->|(n & -> & Hfn & Hsev)]];
      [left; reflexivity|right; eexists _, _; repeat split; eassumption
      |left; reflexivity|right; eexists _, _; repeat split; eassumption].
  - assert (Hfin : forall u b,
               sf_client.finish function_name kind max_results u b w = (r, w') ->
               w' = w \/ exists n res, r = Ok res /\ w' = notified w n
                                       /\ Eff.function_name n = function_name
                                       /\ severity n = LOW).
    { intros u b Hf. apply finish_run in Hf as [-> [->|(n & -> & Hfn & Hsev)]];
        [left; reflexivity|right; eexists _, _; repeat split; eassumption]. }
    destruct (_ <? _); [|apply Hfin].
    destruct response as [[|record items]|e]; [apply Hfin| |intros [= _ <-]; left; reflexivity].
    destruct (sf_client.scan_items _ _ since (record :: items) page updated bad)
      as [updated' bad'|updated' bad'|e].
    + rewrite bind_unfold.
      destruct (flush_bad_run bad' w) as [-> | (n & -> & Hfn & Hsev)]; intros [= <- <-];
        [left; reflexivity|right; eexists _, _; repeat split; eassumption].
    + destruct (Nat.ltb _ _); [apply Hfin|apply IH].
    + intros [= _ <-]. left; reflexivity.
Qed.

Lemma scan_items_older since items page updated bad :
  Exists (older updated_at_datetime since) items ->
  forall u b, sf_client.scan_items updated_at_datetime bad_entry since items page updated bad
              <> sf_client.Exhausted u b.
Proof.
  intros Hex. revert updated bad. induction Hex as [record items Hold|record items _ IH];
    intros updated bad u b; simpl.
  - unfold older in Hold. rewrite Hold. discriminate.
  - destruct (record_updated ← updated_at_datetime record; gt record_updated since)
      as [[|]|e]; [apply IH|discriminate|].
    destruct (sf_client.data_quality_error e); [|discriminate].
    destruct (bad_entry record e page); [apply IH|discriminate].
Qed.

(** X10.  Where a lister stops reading.  A page with fewer than 50 records,
    and a page holding a record that is not newer than [since], is the last
    page a lister requests: whatever pages follow it in the feed, the result
    and the world are the same as if the feed ended there. *)
Theorem lister_stops_reading pre items later since max_results (w : World S) :
  (List.length items < sf_client.PER_PAGE)%nat
  \/ Exists (older updated_at_datetime since) items ->
  sf_client.get_updated updated_at_datetime bad_entry function_name kind
                        (pre ++ Ok items :: later) since max_results w
  = sf_client.get_updated updated_at_datetime bad_entry function_name kind
                          (pre ++ [Ok items]) since max_results w.
Proof.
  intros Hstop. unfold sf_client.get_updated. generalize 1%nat as page.
  generalize (@nil R) as updated. generalize (@nil (list (string * atom))) as bad.
  induction pre as [|response pre IH]; intros bad updated page.
  - cbn [app sf_client.scan_pages].
    destruct (_ <? _); [|reflexivity].
    destruct items as [|record items]; [reflexivity|].
    destruct (sf_client.scan_items _ _ since (record :: items) page updated bad)
      as [updated' bad'|updated' bad'|e] eqn:Hscan; try reflexivity.
    destruct Hstop as [Hshort|Hold].
    + apply Nat.ltb_lt in Hshort. rewrite Hshort. reflexivity.
    + destruct (scan_items_older since _ page updated bad Hold _ _ Hscan).
  - cbn [app sf_client.scan_pages].
    destruct (_ <? _); [|reflexivity].
    destruct response as [[|record page_items]|e]; try reflexivity.
    destruct (sf_client.scan_items _ _ since (record :: page_items) page updated bad)
      as [updated' bad'|updated' bad'|e]; try reflexivity.
    destruct (Nat.ltb _ _); [reflexivity|]. apply IH.
Qed.





End ListerLaws.

(** ** The Target client and the matcher, step by step *)

Lemma find_first {A} (f : A -> bool) (l : list A) (x : A) :
  List.find f l = Some x ->
  exists before after, l = (before ++ x :: after)%list /\ f x = true
                       /\ Forall (fun y => f y = false) before.
Proof.
  induction l as [|y l IH]; simpl; [discriminate|].
  destruct (f y) eqn:Hy.
  - intros [= ->]. exists [], l. split; [reflexivity|]. split; [exact Hy|constructor].
  - intros Hfind. destruct (IH Hfind) as (before & after & -> & Hx & Hb).
    exists (y :: before), after. split; [reflexivity|]. split; [exact Hx|].
    constructor; assumption.
Qed.

Lemma find_nothing {A} (f : A -> bool) (l : list A) :
  List.find f l = None -> Forall (fun y => f y = false) l.
Proof.
  induction l as [|y l IH]; simpl; [constructor|].
  destruct (f y) eqn:Hy; [discriminate|]. intros Hfind. constructor; auto.
Qed.

Section ClientLaws.
Context `{Settings} {S : Type} `{GHL.Server S}.

(** X12.  The opportunity search.  [search_opportunity_by_job_id] makes one
    request, the listing of the contact's opportunities, and passes its
    failure on.  Of the listed opportunities it returns the first one that
    carries a custom field whose id is the configured job-id field and whose
    value ([fieldValueString], or [value] when that is missing or empty) is
    the decimal text of the id; it returns nothing exactly when no listed
    opportunity carries such a field. *)
Theorem opportunity_search_returns_first_match (sf_job_id : Z) (contact_id : string)
    (w w' : World S) (r : Result (option GHL.OpportunityDict)) :
  ghl_client.search_opportunity_by_job_id sf_job_id contact_id w = (r, w') ->
  w' = mkWorld (GHL.get_opportunities_search contact_id (target w)).2
               (calls w ++ [GHL.SearchOpportunityByJobId sf_job_id contact_id])%list
               (slack w) (state_file w) (clock w)
  /\ match (GHL.get_opportunities_search contact_id (target w)).1, r with
     | Raise e, r => r = Raise e
     | Ok opportunities, Ok (Some opp) =>
         exists before after,
           opportunities = (before ++ opp :: after)%list
           /\ Forall (fun o => ghl_client.tagged_with sf_job_id o = false) before
           /\ exists field,
                In field (GHL.customFields opp)
                /\ GHL.field_id field = Some ghl_opportunity_crm_job_id_field
                /\ or_else (GHL.fieldValueString field) (GHL.value field)
                   = Some (str sf_job_id)
     | Ok opportunities, Ok None =>
         Forall (fun o => ghl_client.tagged_with sf_job_id o = false) opportunities
     | Ok _, Raise _ => False
     end.
Proof.
  unfold ghl_client.search_opportunity_by_job_id. rewrite bind_unfold, request_run.
  destruct (GHL.get_opportunities_search contact_id (target w)) as [[opps|e] s']; cbn [fst snd].
  - intros [= <- <-]. split; [reflexivity|].
    destruct (List.find _ opps) as [opp|] eqn:Hfind.
    + destruct (find_first _ _ _ Hfind) as (before & after & -> & Htag & Hbefore).
      exists before, after. split; [reflexivity|]. split; [exact Hbefore|].
      unfold ghl_client.tagged_with in Htag. apply existsb_exists in Htag as (field & Hin & Hm).
      exists field. split; [exact Hin|]. unfold ghl_client.field_matches in Hm.
      apply andb_true_iff in Hm as [Hid Hval].
      apply bool_decide_eq_true in Hid, Hval. split; assumption.
    + now apply find_nothing.
  - intros [= <- <-]. split; reflexivity.
Qed.

Lemma payload_get_set_item (d : GHL.payload) k v k' :
  payload_get (GHL.set_item d k v) k' = if String.eqb k k' then Some v else payload_get d k'.
Proof.
  unfold payload_get. induction d as [|[k0 v0] d IH]; simpl.
  - destruct (String.eqb k k'); reflexivity.
  - destruct (String.eqb_spec k k0) as [->|Hne]; simpl.
    + destruct (String.eqb k0 k'); reflexivity.
    + destruct (String.eqb_spec k0 k') as [->|Hne'].
      * destruct (String.eqb_spec k k'); [contradiction|reflexivity].
      * exact IH.
Qed.

Lemma payload_get_cons (d : GHL.payload) k0 v0 k :
  payload_get ((k0, v0) :: d) k = if String.eqb k0 k then Some v0 else payload_get d k.
Proof. unfold payload_get. simpl. destruct (String.eqb k0 k); reflexivity. Qed.

Lemma payload_get_elem (d : GHL.payload) k v : payload_get d k = Some v -> k ∈ d.*1.
Proof.
  induction d as [|[k0 v0] d IH]; [discriminate|]. rewrite payload_get_cons, fmap_cons.
  destruct (String.eqb_spec k0 k) as [->|Hne]; intros Hget.
  - apply list_elem_of_here.
  - apply list_elem_of_further. auto.
Qed.

Lemma payload_get_merge (d base : GHL.payload) k :
  NoDup d.*1 ->
  payload_get (fold_left (fun d kv => GHL.set_item d kv.1 kv.2) d base) k
  = match payload_get d k with
    | Some v => Some v
    | None => payload_get base k
    end.
Proof.
  revert base. induction d as [|[k0 v0] d IH]; intros base Hnd; [reflexivity|].
  rewrite fmap_cons in Hnd. apply NoDup_cons in Hnd as [Hnotin Hnd].
  cbn [fold_left fst snd]. rewrite (IH _ Hnd), payload_get_set_item, payload_get_cons.
  destruct (String.eqb_spec k0 k) as [->|Hne]; [|reflexivity].
  destruct (payload_get d k) as [v|] eqn:Hget; [|reflexivity].
  destruct Hnotin. eapply payload_get_elem; eauto.
Qed.

(** X13.  Who decides the location id.  [upsert_contact] sends the caller's
    body with ["locationId"] set to the configured location, replacing one
    the caller gave; [create_opportunity] sends the configured location only
    when the caller's body has no ["locationId"] entry.  Every other entry of
    the caller's body is sent as given. *)
Theorem location_id_of_requests (data : GHL.payload) (w : World S) :
  NoDup data.*1 ->
  (exists body,
      ghl_client.upsert_contact data w
      = ghl_client.request (GHL.UpsertContact data) (GHL.post_contacts_upsert body) w
      /\ payload_get body "locationId" = Some (GHL.PStr ghl_location_id)
      /\ forall k, k <> "locationId" -> payload_get body k = payload_get data k)
  /\ (exists body,
        ghl_client.create_opportunity data w
        = ghl_client.request (GHL.CreateOpportunity data) (GHL.post_opportunities body) w
        /\ payload_get body "locationId"
           = Some (default (GHL.PStr ghl_location_id) (payload_get data "locationId"))
        /\ forall k, k <> "locationId" -> payload_get body k = payload_get data k).
Proof.
  intros Hnd. split.
  - eexists. split; [reflexivity|]. split.
    + rewrite payload_get_set_item. reflexivity.
    + intros k Hk. rewrite payload_get_set_item.
      destruct (String.eqb_spec "locationId" k); [congruence|reflexivity].
  - eexists. split; [reflexivity|]. split.
    + rewrite payload_get_merge by exact Hnd.
      destruct (payload_get data "locationId"); reflexivity.
    + intros k Hk. rewrite payload_get_merge by exact Hnd.
      destruct (payload_get data k); [reflexivity|].
      rewrite payload_get_cons.
      destruct (String.eqb_spec "locationId" k); [congruence|reflexivity].
Qed.

End ClientLaws.

Lemma filter_none {A} (f : A -> bool) (l : list A) :
  Forall (fun x => f x = false) l -> List.filter f l = [].
Proof. induction 1 as [|x l Hx _ IH]; [reflexivity|]. simpl. rewrite Hx. exact IH. Qed.

Lemma dict_of_lookup_in (entries : list (string * string)) (m : gmap string string) k v :
  fold_left (fun m kv => <[kv.1 := kv.2]> m) entries m !! k = Some v ->
  In (k, v) entries \/ m !! k = Some v.
Proof.
  revert m. induction entries as [|[k0 v0] entries IH]; intros m; simpl; [auto|].
  intros Hl. destruct (IH _ Hl) as [Hin|Hm]; [auto|].
  destruct (decide (k0 = k)) as [->|Hne].
  - rewrite lookup_insert_eq in Hm. injection Hm as ->. auto.
  - rewrite lookup_insert_ne in Hm by exact Hne. auto.
Qed.

Section MatcherLaws.
Context `{Runtime} `{Settings} `{sf_client.Source} {S : Type} `{GHL.Server S}.

Lemma wrapped_raise {A} (body : M S A) work_order work_type (handler : exn -> option (M S A))
    (w w' : World S) e :
  (forall e0, handler e0 = if is_JobSyncError e0 then None
                           else Some (raise (JobSyncError
                                    ("Failed to sync " +:+ Text.lower work_type +:+ " "
                                     +:+ str (WO.id work_order)) HIGH
                                    (main.work_order_context work_order
                                     ++ [("original_error", VAtom (AStr (str_exn e0)))])%list))) ->
  try_except body handler w = (Raise e, w') -> is_JobSyncError e = true.
Proof.
  intros Hh. unfold try_except. destruct (body w) as [[a|e0] w1]; [discriminate|].
  rewrite Hh. destruct (is_JobSyncError e0) eqn:He0.
  - intros [= <- _]. exact He0.
  - intros [= <- _]. reflexivity.
Qed.

Lemma sync_mapped_raise found work_order work_type (w w' : World S) e :
  main.sync_mapped found work_order work_type w = (Raise e, w') -> is_JobSyncError e = true.
Proof.
  unfold main.sync_mapped.
  destruct (sf_to_ghl_stage_map _ !! WO.status work_order) as [stage|]; [|discriminate].
  destruct (String.eqb stage ""); [discriminate|].
  apply (wrapped_raise _ work_order work_type). intros e0. reflexivity.
Qed.

(** X14.  What a failed sync raises.  For a work order whose timestamp
    parses, every exception that leaves [sync_work_order_to_ghl] is a
    [JobSyncError]: the errors of the Source lookup, of the Target requests
    and of the code in between are wrapped.  A customer the Source does not
    know (404) gives the [JobSyncError] "Customer <id> does not exist" of
    medium severity, carrying the work order's id, number and customer id,
    before any Target request. *)
Theorem sync_raises_only_sync_errors (work_order : WorkOrder) (work_type : string)
    (ts : datetime) (w : World S) :
  WO.updated_at_datetime work_order = Ok ts ->
  (forall e w', main.sync_work_order_to_ghl work_order work_type w = (Raise e, w') ->
                is_JobSyncError e = true)
  /\ (forall stage,
        sf_to_ghl_stage_map _ !! WO.status work_order = Some stage -> stage <> "" ->
        sf_client.customer_by_id (WO.customer_id work_order) = Ok None ->
        exists w',
          main.sync_work_order_to_ghl work_order work_type w
          = (Raise (JobSyncError
                      ("Customer " +:+ str (WO.customer_id work_order) +:+ " does not exist")
                      MEDIUM
                      [ ("work_order_id", VAtom (AInt (WO.id work_order)));
                        ("work_order_number",
                         VAtom (sf_client.opt_str (WO.number work_order)));
                        ("customer_id", VAtom (AInt (WO.customer_id work_order))) ]), w')
          /\ calls w' = calls w).
Proof.
  intros Hts.
  destruct (conversion_check_runs work_order ts w Hts) as (found & w1 & Hconv & Hcalls).
  assert (Hsync : main.sync_work_order_to_ghl work_order work_type w
                  = main.sync_mapped found work_order work_type w1).
  { unfold main.sync_work_order_to_ghl. fold (conversion_check (S:=S) work_order).
    rewrite (bind_ok _ _ _ _ _ Hconv). reflexivity. }
  rewrite Hsync. split.
  - intros e w'. apply sync_mapped_raise.
  - intros stage Hstage Hne Hcust. exists w1. split; [|exact Hcalls].
    unfold main.sync_mapped. rewrite Hstage.
    destruct (String.eqb_spec stage ""); [contradiction|].
    unfold try_except, main.sync_steps. rewrite bind_unfold.
    unfold sf_client.get_customer_by_id, lift. rewrite Hcust. reflexivity.
Qed.

Lemma unset_stage_lookup status stage :
  stages_unset _ -> sf_to_ghl_stage_map _ !! status = Some stage -> stage = "".
Proof.
  intros (H1' & H2' & H3' & H4' & H5' & H6' & H7') Hl.
  unfold sf_to_ghl_stage_map, dict_of in Hl.
  apply dict_of_lookup_in in Hl as [Hin|Hl]; [|rewrite lookup_empty in Hl; discriminate].
  unfold stage_map_entries in Hin. simpl in Hin.
  repeat (destruct Hin as [[= _ <-]|Hin]; [congruence|]). destruct Hin.
Qed.

(** X15.  Without configured stages nothing is synced.  When the stage ids
    the translation table uses are all empty (their default), every status
    is unmapped: the sync of a work order whose timestamp parses returns
    normally without a Source customer lookup or a Target request, and the
    sync of an estimate changes nothing at all. *)
Theorem unset_stages_skip_every_work_order (work_order : WorkOrder) (work_type : string)
    (ts : datetime) (w : World S) :
  stages_unset _ ->
  WO.updated_at_datetime work_order = Ok ts ->
  (exists w', main.sync_work_order_to_ghl work_order work_type w = (Ok tt, w')
              /\ calls w' = calls w /\ target w' = target w)
  /\ (forall estimate, work_order = Estimate estimate ->
        main.sync_work_order_to_ghl work_order work_type w = (Ok tt, w)).
Proof.
  intros Hunset Hts.
  assert (Hskip : forall found (w1 : World S),
             main.sync_mapped found work_order work_type w1 = (Ok tt, w1)).
  { intros found w1. unfold main.sync_mapped.
    destruct (sf_to_ghl_stage_map _ !! WO.status work_order) as [stage|] eqn:Hl; [|reflexivity].
    rewrite (unset_stage_lookup _ _ Hunset Hl). reflexivity. }
  split.
  - destruct (conversion_check_runs work_order ts w Hts) as (found & w1 & Hconv & Hcalls).
    exists w1. unfold main.sync_work_order_to_ghl. fold (conversion_check (S:=S) work_order).
    rewrite (bind_ok _ _ _ _ _ Hconv), Hskip. split; [reflexivity|]. split; [exact Hcalls|].
    destruct work_order as [job|estimate]; simpl in Hconv.
    + apply (preserves_find_converted target (fun _ _ => eq_refl) job _ _ _ Hconv).
    + now injection Hconv as _ <-.
  - intros estimate ->. unfold main.sync_work_order_to_ghl.
    rewrite bind_unfold. cbn [mret M_ret]. apply Hskip.
Qed.

(** X16.  The customer sync is one upsert.  For a customer with a phone or
    an email, [handle_sf_customer_update] sends no notification and leaves
    the state file alone.  It makes exactly one Target request, the contact
    upsert, whose body carries the customer's derived phone and email, and it
    returns what that request returns: a failure of the request is passed on
    as it is.  The one exception is a customer whose first name cannot be
    derived ([IndexError]), for whom no request is made. *)
Theorem customer_sync_is_one_upsert (customer : SFCustomer.t) (w w' : World S)
    (r : Result unit) :
  main.no_contact_info customer = false ->
  main.handle_sf_customer_update customer w = (r, w') ->
  slack w' = slack w /\ state_file w' = state_file w
  /\ ((r = Raise IndexError /\ calls w' = calls w)
      \/ exists data,
           calls w' = (calls w ++ [GHL.UpsertContact data])%list
           /\ payload_get data "phone" = Some (main.opt_pv (SFCustomer.phone customer))
           /\ payload_get data "email" = Some (main.opt_pv (SFCustomer.email customer))
           /\ r = (fun _ => tt)
                  <$> (GHL.post_contacts_upsert
                         (GHL.set_item data "locationId" (GHL.PStr ghl_location_id))
                         (target w)).1).
Proof.
  intros Hinfo. unfold main.handle_sf_customer_update. rewrite Hinfo.
  rewrite bind_unfold. unfold lift at 1.
  assert (Hfirst : forall e, SFCustomer.first_name customer = Raise e -> e = IndexError).
  { intros e. unfold SFCustomer.first_name.
    destruct (SFCustomer.contact_name _ _); [discriminate|].
    destruct (String.eqb _ ""); [discriminate|].
    destruct (Text.split _); [intros [= <-]; reflexivity|discriminate]. }
  destruct (SFCustomer.first_name customer) as [first|e].
  2:{ intros [= <- <-]. rewrite (Hfirst e eq_refl). auto. }
  rewrite bind_unfold. unfold lift at 1.
  assert (Hlast : exists last, SFCustomer.last_name customer = Ok last).
  { unfold SFCustomer.last_name. destruct (SFCustomer.contact_name _ _); [eauto|].
    destruct (Text.split _) as [|? [|? ?]]; eauto. }
  destruct Hlast as (last & ->).
  rewrite bind_unfold. cbn [utcnow]. rewrite bind_unfold.
  unfold ghl_client.upsert_contact. rewrite request_run.
  match goal with
  | |- context [GHL.UpsertContact ?d] => set (data := d)
  end.
  destruct (GHL.post_contacts_upsert _ (target w)) as [[contact|e] s'] eqn:Hpost; cbn [fst snd];
    intros [= <- <-]; (split; [reflexivity|]); (split; [reflexivity|]); right;
    exists data; (split; [reflexivity|]);
    (split; [subst data; destruct (_ ++ _)%list; reflexivity|]);
    (split; [subst data; destruct (_ ++ _)%list; reflexivity|]); rewrite Hpost; reflexivity.
Qed.

End MatcherLaws.

Section OpportunityStep.
Context `{Runtime} `{Settings} `{sf_client.Source} {S : Type} `{GHL.Server S}.

(** X17.  A contact found by phone ends the contact step.  When the Target
    answers the phone search with at least one contact, the contact step
    uses the first of them: it makes neither the email search nor the
    upsert, writes the Source customer id into the contact's link field, and
    returns that contact's id unless the write fails. *)
Theorem phone_match_ends_contact_step (customer : SFCustomer.t) (phone contact_id : string)
    (contact : GHL.ContactDict) (others : list GHL.ContactDict) (w : World S) :
  SFCustomer.phone customer = Some phone ->
  phone <> "" ->
  (GHL.get_contacts phone (target w)).1 = Ok (contact :: others) ->
  GHL.contact_id contact = Some contact_id ->
  exists (r : Result (option string)) (w' : World S),
    main.find_or_create_contact customer w = (r, w')
    /\ calls w'
       = (calls w ++ [ GHL.SearchContactByPhone phone;
                       GHL.UpdateContactCustomField contact_id ghl_sf_customer_id_field
                         (str (SFCustomer.id customer)) ])%list
    /\ (r = Ok (Some contact_id) \/ exists e, r = Raise e).
Proof.
  intros Hphone Hne Hfound Hid.
  rewrite find_or_create_contact_unfold. unfold contact_searches. rewrite Hphone.
  assert (Ht : truthy (Some phone) = true).
  { simpl. destruct (String.eqb_spec phone ""); [contradiction|reflexivity]. }
  rewrite Ht. unfold ghl_client.search_contact_by_phone.
  rewrite !bind_unfold, request_run. rewrite Hfound. cbn [mret M_ret head].
  rewrite Hid. cbn [main.item_id]. rewrite bind_unfold. cbn [mret M_ret].
  rewrite bind_unfold. unfold ghl_client.update_contact_custom_field. rewrite request_run.
  destruct (GHL.put_contact contact_id _ _ _) as [[[]|e] s']; cbn [fst snd calls];
    eexists _, _; (split; [reflexivity|]); cbn [calls]; rewrite <- app_assoc;
    (split; [reflexivity|]); eauto.
Qed.

(** X18.  A conversion match is a real estimate.  When conversion detection
    answers with an id, the job's [created_at] is its [updated_at], its
    timestamp parses, and the id is that of an estimate the listing from two
    hours before that timestamp returned: one with the job's customer, the
    status "Estimate Won" and the job's [updated_at] text, preceded in the
    listing by no other such estimate. *)
Theorem conversion_match_is_listed (job : SFJob.t) (estimate_id : Z) (w w' : World S) :
  main.find_converted_estimate_for_job job w = (Ok (Some estimate_id), w') ->
  SFJob.created_at job = Some (SFJob.updated_at job)
  /\ exists (ts : datetime) (before after : list SFEstimate.t) (estimate : SFEstimate.t),
       SFJob.updated_at_datetime job = Ok ts
       /\ sf_client.get_updated_estimates (sub_timedelta ts (timedelta_hours 2)) 50 w
          = (Ok (before ++ estimate :: after)%list, w')
       /\ SFEstimate.id estimate = estimate_id
       /\ SFEstimate.customer_id estimate = SFJob.customer_id job
       /\ SFEstimate.status estimate = "Estimate Won"
       /\ SFEstimate.updated_at estimate = SFJob.updated_at job
       /\ Forall (fun e => main.is_conversion_of job e = false) before.
Proof.
  intros Hrun. destruct (not_fresh job) eqn:Hguard.
  { rewrite (find_converted_not_fresh job w Hguard) in Hrun. discriminate. }
  pose proof Hguard as Hfresh. unfold not_fresh in Hfresh.
  apply orb_false_iff in Hfresh as [Ht Hs]. apply negb_false_iff in Ht, Hs.
  apply bool_decide_eq_true in Hs. split; [exact Hs|].
  destruct (created_at_datetime_of_fresh job Ht Hs) as [Hcreated | (e & Hcreated & _)].
  - destruct (SFJob.updated_at_datetime job) as [ts|e] eqn:Hts.
    + exists ts. rewrite (find_converted_fresh job ts w Hguard Hcreated) in Hrun.
      destruct (sf_client.get_updated_estimates _ 50 w) as [[estimates|e] w1]; [|discriminate].
      injection Hrun as Hfind <-.
      destruct (List.find _ estimates) as [estimate|] eqn:Hf; [|discriminate].
      injection Hfind as Hid.
      destruct (find_first _ _ _ Hf) as (before & after & -> & Hmatch & Hbefore).
      exists before, after, estimate. split; [reflexivity|]. split; [reflexivity|].
      split; [exact Hid|]. unfold main.is_conversion_of in Hmatch.
      apply andb_true_iff in Hmatch as [Hmatch Hupd].
      apply andb_true_iff in Hmatch as [Hcust Hstat].
      apply Z.eqb_eq in Hcust. apply String.eqb_eq in Hstat, Hupd.
      repeat split; assumption.
    + exfalso. unfold main.find_converted_estimate_for_job in Hrun.
      unfold not_fresh in Hguard. rewrite Hguard in Hrun.
      rewrite bind_unfold in Hrun. unfold lift at 1 in Hrun. rewrite Hcreated in Hrun.
      discriminate.
  - exfalso. unfold main.find_converted_estimate_for_job in Hrun.
    unfold not_fresh in Hguard. rewrite Hguard in Hrun.
    rewrite bind_unfold in Hrun. unfold lift at 1 in Hrun. rewrite Hcreated in Hrun.
    discriminate.
Qed.

Lemma try_except_bind {A B} (m : M S A) (k : A -> M S B) handler (w w1 : World S) a :
  m w = (Ok a, w1) -> try_except (m ≫= k) handler w = try_except (k a) handler w1.
Proof. intros Hm. unfold try_except. rewrite (bind_ok _ _ _ _ _ Hm). reflexivity. Qed.

(** The sync up to the opportunity step, when the contact is resolved and
    the lookup under a converted estimate's id found nothing. *)
Lemma sync_reaches_opportunity_step (work_order : WorkOrder)
    (work_type stage contact_id : string) (customer : SFCustomer.t) (found : option Z)
    (result : option GHL.OpportunityDict) (w0 w1 w2 w3 w4 : World S) :
  conversion_check work_order w0 = (Ok found, w1) ->
  sf_to_ghl_stage_map _ !! WO.status work_order = Some stage ->
  stage <> "" ->
  sf_client.customer_by_id (WO.customer_id work_order) = Ok (Some customer) ->
  main.no_contact_info customer = false ->
  main.find_or_create_contact customer w1 = (Ok (Some contact_id), w2) ->
  contact_id <> "" ->
  no_estimate_opportunity found contact_id w2 w3 ->
  ghl_client.search_opportunity_by_job_id (WO.id work_order) contact_id w3
    = (Ok result, w4) ->
  (forall opp, result = Some opp -> is_Some (GHL.opportunity_id opp)) ->
  main.sync_work_order_to_ghl work_order work_type w0
  = try_except (main.create_or_update_opportunity result work_order work_type contact_id stage)
               (main.wrap_sync_error work_order work_type) w4
  /\ exists cs, calls w4 = (calls w0 ++ cs)%list /\ Forall not_on_opportunity cs.
Proof.
  intros Hconv Hstage Hne Hcust Hinfo Hcontact Hcid Hest Hsearch Hid.
  assert (Hlookup :
            (opportunity ← ghl_client.search_opportunity_by_job_id (WO.id work_order) contact_id;
             match opportunity with
             | Some opp => main.item_id (GHL.opportunity_id opp);; mret (Some opp)
             | None => mret None
             end) w3 = (Ok result, w4)).
  { rewrite (bind_ok _ _ _ _ _ Hsearch). destruct result as [opp|]; [|reflexivity].
    destruct (Hid opp eq_refl) as (oid & ->). reflexivity. }
  assert (Hopp : main.find_opportunity found work_order contact_id w2 = (Ok result, w4)).
  { unfold main.find_opportunity. rewrite bind_unfold. unfold no_estimate_opportunity in Hest.
    destruct found as [estimate_id|].
    - destruct (estimate_id =? 0).
      + subst w3. cbn [mret M_ret]. exact Hlookup.
      + rewrite (bind_ok _ _ _ _ _ Hest). cbn [mret M_ret]. exact Hlookup.
    - subst w3. cbn [mret M_ret]. exact Hlookup. }
  split.
  - unfold main.sync_work_order_to_ghl. fold (conversion_check (S:=S) work_order).
    rewrite (bind_ok _ _ _ _ _ Hconv).
    rewrite (sync_mapped_unfold _ work_order work_type stage customer w1 Hstage Hne Hcust Hinfo).
    rewrite (try_except_bind _ _ _ _ _ _ Hcontact).
    destruct (String.eqb_spec contact_id ""); [contradiction|].
    exact (try_except_bind _
             (fun opportunity => main.create_or_update_opportunity opportunity work_order
                                   work_type contact_id stage) _ _ _ _ Hopp).
  - pose proof (conversion_check_calls _ _ _ _ Hconv) as Hc1.
    destruct (find_or_create_contact_calls customer contact_id w1 w2 Hcontact)
      as (cs & Hc2 & Hcs).
    assert (Hc3 : exists lookups, calls w3 = (calls w2 ++ lookups)%list
                                  /\ Forall not_on_opportunity lookups).
    { unfold no_estimate_opportunity in Hest. destruct found as [estimate_id|].
      - destruct (estimate_id =? 0).
        + subst w3. exists []. split; [now rewrite app_nil_r|constructor].
        + apply search_opportunity_calls in Hest. eexists. split; [exact Hest|].
          repeat constructor.
      - subst w3. exists []. split; [now rewrite app_nil_r|constructor]. }
    destruct Hc3 as (lookups & Hc3 & Hlook).
    apply search_opportunity_calls in Hsearch.
    exists (cs ++ lookups ++ [GHL.SearchOpportunityByJobId (WO.id work_order) contact_id])%list.
    split; [rewrite Hsearch, Hc3, Hc2, Hc1, <- !app_assoc; reflexivity|].
    apply Forall_app. split; [exact Hcs|]. apply Forall_app. split; [exact Hlook|].
    repeat constructor.
Qed.

(** X19.  A work order without an opportunity gets one.  When the status is
    mapped, the contact is resolved and neither the lookup under a converted
    estimate's id nor the lookup under the work order's own id finds an
    opportunity, the sync makes exactly one request that writes to an
    opportunity: the creation of an open opportunity under the resolved
    contact, in the configured pipeline and the mapped stage, named after the
    work order and tagged with its id.  A failure of that request is raised
    as [JobSyncError]. *)
Theorem missing_opportunity_is_created (work_order : WorkOrder)
    (work_type stage contact_id : string) (customer : SFCustomer.t) (found : option Z)
    (w0 w1 w2 w3 w4 : World S) :
  conversion_check work_order w0 = (Ok found, w1) ->
  sf_to_ghl_stage_map _ !! WO.status work_order = Some stage ->
  stage <> "" ->
  sf_client.customer_by_id (WO.customer_id work_order) = Ok (Some customer) ->
  main.no_contact_info customer = false ->
  main.find_or_create_contact customer w1 = (Ok (Some contact_id), w2) ->
  contact_id <> "" ->
  no_estimate_opportunity found contact_id w2 w3 ->
  ghl_client.search_opportunity_by_job_id (WO.id work_order) contact_id w3 = (Ok None, w4) ->
  exists (r : Result unit) (w' : World S) (new : list GHL.Call),
    main.sync_work_order_to_ghl work_order work_type w0 = (r, w')
    /\ calls w' = (calls w0 ++ new)%list
    /\ List.filter GHL.opportunity_mutation new
       = [GHL.CreateOpportunity (new_opportunity work_order work_type contact_id stage)]
    /\ (r = Ok tt \/ exists e, r = Raise e /\ is_JobSyncError e = true).
Proof.
  intros Hconv Hstage Hne Hcust Hinfo Hcontact Hcid Hest Hsearch.
  destruct (sync_reaches_opportunity_step work_order work_type stage contact_id customer
              found None w0 w1 w2 w3 w4 Hconv Hstage Hne Hcust Hinfo Hcontact Hcid Hest Hsearch)
    as (-> & cs & Hcalls & Hcs); [discriminate|].
  unfold try_except, main.create_or_update_opportunity. rewrite bind_unfold.
  unfold ghl_client.create_opportunity. rewrite request_run.
  fold (new_opportunity work_order work_type contact_id stage).
  destruct (GHL.post_opportunities _ (target w4)) as [[opp|e] s']; cbn [fst snd mret M_ret].
  - eexists _, _, (cs ++ [GHL.CreateOpportunity _])%list. split; [reflexivity|]. cbn [calls].
    split; [rewrite Hcalls, <- app_assoc; reflexivity|].
    split; [|left; reflexivity].
    rewrite List.filter_app, (filter_none _ cs Hcs). reflexivity.
  - unfold main.wrap_sync_error.
    destruct (is_JobSyncError e) eqn:He;
      eexists _, _, (cs ++ [GHL.CreateOpportunity _])%list; (split; [reflexivity|]); cbn [calls];
      (split; [rewrite Hcalls, <- app_assoc; reflexivity|]);
      (split; [rewrite List.filter_app, (filter_none _ cs Hcs); reflexivity|]);
      right; eexists; split; try reflexivity; exact He.
Qed.

(** X20.  A changed status moves the opportunity.  When the status is
    mapped, the contact is resolved, no opportunity is found under a
    converted estimate's id and the opportunity found under the work order's
    own id is in another stage than the mapped one, the sync makes exactly
    one request that writes to an opportunity: the update of that
    opportunity to the mapped stage, with status "open".  No opportunity is
    created. *)
Theorem changed_status_moves_opportunity (work_order : WorkOrder)
    (work_type stage contact_id opportunity_id : string) (customer : SFCustomer.t)
    (found : option Z) (opp : GHL.OpportunityDict) (w0 w1 w2 w3 w4 : World S) :
  conversion_check work_order w0 = (Ok found, w1) ->
  sf_to_ghl_stage_map _ !! WO.status work_order = Some stage ->
  stage <> "" ->
  sf_client.customer_by_id (WO.customer_id work_order) = Ok (Some customer) ->
  main.no_contact_info customer = false ->
  main.find_or_create_contact customer w1 = (Ok (Some contact_id), w2) ->
  contact_id <> "" ->
  no_estimate_opportunity found contact_id w2 w3 ->
  ghl_client.search_opportunity_by_job_id (WO.id work_order) contact_id w3
    = (Ok (Some opp), w4) ->
  GHL.opportunity_id opp = Some opportunity_id ->
  GHL.pipelineStageId opp <> Some stage ->
  exists (r : Result unit) (w' : World S) (new : list GHL.Call),
    main.sync_work_order_to_ghl work_order work_type w0 = (r, w')
    /\ calls w' = (calls w0 ++ new)%list
    /\ List.filter GHL.opportunity_mutation new
       = [GHL.UpdateOpportunity opportunity_id
            [ ("pipelineStageId", GHL.PStr stage); ("status", GHL.PStr "open") ]]
    /\ (r = Ok tt \/ exists e, r = Raise e /\ is_JobSyncError e = true).
Proof.
  intros Hconv Hstage Hne Hcust Hinfo Hcontact Hcid Hest Hsearch Hid Hdiff.
  destruct (sync_reaches_opportunity_step work_order work_type stage contact_id customer
              found (Some opp) w0 w1 w2 w3 w4 Hconv Hstage Hne Hcust Hinfo Hcontact Hcid Hest
              Hsearch) as (-> & cs & Hcalls & Hcs).
  { intros opp' [= <-]. rewrite Hid. eauto. }
  unfold try_except, main.create_or_update_opportunity.
  rewrite bool_decide_eq_false_2 by exact Hdiff.
  rewrite Hid. cbn [main.item_id]. rewrite bind_unfold. cbn [mret M_ret].
  unfold ghl_client.update_opportunity. rewrite request_run.
  destruct (GHL.put_opportunity opportunity_id _ (target w4)) as [[[]|e] s']; cbn [fst snd].
  - eexists _, _, (cs ++ [GHL.UpdateOpportunity _ _])%list. split; [reflexivity|]. cbn [calls].
    split; [rewrite Hcalls, <- app_assoc; reflexivity|].
    split; [|left; reflexivity].
    rewrite List.filter_app, (filter_none _ cs Hcs). reflexivity.
  - unfold main.wrap_sync_error.
    destruct (is_JobSyncError e) eqn:He;
      eexists _, _, (cs ++ [GHL.UpdateOpportunity _ _])%list; (split; [reflexivity|]);
      cbn [calls];
      (split; [rewrite Hcalls, <- app_assoc; reflexivity|]);
      (split; [rewrite List.filter_app, (filter_none _ cs Hcs); reflexivity|]);
      right; eexists; split; try reflexivity; exact He.
Qed.

End OpportunityStep.

(** ** The customer model *)

(** X21.  Which contact speaks for a customer.  The primary contact is the
    first contact flagged as primary, or the first contact when none is
    flagged, and there is none only when the customer has no contacts.  The
    phone and the email of the customer are those of that one contact: a
    customer whose primary contact has neither is without contact details,
    whatever its other contacts hold. *)
Theorem primary_contact_speaks_for_customer (customer : SFCustomer.t) :
  match SFCustomer.primary_contact customer with
  | None =>
      SFCustomer.contacts customer = [] /\ main.no_contact_info customer = true
  | Some contact =>
      SFCustomer.phone customer = SFContact.primary_phone contact
      /\ SFCustomer.email customer = SFContact.primary_email contact
      /\ ((exists before after,
              SFCustomer.contacts customer = (before ++ contact :: after)%list
              /\ flagged contact = true
              /\ Forall (fun c => flagged c = false) before)
          \/ (Forall (fun c => flagged c = false) (SFCustomer.contacts customer)
              /\ head (SFCustomer.contacts customer) = Some contact))
  end.
Proof.
  unfold main.no_contact_info, SFCustomer.phone, SFCustomer.email, SFCustomer.primary_contact.
  fold flagged.
  destruct (List.find flagged (SFCustomer.contacts customer)) as [contact|] eqn:Hfind.
  - split; [reflexivity|]. split; [reflexivity|]. left.
    destruct (find_first _ _ _ Hfind) as (before & after & Heq & Hflag & Hbefore). eauto.
  - apply find_nothing in Hfind.
    destruct (SFCustomer.contacts customer) as [|contact contacts]; simpl.
    + split; reflexivity.
    + split; [reflexivity|]. split; [reflexivity|]. right. split; [exact Hfind|reflexivity].
Qed.

Lemma split_from_blank (s : string) : blank s = true -> Text.split_from s "" = [].
Proof.
  induction s as [|c s IH]; [reflexivity|]. simpl. intros Hb.
  apply andb_true_iff in Hb as [Hc Hs]. apply Ascii.eqb_eq in Hc. subst c. simpl. auto.
Qed.

Section NameLaws.
Context `{Runtime} `{Settings} `{sf_client.Source} {S : Type} `{GHL.Server S}.

(** X22.  A customer named with spaces only.  When the primary contact
    gives no first name and the customer name is not empty but holds nothing
    except spaces, the first name cannot be derived ([IndexError]), while the
    last name is the empty text.  If such a customer has a phone or an email,
    its customer sync raises [IndexError] before any Target request. *)
Theorem blank_name_has_no_first_name (customer : SFCustomer.t) :
  SFCustomer.contact_name customer SFContact.fname = None ->
  SFCustomer.contact_name customer SFContact.lname = None ->
  SFCustomer.customer_name customer <> "" ->
  blank (SFCustomer.customer_name customer) = true ->
  SFCustomer.first_name customer = Raise IndexError
  /\ SFCustomer.last_name customer = Ok ""
  /\ (main.no_contact_info customer = false ->
      forall w : World S,
        main.handle_sf_customer_update customer w = (Raise IndexError, w)).
Proof.
  intros Hf Hl Hne Hb.
  assert (Hfirst : SFCustomer.first_name customer = Raise IndexError).
  { unfold SFCustomer.first_name. rewrite Hf.
    destruct (String.eqb_spec (SFCustomer.customer_name customer) ""); [contradiction|].
    unfold Text.split. rewrite split_from_blank by exact Hb. reflexivity. }
  split; [exact Hfirst|]. split.
  - unfold SFCustomer.last_name. rewrite Hl. unfold Text.split.
    rewrite split_from_blank by exact Hb. reflexivity.
  - intros Hinfo w. unfold main.handle_sf_customer_update. rewrite Hinfo.
    rewrite bind_unfold. unfold lift at 1. rewrite Hfirst. reflexivity.
Qed.

(** X23.  One bad customer can end the whole listing.  The handler that
    skips a customer with a bad timestamp builds its report from the
    customer's names.  When the first page of the customer feed holds, after
    customers that are all newer than [since], a customer whose timestamp
    raises a data-quality error and whose first name cannot be derived, the
    [IndexError] of the name leaves the handler: the lister raises it,
    returns no customer and reports nothing. *)
Theorem bad_customer_ends_listing (fresh rest : list SFCustomer.t) (customer : SFCustomer.t)
    (later : list (Result (list SFCustomer.t))) (since : datetime) (max_results : Z)
    (e : exn) (w : World S) :
  sf_client.customers_feed = Ok (fresh ++ customer :: rest)%list :: later ->
  0 < max_results ->
  Forall (newer SFCustomer.updated_at_datetime since) fresh ->
  SFCustomer.updated_at_datetime customer = Raise e ->
  sf_client.data_quality_error e = true ->
  SFCustomer.first_name customer = Raise IndexError ->
  sf_client.get_updated_customers since max_results w = (Raise IndexError, w).
Proof.
  intros Hfeed Hmax Hfresh Hts He Hname.
  unfold sf_client.get_updated_customers, sf_client.get_updated. rewrite Hfeed.
  assert (Hroom : (Z.of_nat (List.length (@nil SFCustomer.t)) <? max_results) = true).
  { apply Z.ltb_lt. simpl. lia. }
  assert (Hscan : forall updated bad,
             sf_client.scan_items SFCustomer.updated_at_datetime sf_client.bad_customer since
                                  (fresh ++ customer :: rest) 1 updated bad
             = sf_client.Propagated IndexError).
  { clear Hfeed. induction Hfresh as [|record fresh Hrecord _ IH]; intros updated bad; simpl.
    - rewrite Hts. simpl. rewrite He. unfold sf_client.bad_customer. rewrite Hname. reflexivity.
    - unfold newer in Hrecord. rewrite Hrecord. apply IH. }
  destruct (fresh ++ customer :: rest)%list as [|first items] eqn:Hitems.
  { destruct fresh; discriminate Hitems. }
  cbn [sf_client.scan_pages]. rewrite Hroom, Hscan. reflexivity.
Qed.

End NameLaws.

(** ** The intake search *)

Section IntakeLaws.
Context {Customer : Type} `{sf_intake.Search Customer} {S : Type}.


End IntakeLaws.

Lemma lstrip_plus_fixed (s : string) :
  String.prefix "+" s = false -> sf_intake.lstrip_plus s = s.
Proof.
  destruct s as [|c s]; [reflexivity|]. simpl.
  destruct (Ascii.eqb_spec c "+") as [->|Hne]; [|reflexivity].
  simpl. destruct s; discriminate.
Qed.

Lemma substring_all (s : string) : substring 0 (String.length s) s = s.
Proof. induction s as [|c s IH]; [reflexivity|]. simpl. now rewrite IH. Qed.

Lemma clean_phone_plain (number : string) :
  number <> "" -> String.prefix "+" number = false ->
  String.length number <> 11%nat ->
  sf_intake.clean_phone (Some number) = Some number.
Proof.
  intros Hne Hplus Hlen. unfold sf_intake.clean_phone. cbv beta iota. simpl truthy.
  destruct (String.eqb_spec number ""); [contradiction|]. simpl negb. cbv iota.
  rewrite (lstrip_plus_fixed number Hplus).
  destruct (Nat.eqb_spec (String.length number) 11); [contradiction|reflexivity].
Qed.

Lemma clean_phone_one (number : string) :
  String.length number = 10%nat ->
  sf_intake.clean_phone (Some (String "1" number)) = Some number.
Proof.
  intros Hlen. unfold sf_intake.clean_phone. cbv beta iota.
  change (truthy (Some (String "1" number))) with true. cbv iota.
  change (sf_intake.lstrip_plus (String "1" number)) with (String "1" number).
  cbn [String.length]. rewrite Hlen.
  change (Nat.eqb 11 11) with true.
  rewrite (proj2 (prefix_correct "1" (String "1" number))) by (destruct number; reflexivity).
  cbn [andb Nat.sub]. cbv iota.
  change (substring 1 10 (String "1" number)) with (substring 0 10 number).
  rewrite <- Hlen. now rewrite substring_all.
Qed.

Lemma digits_not_plus (number : string) :
  all_digits number = true -> String.prefix "+" number = false.
Proof.
  destruct number as [|c number]; [reflexivity|]. simpl. intros Hd.
  apply andb_true_iff in Hd as [Hc _]. apply prefix_head_mismatch.
  destruct (Ascii.eqb_spec "+" c) as [<-|]; [discriminate Hc|reflexivity].
Qed.

(** X25.  The three spellings of a ten-digit number.  The phone clean-up of
    the intake endpoints maps a number of ten digits, the same number behind
    "1" and the same number behind "+1" to the ten digits, so that the
    customer search is made with the same phone for all three. *)
Theorem clean_phone_us_prefix (number : string) :
  String.length number = 10%nat ->
  all_digits number = true ->
  sf_intake.clean_phone (Some ("+1" +:+ number)) = Some number
  /\ sf_intake.clean_phone (Some ("1" +:+ number)) = Some number
  /\ sf_intake.clean_phone (Some number) = Some number.
Proof.
  intros Hlen Hdigits. split; [|split].
  - change (sf_intake.clean_phone (Some ("+1" +:+ number)))
      with (sf_intake.clean_phone (Some (String "1" number))).
    apply (clean_phone_one number Hlen).
  - apply (clean_phone_one number Hlen).
  - apply clean_phone_plain; [|now apply digits_not_plus|lia].
    intros ->. discriminate Hlen.
Qed.

(** ** The listers return a subsequence of the feed *)

Section ListerOrder.
Context {S R : Type}.
Variable updated_at_datetime : R -> Result datetime.
Variable bad_entry : R -> exn -> nat -> Result (list (string * atom)).
Variable function_name kind : string.

Lemma scan_items_sublist since items page updated bad :
  match sf_client.scan_items updated_at_datetime bad_entry since items page updated bad with
  | sf_client.Older updated' _ | sf_client.Exhausted updated' _ =>
      exists kept, updated' = (updated ++ kept)%list /\ kept `sublist_of` items
  | sf_client.Propagated _ => True
  end.
Proof.
  revert updated bad. induction items as [|record items IH]; intros updated bad; simpl.
  - exists []. split; [now rewrite app_nil_r|constructor].
  - destruct (record_updated ← updated_at_datetime record; gt record_updated since)
      as [[|]|e].
    + specialize (IH (updated ++ [record])%list bad).
      destruct (sf_client.scan_items _ _ since items page _ bad); try exact I;
        destruct IH as (kept & -> & Hsub); exists (record :: kept);
        (split; [now rewrite <- app_assoc|now constructor]).
    + exists []. split; [now rewrite app_nil_r|apply sublist_nil_l].
    + destruct (sf_client.data_quality_error e); [|exact I].
      destruct (bad_entry record e page) as [entry|e']; [|exact I].
      specialize (IH updated (bad ++ [entry])%list).
      destruct (sf_client.scan_items _ _ since items page updated _); try exact I;
        destruct IH as (kept & -> & Hsub); exists kept; (split; [reflexivity|now constructor]).
Qed.

Lemma slice_to_sublist {A} (n : Z) (l : list A) : sf_client.slice_to n l `sublist_of` l.
Proof. unfold sf_client.slice_to. destruct (n <? 0); apply sublist_take. Qed.

Lemma scan_pages_sublist since max_results feed page updated bad (w w' : World S) res :
  sf_client.scan_pages updated_at_datetime bad_entry function_name kind
                       since max_results feed page updated bad w = (Ok res, w') ->
  res `sublist_of` (updated ++ feed_records feed)%list.
Proof.
  revert page updated bad.
  assert (Hfin : forall u b rest,
             sf_client.finish function_name kind max_results u b w = (Ok res, w') ->
             res `sublist_of` (u ++ rest)%list).
  { intros u b rest Hf. apply finish_run in Hf as [[= ->] _].
    etransitivity; [apply slice_to_sublist|]. apply sublist_inserts_r. reflexivity. }
  induction feed as [|response later IH]; intros page updated bad; simpl.
  - destruct (_ <? _); apply Hfin.
  - destruct (_ <? _).
    2:{ destruct response; apply Hfin. }
    destruct response as [[|record items]|e]; [apply Hfin| |discriminate].
    pose proof (scan_items_sublist since (record :: items) page updated bad) as Hscan.
    destruct (sf_client.scan_items _ _ since (record :: items) page updated bad)
      as [updated' bad'|updated' bad'|e].
    + rewrite bind_unfold.
      destruct (flush_bad_run function_name kind bad' w) as [-> | (n & -> & Hn)];
        intros [= <- _]; destruct Hscan as (kept & -> & Hsub);
        (apply sublist_app; [reflexivity|]); apply sublist_inserts_r; exact Hsub.
    + destruct Hscan as (kept & -> & Hsub). destruct (Nat.ltb _ _).
      * intros Hf. apply finish_run in Hf as [[= ->] _].
        etransitivity; [apply slice_to_sublist|].
        apply sublist_app; [reflexivity|]. apply sublist_inserts_r. exact Hsub.
      * intros Hrun. apply IH in Hrun. etransitivity; [exact Hrun|].
        rewrite <- app_assoc. apply sublist_app; [reflexivity|].
        apply sublist_app; [exact Hsub|reflexivity].
    + discriminate.
Qed.

(** X26.  What a lister returns comes from the feed.  The records a lister
    returns are records of the pages it was answered, each at most as often
    as the feed holds it and in the order of the feed: the result is a
    subsequence of the concatenated pages. *)
Theorem lister_returns_subsequence feed since max_results (w w' : World S) res :
  sf_client.get_updated updated_at_datetime bad_entry function_name kind
                        feed since max_results w = (Ok res, w') ->
  res `sublist_of` feed_records feed.
Proof. apply scan_pages_sublist. Qed.

End ListerOrder.

(** ** The translation table *)

Lemma dict_of_lookup_nodup (entries : list (string * string)) k v :
  NoDup entries.*1 -> In (k, v) entries -> dict_of entries !! k = Some v.
Proof.
  unfold dict_of. generalize (∅ : gmap string string) as m.
  induction entries as [|[k0 v0] entries IH]; intros m Hnd Hin; [destruct Hin|].
  rewrite fmap_cons in Hnd. apply NoDup_cons in Hnd as [Hnotin Hnd]. simpl.
  destruct Hin as [[= -> ->]|Hin].
  - clear IH. assert (Hkeep : forall m' : gmap string string, m' !! k = Some v ->
                       fold_left (fun m kv => <[kv.1 := kv.2]> m) entries m' !! k = Some v).
    { revert Hnotin. clear. induction entries as [|[k1 v1] entries IH]; intros Hnotin m' Hm';
        [exact Hm'|]. simpl. apply IH.
      - intros Hin. apply Hnotin. rewrite fmap_cons. now apply list_elem_of_further.
      - rewrite lookup_insert_ne; [exact Hm'|]. intros ->. apply Hnotin.
        rewrite fmap_cons. apply list_elem_of_here. }
    apply Hkeep. apply lookup_insert_eq.
  - apply IH; assumption.
Qed.

(** X27.  The table holds what its display lists.  When the seventeen status
    names of the display are pairwise distinct, a status is translated to a
    stage exactly when the display lists that pair; names that coincide
    would leave the later entry only. *)
Theorem stage_map_lookup (settings : Settings) (status stage : string) :
  NoDup (mapped_statuses settings) ->
  sf_to_ghl_stage_map settings !! status = Some stage
  <-> In (status, stage) (stage_map_entries settings).
Proof.
  intros Hnd. split.
  - intros Hl. unfold sf_to_ghl_stage_map, dict_of in Hl.
    apply dict_of_lookup_in in Hl as [Hin|Hl]; [exact Hin|].
    rewrite lookup_empty in Hl. discriminate.
  - apply dict_of_lookup_nodup. exact Hnd.
Qed.

(** ** Closed examples *)

Lemma cursor_round_trip_witness :
  @save_last_poll_time MemTarget.Store Jobs Scenario.stamp Fixture.start
  = (Ok tt, with_state_file Fixture.start
              (Dict (<["last_job_poll" := JStr (isoformat Scenario.stamp)]> ∅)))
  /\ @get_last_poll_time basic_runtime MemTarget.Store Jobs
       (with_state_file Fixture.start
          (Dict (<["last_job_poll" := JStr (isoformat Scenario.stamp)]> ∅)))
     = (Ok Scenario.stamp,
        with_state_file Fixture.start
          (Dict (<["last_job_poll" := JStr (isoformat Scenario.stamp)]> ∅))).
Proof.
  apply (@cursor_round_trip basic_runtime MemTarget.Store Jobs Scenario.stamp Fixture.start ∅).
  - reflexivity.
  - vm_compute. reflexivity.
Defined.

Lemma cursor_independence_witness :
  (@get_last_poll_time basic_runtime MemTarget.Store Customers
     (with_state_file (Fixture.world Fixture.empty_store Scenario.customers_only)
        (Dict (<["last_job_poll" := JStr (isoformat Scenario.stamp)]>
                 {[ "last_sf_poll" := JStr "2024-03-02T11:55:00" ]})))).1
  = (@get_last_poll_time basic_runtime MemTarget.Store Customers
       (Fixture.world Fixture.empty_store Scenario.customers_only)).1.
Proof.
  apply (@cursor_independence basic_runtime MemTarget.Store Jobs Customers Scenario.stamp).
  - discriminate.
  - reflexivity.
Defined.

Lemma cursor_error_fallback_witness :
  exists n : Notification,
    @get_last_poll_time basic_runtime MemTarget.Store Jobs
      (Fixture.world Fixture.empty_store Corrupt)
    = (Ok Scenario.day_before, notified (Fixture.world Fixture.empty_store Corrupt) n)
    /\ function_name n = "get_last_job_poll_time"
    /\ severity n = LOW.
Proof.
  apply (@cursor_error_fallback basic_runtime MemTarget.Store Jobs
           (Fixture.world Fixture.empty_store Corrupt)).
  right. left. reflexivity.
Defined.

Lemma unreadable_cursor_aborts_pass_witness :
  @get_last_poll_time basic_runtime MemTarget.Store Jobs
    (Fixture.world Fixture.empty_store NotADict)
  = (Raise AttributeError, Fixture.world Fixture.empty_store NotADict)
  /\ Fixture.job_pass Fixture.crm (Fixture.world Fixture.empty_store NotADict)
     = (Ok tt, notified (Fixture.world Fixture.empty_store NotADict)
                 (fatal_notification "check_for_job_updates" AttributeError)).
Proof.
  apply (@unreadable_cursor_aborts_pass basic_runtime Fixture.deployment Fixture.crm _
           MemTarget.server Jobs (Fixture.world Fixture.empty_store NotADict) AttributeError).
  left. split; reflexivity.
Defined.

Lemma failed_listing_keeps_cursor_witness :
  Fixture.job_pass Scenario.jobs_down Fixture.start
  = (Ok tt, notified Fixture.start
              (fatal_notification "check_for_job_updates" (HTTPError 503))).
Proof.
  apply (@failed_listing_keeps_cursor basic_runtime Fixture.deployment Scenario.jobs_down _
           MemTarget.server Jobs Fixture.start Fixture.start Fixture.start
           Scenario.day_before (HTTPError 503)); reflexivity.
Defined.


Lemma broken_state_file_never_advances_witness :
  Scenario.day_before = naive (Fixture.noon - timedelta_hours 24)
  /\ exists w3 : World MemTarget.Store,
       Fixture.job_pass (Fixture.jobs_only Fixture.failing_jobs)
         (Fixture.world Fixture.empty_store Corrupt)
       = (Ok tt, notified w3 (fatal_notification "check_for_job_updates" JSONDecodeError))
       /\ state_file w3 = Corrupt.
Proof.
  refine (@broken_state_file_never_advances basic_runtime Fixture.deployment
            (Fixture.jobs_only Fixture.failing_jobs) _ MemTarget.server
            (Fixture.world Fixture.empty_store Corrupt) _ _ Scenario.day_before
            Fixture.failing_jobs JSONDecodeError _ eq_refl eq_refl).
  left. split; reflexivity.
Defined.

(** A job with an unreadable timestamp is skipped and reported once. *)
Lemma lister_reports_at_most_once_witness :
  (Scenario.list_jobs [Ok [Fixture.march 3; Scenario.unreadable_job]]
                      Scenario.day_before 100 Fixture.start).2 = Fixture.start
  \/ exists (n : Notification) (res : list SFJob.t),
       (Scenario.list_jobs [Ok [Fixture.march 3; Scenario.unreadable_job]]
                           Scenario.day_before 100 Fixture.start).1 = Ok res
       /\ (Scenario.list_jobs [Ok [Fixture.march 3; Scenario.unreadable_job]]
                              Scenario.day_before 100 Fixture.start).2
          = notified Fixture.start n
       /\ function_name n = "get_updated_jobs" /\ severity n = LOW.
Proof.
  apply (lister_reports_at_most_once (@SFJob.updated_at_datetime basic_runtime Fixture.deployment)
           sf_client.bad_job "get_updated_jobs" "job"
           [Ok [Fixture.march 3; Scenario.unreadable_job]] Scenario.day_before 100
           Fixture.start).
  apply surjective_pairing.
Defined.

Lemma lister_stops_reading_witness :
  Scenario.list_jobs ([] ++ Ok [Fixture.march 3] :: [Raise (HTTPError 503)])
                     Scenario.day_before 100 Fixture.start
  = Scenario.list_jobs ([] ++ [Ok [Fixture.march 3]]) Scenario.day_before 100 Fixture.start.
Proof.
  apply (lister_stops_reading (@SFJob.updated_at_datetime basic_runtime Fixture.deployment)
           sf_client.bad_job "get_updated_jobs" "job"
           [] [Fixture.march 3] [Raise (HTTPError 503)] Scenario.day_before 100 Fixture.start).
  left. vm_compute. lia.
Defined.


Lemma lister_returns_subsequence_witness :
  [Fixture.march 3; Fixture.march 2]
  `sublist_of` feed_records [Ok [Fixture.march 3; Fixture.march 2; Fixture.march 1]].
Proof.
  apply (lister_returns_subsequence (@SFJob.updated_at_datetime basic_runtime Fixture.deployment)
           sf_client.bad_job "get_updated_jobs" "job"
           [Ok [Fixture.march 3; Fixture.march 2; Fixture.march 1]]
           (naive (ymd_hms 2024 3 1 20 0 0)) 1 Fixture.start Fixture.start).
  reflexivity.
Defined.

Lemma opportunity_search_returns_first_match_witness :
  exists before after,
    [Fixture.opp0] = (before ++ Fixture.opp0 :: after)%list
    /\ Forall (fun o => @ghl_client.tagged_with Fixture.deployment 7 o = false) before
    /\ exists field,
         In field (GHL.customFields Fixture.opp0)
         /\ GHL.field_id field = Some "field-crm-job-id"
         /\ or_else (GHL.fieldValueString field) (GHL.value field) = Some "7".
Proof.
  exact (proj2 (@opportunity_search_returns_first_match Fixture.deployment _ MemTarget.server
                  7 "contact-0" Fixture.after_estimate
                  (Scenario.search 7 "contact-0" Fixture.after_estimate).2
                  (Ok (Some Fixture.opp0)) eq_refl)).
Defined.

Lemma location_id_of_requests_witness :
  exists body,
    @ghl_client.upsert_contact Fixture.deployment _ MemTarget.server
       [("locationId", GHL.PStr "elsewhere"); ("phone", GHL.PStr "3035551234")] Fixture.start
    = ghl_client.request
        (GHL.UpsertContact
           [("locationId", GHL.PStr "elsewhere"); ("phone", GHL.PStr "3035551234")])
        (GHL.post_contacts_upsert body) Fixture.start
    /\ payload_get body "locationId" = Some (GHL.PStr "loc-1")
    /\ forall k, k <> "locationId" ->
                 payload_get body k
                 = payload_get [("locationId", GHL.PStr "elsewhere");
                                ("phone", GHL.PStr "3035551234")] k.
Proof.
  refine (proj1 (@location_id_of_requests Fixture.deployment _ MemTarget.server
                   [("locationId", GHL.PStr "elsewhere"); ("phone", GHL.PStr "3035551234")]
                   Fixture.start _)).
  refine (@bool_decide_unpack (NoDup _) (NoDup_dec _) _). vm_compute. exact I.
Defined.

Lemma sync_raises_only_sync_errors_witness :
  exists e w',
    Fixture.sync (Fixture.jobs_only Fixture.failing_jobs)
      (Job (Fixture.job 1 1 "Scheduled" "2024-03-02T09:00:00+00:00" None)) "Job" Fixture.start
    = (Raise e, w')
    /\ is_JobSyncError e = true.
Proof.
  eexists _, _. split; [reflexivity|].
  refine (proj1 (@sync_raises_only_sync_errors basic_runtime Fixture.deployment
                   (Fixture.jobs_only Fixture.failing_jobs) _ MemTarget.server
                   (Job (Fixture.job 1 1 "Scheduled" "2024-03-02T09:00:00+00:00" None)) "Job"
                   (naive (ymd_hms 2024 3 2 14 0 0)) Fixture.start eq_refl) _ _ eq_refl).
Defined.

Lemma unset_stages_skip_every_work_order_witness :
  @main.sync_work_order_to_ghl basic_runtime Scenario.unconfigured Fixture.crm _
     MemTarget.server (Estimate Fixture.won) "Estimate" Fixture.start
  = (Ok tt, Fixture.start).
Proof.
  refine (proj2 (@unset_stages_skip_every_work_order basic_runtime Scenario.unconfigured
                   Fixture.crm _ MemTarget.server (Estimate Fixture.won) "Estimate"
                   (naive (ymd_hms 2024 3 2 13 0 0)) Fixture.start _ eq_refl)
                Fixture.won eq_refl).
  repeat split.
Defined.

Lemma customer_sync_is_one_upsert_witness :
  slack (Scenario.customer_sync Fixture.ada Fixture.start).2 = slack Fixture.start
  /\ state_file (Scenario.customer_sync Fixture.ada Fixture.start).2 = state_file Fixture.start
  /\ (((Scenario.customer_sync Fixture.ada Fixture.start).1 = Raise IndexError
       /\ calls (Scenario.customer_sync Fixture.ada Fixture.start).2 = calls Fixture.start)
      \/ exists data,
           calls (Scenario.customer_sync Fixture.ada Fixture.start).2
           = (calls Fixture.start ++ [GHL.UpsertContact data])%list
           /\ payload_get data "phone" = Some (GHL.PStr "3035551234")
           /\ payload_get data "email" = Some GHL.PNone
           /\ (Scenario.customer_sync Fixture.ada Fixture.start).1
              = (fun _ => tt)
                <$> (GHL.post_contacts_upsert
                       (GHL.set_item data "locationId" (GHL.PStr "loc-1"))
                       (target Fixture.start)).1).
Proof.
  apply (@customer_sync_is_one_upsert Fixture.deployment _ MemTarget.server Fixture.ada
           Fixture.start).
  - reflexivity.
  - apply surjective_pairing.
Defined.

Lemma phone_match_ends_contact_step_witness :
  exists r w',
    Scenario.contact_step Fixture.ada Fixture.after_estimate = (r, w')
    /\ calls w'
       = (calls Fixture.after_estimate
          ++ [ GHL.SearchContactByPhone "3035551234";
               GHL.UpdateContactCustomField "contact-0" "field-sf-customer-id" "5" ])%list
    /\ (r = Ok (Some "contact-0") \/ exists e, r = Raise e).
Proof.
  apply (@phone_match_ends_contact_step Fixture.deployment _ MemTarget.server Fixture.ada
           "3035551234" "contact-0" {| GHL.contact_id := Some "contact-0" |} []
           Fixture.after_estimate); try reflexivity.
  discriminate.
Defined.

Lemma conversion_match_is_listed_witness :
  SFJob.created_at Fixture.converted = Some (SFJob.updated_at Fixture.converted)
  /\ exists ts before after estimate,
       @SFJob.updated_at_datetime basic_runtime Fixture.deployment Fixture.converted = Ok ts
       /\ @sf_client.get_updated_estimates basic_runtime Fixture.deployment Fixture.crm _
            (sub_timedelta ts (timedelta_hours 2)) 50 Fixture.start
          = (Ok (before ++ estimate :: after)%list, Fixture.start)
       /\ SFEstimate.id estimate = 7
       /\ SFEstimate.customer_id estimate = SFJob.customer_id Fixture.converted
       /\ SFEstimate.status estimate = "Estimate Won"
       /\ SFEstimate.updated_at estimate = SFJob.updated_at Fixture.converted
       /\ Forall (fun e => main.is_conversion_of Fixture.converted e = false) before.
Proof.
  apply (@conversion_match_is_listed basic_runtime Fixture.deployment Fixture.crm
           MemTarget.Store Fixture.converted 7 Fixture.start Fixture.start).
  reflexivity.
Defined.

Lemma missing_opportunity_is_created_witness :
  exists r w' new,
    Fixture.sync Fixture.crm (Estimate Fixture.won) "Estimate" Fixture.start = (r, w')
    /\ calls w' = (calls Fixture.start ++ new)%list
    /\ List.filter GHL.opportunity_mutation new
       = [GHL.CreateOpportunity
            (@new_opportunity Fixture.deployment (Estimate Fixture.won) "Estimate"
               "contact-0" "stage-estimate-stop")]
    /\ (r = Ok tt \/ exists e, r = Raise e /\ is_JobSyncError e = true).
Proof.
  refine (@missing_opportunity_is_created basic_runtime Fixture.deployment Fixture.crm _
            MemTarget.server (Estimate Fixture.won) "Estimate" "stage-estimate-stop"
            "contact-0" Fixture.ada None Fixture.start Fixture.start _ _ _
            eq_refl eq_refl _ eq_refl eq_refl eq_refl _ eq_refl eq_refl);
    discriminate.
Defined.

Lemma changed_status_moves_opportunity_witness :
  exists r w' new,
    Fixture.sync Fixture.crm (Estimate Scenario.provided) "Estimate" Fixture.after_estimate
    = (r, w')
    /\ calls w' = (calls Fixture.after_estimate ++ new)%list
    /\ List.filter GHL.opportunity_mutation new
       = [GHL.UpdateOpportunity "opp-0"
            [ ("pipelineStageId", GHL.PStr "stage-estimate-sent");
              ("status", GHL.PStr "open") ]]
    /\ (r = Ok tt \/ exists e, r = Raise e /\ is_JobSyncError e = true).
Proof.
  refine (@changed_status_moves_opportunity basic_runtime Fixture.deployment Fixture.crm _
            MemTarget.server (Estimate Scenario.provided) "Estimate" "stage-estimate-sent"
            "contact-0" "opp-0" Fixture.ada None Fixture.opp0
            Fixture.after_estimate Fixture.after_estimate _ _ _
            eq_refl eq_refl _ eq_refl eq_refl eq_refl _ eq_refl eq_refl eq_refl _);
    discriminate.
Defined.

Lemma blank_name_has_no_first_name_witness :
  SFCustomer.first_name Scenario.unnamed = Raise IndexError
  /\ SFCustomer.last_name Scenario.unnamed = Ok ""
  /\ (@main.no_contact_info Scenario.unnamed = false ->
      forall w : World MemTarget.Store,
        Scenario.customer_sync Scenario.unnamed w = (Raise IndexError, w)).
Proof.
  apply (@blank_name_has_no_first_name Fixture.deployment MemTarget.Store MemTarget.server
           Scenario.unnamed); try reflexivity.
  discriminate.
Defined.

Lemma bad_customer_ends_listing_witness :
  @sf_client.get_updated_customers basic_runtime Scenario.unnamed_first MemTarget.Store
     (naive (ymd_hms 2024 2 29 12 0 0)) 100 Fixture.start
  = (Raise IndexError, Fixture.start).
Proof.
  apply (@bad_customer_ends_listing basic_runtime Scenario.unnamed_first MemTarget.Store
           [Fixture.ada] [] Scenario.unnamed [] (naive (ymd_hms 2024 2 29 12 0 0)) 100
           ValueError Fixture.start); try reflexivity.
  constructor; [reflexivity|constructor].
Defined.

Lemma clean_phone_us_prefix_witness :
  sf_intake.clean_phone (Some "+13035551234") = Some "3035551234"
  /\ sf_intake.clean_phone (Some "13035551234") = Some "3035551234"
  /\ sf_intake.clean_phone (Some "3035551234") = Some "3035551234".
Proof. apply (clean_phone_us_prefix "3035551234"); reflexivity. Defined.

Lemma stage_map_lookup_witness :
  sf_to_ghl_stage_map Fixture.deployment !! "Started" = Some "stage-job-in-progress"
  <-> In ("Started", "stage-job-in-progress") (stage_map_entries Fixture.deployment).
Proof.
  apply (stage_map_lookup Fixture.deployment "Started" "stage-job-in-progress").
  refine (@bool_decide_unpack (NoDup _) (NoDup_dec _) _). vm_compute. exact I.
Defined.
